(** * Bootcamp notebooks: model fitting and interactive plotting

    A shallow embedding of the code cells of the two notebooks of the
    repository:

    - [NLLS]: [MoreNotebooks/ModelFitting/NLLS.ipynb], the synthetic
      emission line and its least-squares fit.  Python floats are read as
      real numbers (ideal arithmetic, no rounding);
    - [Interactive]: the interactive plotting notebook, whose cells and
      callbacks run in a state-and-exception monad over the objects the
      notebook creates (figures, axes, artists, widgets) and the names
      bound in the kernel. *)

From Stdlib Require Import String Reals Lra Lia ZArith QArith Bool Arith List.
Import ListNotations.

(** ** Python exceptions and results *)

Inductive exn : Type :=
| TypeError
| ValueError
| IndexError
| KeyError
| TraitError
| NameError
| ModuleNotFoundError
| LibraryError (origin : string).

Inductive result (A : Type) : Type :=
| Ok (a : A)
| Raise (e : exn).
Arguments Ok {A} a.
Arguments Raise {A} e.

Definition is_ok {A} (r : result A) : bool :=
  match r with Ok _ => true | Raise _ => false end.

(** ** The fitting notebook *)

Module NLLS.
Local Open Scope R_scope.

(** [np.power(a, n)] and the one-argument prefix [+], both on floats. *)
Definition np_power (a : R) (n : nat) : R := a ^ n.
Definition uplus (a : R) : R := a.

(** Cell 1: the true parameters. *)
Definition cont_zp : R := 500.0.
Definition cont_slope : R := 5.0.
Definition amplitude : R := 30.0.
Definition width : R := 0.5.
Definition center : R := 5.0.

(** [np.linspace(start, stop, num)] with [endpoint=True]: numpy computes
    [step = (stop - start) / (num - 1)], fills [arange(num) * step + start]
    and then overwrites the last sample with [stop]. *)
Fixpoint set_last (l : list R) (v : R) : list R :=
  match l with
  | [] => []
  | [_] => [v]
  | a :: tl => a :: set_last tl v
  end.

Definition linspace (start stop : R) (num : nat) : list R :=
  let div := (num - 1)%nat in
  let delta := stop - start in
  let y :=
    if (0 <? div)%nat
    then map (fun i => INR i * (delta / INR div) + start) (seq 0 num)
    else map (fun i => INR i * delta + start) (seq 0 num) in
  if (1 <? num)%nat then set_last y stop else y.

Definition wave : list R := linspace 0 10 100.

(** [flux = amplitude*np.exp(-0.5*np.power(wave-center,2)/width**2)+ cont_zp + + cont_slope*wave],
    numpy broadcasting the scalar operations over [wave]. *)
Definition flux_at (w : R) : R :=
  amplitude * exp (-0.5 * np_power (w - center) 2 / width ^ 2)
  + cont_zp + uplus cont_slope * w.

Definition flux : list R := map flux_at wave.

(** Cell 3: [def model(x, cont, slope, amp, center, width)]. *)
Definition model (x cont slope amp center width : R) : R :=
  amp * exp (-0.5 * np_power (x - center) 2 / width ^ 2) + cont + slope * x.

(** The textbook formula, written as the specification words it. *)
Definition gaussian_plus_continuum_spec (x cont slope amp center width : R) : R :=
  amp * exp (- (x - center) ^ 2 / (2 * width ^ 2)) + cont + slope * x.

(** [f(x, *params)] for a function of five parameters after [x]. *)
Definition star {X Y : Type} (f : X -> R -> R -> R -> R -> R -> Y)
    (x : X) (params : list R) : result Y :=
  match params with
  | [cont; slope; amp; center; width] => Ok (f x cont slope amp center width)
  | _ => Raise TypeError
  end.

(** Cell 5: [model(wave, *popt)]; the body of [model] broadcasts over an
    array argument. *)
Definition model_array (xs : list R) (cont slope amp center width : R) : list R :=
  map (fun x => model x cont slope amp center width) xs.

(** The astropy models of the last section, by their documented
    evaluation: [Gaussian1D] is [amplitude * exp(-0.5 * (x - mean)**2 / stddev**2)],
    [Linear1D] is [slope * x + intercept], and [+] on models adds their
    values. *)
Module models.
Definition Gaussian1D (amplitude mean stddev : R) : R -> R :=
  fun x => amplitude * exp (-0.5 * (x - mean) ^ 2 / stddev ^ 2).
Definition Linear1D (slope intercept : R) : R -> R :=
  fun x => slope * x + intercept.
Definition add (f g : R -> R) : R -> R := fun x => f x + g x.
End models.

(** The initial guess handed to both fitters. *)
Definition p0 : list R := [425.0; 0.0; 80.0; 4.5; 1.0].

Definition line : R -> R := models.Gaussian1D 80.0 4.5 1.0.
Definition continuum : R -> R := models.Linear1D 0.0 425.0.
Definition compound_model : R -> R := models.add line continuum.

(** Cell 1, last line: [obs_flux = np.random.poisson(flux)].  The legacy
    numpy generator is a global state threaded through the draws; one
    draw of mean [lam] is [poisson_draw lam].  numpy refuses a negative
    mean anywhere in the argument with [ValueError] before drawing. *)
Section Synthetic.
Variable RNG : Type.
Variable poisson_draw : R -> RNG -> Z * RNG.

Fixpoint poisson_each (lam : list R) (g : RNG) : list Z * RNG :=
  match lam with
  | [] => ([], g)
  | l :: tl =>
      let (k, g1) := poisson_draw l g in
      let (ks, g2) := poisson_each tl g1 in
      (k :: ks, g2)
  end.

Definition negative (l : R) : bool := if Rlt_dec l 0 then true else false.

Definition np_random_poisson (lam : list R) (g : RNG) : result (list Z) * RNG :=
  if existsb negative lam then (Raise ValueError, g)
  else let (ks, g') := poisson_each lam g in (Ok ks, g').

Definition obs_flux (g : RNG) : result (list Z) * RNG :=
  np_random_poisson flux g.

(** A count [k] is one draw of mean [lam], at some generator state. *)
Definition single_draw (lam : R) (k : Z) : Prop :=
  exists g, k = fst (poisson_draw lam g).
End Synthetic.

(** Cell 4: [popt,pcov = curve_fit(model, wave, obs_flux, p0=..., sigma=np.sqrt(obs_flux))].
    The optimizer is scipy's; it is a parameter here. *)
Definition fitter : Type :=
  (R -> list R -> result R) -> list R -> list R -> list R -> list R ->
  result (list R * list (list R)).

(** What scipy documents of the shapes: [popt] has one entry per entry of
    [p0], and [pcov] is square of that order. *)
Definition curve_fit_shapes (curve_fit : fitter) : Prop :=
  forall f xdata ydata p0 sigma popt pcov,
    curve_fit f xdata ydata p0 sigma = Ok (popt, pcov) ->
    length popt = length p0 /\
    length pcov = length p0 /\
    Forall (fun row => length row = length p0) pcov.

Definition np_sqrt (ys : list Z) : list R := map (fun y => sqrt (IZR y)) ys.

Definition fit_cell (curve_fit : fitter) (obs : list Z)
  : result (list R * list (list R)) :=
  curve_fit (star model) wave (map IZR obs) p0 (np_sqrt obs).

(** Cell 6: [err = np.sqrt(np.diag(pcov))] and
    [pcor = pcov/np.outer(err,err)].  [pcov] is the square array that
    [curve_fit] returns, so the two operands of the division have one
    shape and numpy divides entry by entry. *)
Definition entry (m : list (list R)) (i j : nat) : R :=
  nth j (nth i m []) 0.

Definition np_diag (m : list (list R)) : list R :=
  map (fun i => entry m i i) (seq 0 (length m)).

Definition err (pcov : list (list R)) : list R :=
  map sqrt (np_diag pcov).

Definition np_outer (a b : list R) : list (list R) :=
  map (fun x => map (fun y => x * y) b) a.

Definition divide_entries (a b : list (list R)) : list (list R) :=
  map (fun rows => map (fun xy => fst xy / snd xy) (combine (fst rows) (snd rows)))
      (combine a b).

Definition pcor (pcov : list (list R)) : list (list R) :=
  divide_entries pcov (np_outer (err pcov) (err pcov)).

(** Cell 7, the error ellipse.  [np.linalg.eigh] of the two-by-two block
    [pcov[0:2,0:2]] gives two eigenvalues and a matrix whose columns are
    the eigenvectors; the cell puts the larger eigenvalue first. *)
Definition vec2 : Type := (R * R)%type.
Definition mat2 : Type := (vec2 * vec2)%type.

Definition block2 (pcov : list (list R)) : mat2 :=
  ((entry pcov 0 0, entry pcov 0 1), (entry pcov 1 0, entry pcov 1 1)).

(** [v[::-1]] on a pair and [m[:,::-1]] on a two-by-two array. *)
Definition reversed (v : vec2) : vec2 := (snd v, fst v).
Definition reversed_columns (m : mat2) : mat2 :=
  (reversed (fst m), reversed (snd m)).

(** [if eigval[0]<eigval[1]: eigval = eigval[::-1]; eigvec = eigvec[:,::-1]]. *)
Definition reverse_sorted (eigval : vec2) (eigvec : mat2) : vec2 * mat2 :=
  if Rlt_dec (fst eigval) (snd eigval)
  then (reversed eigval, reversed_columns eigvec)
  else (eigval, eigvec).

(** [width,height = 2*np.sqrt(eigval)*np.sqrt(5.9)]. *)
Definition ellipse_axes (eigval : vec2) : R * R :=
  (2 * sqrt (fst eigval) * sqrt 5.9, 2 * sqrt (snd eigval) * sqrt 5.9).

(** Column [k] of a two-by-two array, and what it is for a column to be
    an eigenvector of [c] for the value [l]. *)
Definition column (m : mat2) (k : bool) : vec2 :=
  if k then (snd (fst m), snd (snd m)) else (fst (fst m), fst (snd m)).

Definition component (v : vec2) (k : bool) : R :=
  if k then snd v else fst v.

Definition eigenpair (c : mat2) (l : R) (v : vec2) : Prop :=
  fst (fst c) * fst v + snd (fst c) * snd v = l * fst v /\
  fst (snd c) * fst v + snd (snd c) * snd v = l * snd v.

(** A fitter that performs no iteration: it returns the guess and a zero
    covariance.  It only serves to run [fit_cell]. *)
Definition null_fit : fitter :=
  fun _ _ _ p0 _ => Ok (p0, map (fun _ => map (fun _ => 0) p0) p0).

End NLLS.


(** ** The interactive plotting notebook *)

Module Interactive.
Local Open Scope Z_scope.

(** *** Values of the notebook *)

(** A numpy array: its shape and its entries in row-major order. *)
Record ndarray : Type := { shape : list nat; data : list Q }.

Definition ndim (a : ndarray) : nat := length (shape a).
Definition size_of (dims : list nat) : nat := fold_right Nat.mul 1%nat dims.

(** An index [i] into an axis of length [n], as Python and numpy read it:
    [0 <= i < n] counts from the front, [-n <= i < 0] from the back, and
    anything else raises [IndexError]. *)
Definition norm_index (i : Z) (n : nat) : result nat :=
  if (0 <=? i) && (i <? Z.of_nat n) then Ok (Z.to_nat i)
  else if (- Z.of_nat n <=? i) && (i <? 0) then Ok (Z.to_nat (i + Z.of_nat n))
  else Raise IndexError.

Definition list_getitem {A : Type} (l : list A) (i : Z) : result A :=
  match norm_index i (length l) with
  | Ok k => match nth_error l k with
            | Some a => Ok a
            | None => Raise IndexError
            end
  | Raise e => Raise e
  end.

Definition slice_of (l : list Q) (start len : nat) : list Q :=
  firstn len (skipn start l).

(** [a[i, :]]: needs two axes at least. *)
Definition ndarray_getitem_row (a : ndarray) (i : Z) : result ndarray :=
  match shape a with
  | d0 :: d1 :: rest =>
      match norm_index i d0 with
      | Ok r =>
          let sz := size_of (d1 :: rest) in
          Ok {| shape := d1 :: rest; data := slice_of (data a) (r * sz) sz |}
      | Raise e => Raise e
      end
  | _ => Raise IndexError
  end.

(** [a[i, j]]. *)
Definition ndarray_getitem2 (a : ndarray) (i j : Z) : result ndarray :=
  match shape a with
  | d0 :: d1 :: rest =>
      match norm_index i d0 with
      | Ok r =>
          match norm_index j d1 with
          | Ok c =>
              let sz := size_of rest in
              Ok {| shape := rest; data := slice_of (data a) ((r * d1 + c) * sz) sz |}
          | Raise e => Raise e
          end
      | Raise e => Raise e
      end
  | _ => Raise IndexError
  end.

(** [zl,xl = a.shape]: unpacking into two names needs exactly two axes. *)
Definition unpack2 (dims : list nat) : result (nat * nat) :=
  match dims with
  | [zl; xl] => Ok (zl, xl)
  | _ => Raise ValueError
  end.

(** A float is read as a rational; [None] is Python's [None]. *)
Definition pyfloat : Type := option Q.

(** [int(v)]: truncation toward zero of a float, [TypeError] on [None]. *)
Definition trunc (q : Q) : Z := Z.quot (Qnum q) (Z.pos (Qden q)).

Definition py_int (v : pyfloat) : result Z :=
  match v with
  | Some q => Ok (trunc q)
  | None => Raise TypeError
  end.

(** A float conversion of the [%f] directive. *)
Definition py_float (v : pyfloat) : result Q :=
  match v with
  | Some q => Ok q
  | None => Raise TypeError
  end.

(** [%f] applied to an array: numpy converts an array of one entry. *)
Definition float_of_array (a : ndarray) : result Q :=
  match data a with
  | [v] => Ok v
  | _ => Raise TypeError
  end.

(** A FITS binary table: named columns over rows of floats. *)
Record Table : Type := { columns : list string; rows : list (list Q) }.

Fixpoint index_of (name : string) (names : list string) : option nat :=
  match names with
  | [] => None
  | n :: tl => if String.eqb n name then Some 0%nat
               else option_map S (index_of name tl)
  end.

(** [tab[name]]: the column as an array with one entry per row. *)
Definition table_getitem (t : Table) (name : string) : result (list Q) :=
  match index_of name (columns t) with
  | Some k => Ok (map (fun r => nth k r 0%Q) (rows t))
  | None => Raise KeyError
  end.

(** A matplotlib key event.  The backend sets [xdata] and [ydata] together:
    both are floats when the cursor is inside an axes, both [None]
    otherwise. *)
Record KeyEvent : Type := { key : option string; position : option (Q * Q) }.

Definition xdata (e : KeyEvent) : pyfloat := option_map fst (position e).
Definition ydata (e : KeyEvent) : pyfloat := option_map snd (position e).

Definition key_is (e : KeyEvent) (k : string) : bool :=
  match key e with
  | Some s => String.eqb s k
  | None => false
  end.

(** *** Objects of the plotting and widget libraries *)

Record LineStyle : Type :=
  { color : option string; marker : option string; linestyle : option string }.

(** The format strings of the notebook: colour letters, marker letters and
    dashes. *)
Fixpoint scan_format (cs : list Ascii.ascii) (st : LineStyle) : LineStyle :=
  match cs with
  | [] => st
  | c :: tl =>
      let one := String c EmptyString in
      let st' :=
        if existsb (String.eqb one) ["r"; "g"; "b"; "k"]%string
        then {| color := Some one; marker := marker st; linestyle := linestyle st |}
        else if existsb (String.eqb one) ["o"; "*"]%string
        then {| color := color st; marker := Some one; linestyle := linestyle st |}
        else if String.eqb one "-"
        then {| color := color st; marker := marker st;
                linestyle := match linestyle st with
                             | Some l => Some (l ++ one)%string
                             | None => Some one
                             end |}
        else st in
      scan_format tl st'
  end.

Definition process_plot_format (fmt : string) : LineStyle :=
  scan_format (list_ascii_of_string fmt)
              {| color := None; marker := None; linestyle := None |}.

Record Line2D : Type :=
  { line_x : list pyfloat;
    line_y : list pyfloat;
    style : LineStyle;
    markersize : option Q;
    visible : bool }.

Inductive Artist : Type :=
| AxesImage (img : ndarray) (vmin vmax : Q)
| LineArtist (id : nat).

Record Axes : Type :=
  { children : list Artist; xlabel : string; ylabel : string }.

Record GUI_inter : Type :=
  { self_fig : nat; self_p : nat; self_img : ndarray; v0 : Q; v1 : Q }.

(** The functions the notebook hands to [mpl_connect] and [observe]. *)
Inductive Handler : Type :=
| H_on_key_press
| H_on_key_press_captured
| H_GUI_on_key_press (self : GUI_inter)
| H_update
| H_new_spec
| H_display_lines.

Record Figure : Type :=
  { fig_axes : list nat;
    draw_count : nat;
    draw_idle_count : nat;
    connected : list (string * Handler) }.

Record IntSlider : Type :=
  { value : Z; smin : Z; smax : Z; step : Z;
    description : string;
    slider_observers : list (string * Handler) }.

Record Checkbox : Type :=
  { checked : bool; checkbox_observers : list (string * Handler) }.

(** What [print] is given: a string or a number. *)
Inductive PyVal : Type :=
| Str (s : string)
| Num (q : Q).

(** What a cell's output area or the Output widget receives: the operands
    of a [%]-formatted string, the arguments of a [print] with several
    arguments, a traceback. *)
Inductive OutItem : Type :=
| Text (format : string) (args : list Q)
| Printed (args : list PyVal)
| Traceback (e : exn).

Inductive Displayed : Type :=
| ShowOutput
| ShowSlider (id : nat)
| ShowCheckbox (id : nat).

(** The sky position that [coordinates.SkyCoord] is built from, in
    degrees. *)
Record SkyCoord : Type := { co_ra : Q; co_dec : Q }.

(** *** The kernel's state *)

(** What the notebook cannot decide: the session it runs in, the modules
    installed, and the answers of the remote services. *)
Record Env : Type :=
  { in_kernel : bool;
    plot_rejects_None : bool;
    import_error : string -> option exn;
    version_of : string -> string;
    magic_matplotlib : string -> result unit;
    pow10 : Q -> Q;
    np_mean : ndarray -> Q;
    np_std : ndarray -> Q;
    skyview_get_images : result (list (list ndarray));
    sdss_query_region : SkyCoord -> result (option (list nat));
    sdss_get_spectra : option (list nat) -> result (list (list Table)) }.

(** The names bound in the kernel.  [g_names] lists the names bound to
    modules and classes, by [import] and [class] statements.  The other
    fields are the names that one cell binds to data and a later cell or a
    callback reads: each is unbound ([None]) until a cell has assigned it.
    A callback looks a name up when it runs, not when it is defined. *)
Record Globals : Type :=
  { g_names : list string;
    g_ext : option Z;
    g_image : option ndarray;
    g_fig : option nat;
    g_p : option nat;
    g_line : option nat;
    g_line2 : option nat;
    g_sp : option (list (list Table));
    g_ra : option Q;
    g_dec : option Q;
    g_co : option SkyCoord }.

Record World : Type :=
  { env : Env;
    globals : Globals;
    figures : nat -> Figure;
    next_fig : nat;
    gcf : nat;
    interactive : bool;
    axes : nat -> Axes;
    next_ax : nat;
    lines : nat -> Line2D;
    next_line : nat;
    sliders : nat -> IntSlider;
    next_slider : nat;
    checkboxes : nat -> Checkbox;
    next_checkbox : nat;
    capturing : bool;
    stdout : list OutItem;
    out_widget : list OutItem;
    displayed : list Displayed }.

Definition upd {A : Type} (f : nat -> A) (k : nat) (v : A) : nat -> A :=
  fun i => if Nat.eqb i k then v else f i.

Definition with_globals (g : Globals) (w : World) : World :=
  {| env := env w; globals := g; figures := figures w; next_fig := next_fig w;
     gcf := gcf w; interactive := interactive w; axes := axes w;
     next_ax := next_ax w; lines := lines w; next_line := next_line w;
     sliders := sliders w; next_slider := next_slider w;
     checkboxes := checkboxes w; next_checkbox := next_checkbox w;
     capturing := capturing w; stdout := stdout w;
     out_widget := out_widget w; displayed := displayed w |}.

Definition with_figures (f : nat -> Figure) (n : nat) (cur : nat) (w : World) : World :=
  {| env := env w; globals := globals w; figures := f; next_fig := n;
     gcf := cur; interactive := interactive w; axes := axes w;
     next_ax := next_ax w; lines := lines w; next_line := next_line w;
     sliders := sliders w; next_slider := next_slider w;
     checkboxes := checkboxes w; next_checkbox := next_checkbox w;
     capturing := capturing w; stdout := stdout w;
     out_widget := out_widget w; displayed := displayed w |}.

Definition with_interactive (b : bool) (w : World) : World :=
  {| env := env w; globals := globals w; figures := figures w;
     next_fig := next_fig w; gcf := gcf w; interactive := b; axes := axes w;
     next_ax := next_ax w; lines := lines w; next_line := next_line w;
     sliders := sliders w; next_slider := next_slider w;
     checkboxes := checkboxes w; next_checkbox := next_checkbox w;
     capturing := capturing w; stdout := stdout w;
     out_widget := out_widget w; displayed := displayed w |}.

Definition with_axes (f : nat -> Axes) (n : nat) (w : World) : World :=
  {| env := env w; globals := globals w; figures := figures w;
     next_fig := next_fig w; gcf := gcf w; interactive := interactive w;
     axes := f; next_ax := n; lines := lines w; next_line := next_line w;
     sliders := sliders w; next_slider := next_slider w;
     checkboxes := checkboxes w; next_checkbox := next_checkbox w;
     capturing := capturing w; stdout := stdout w;
     out_widget := out_widget w; displayed := displayed w |}.

Definition with_lines (f : nat -> Line2D) (n : nat) (w : World) : World :=
  {| env := env w; globals := globals w; figures := figures w;
     next_fig := next_fig w; gcf := gcf w; interactive := interactive w;
     axes := axes w; next_ax := next_ax w; lines := f; next_line := n;
     sliders := sliders w; next_slider := next_slider w;
     checkboxes := checkboxes w; next_checkbox := next_checkbox w;
     capturing := capturing w; stdout := stdout w;
     out_widget := out_widget w; displayed := displayed w |}.

Definition with_sliders (f : nat -> IntSlider) (n : nat) (w : World) : World :=
  {| env := env w; globals := globals w; figures := figures w;
     next_fig := next_fig w; gcf := gcf w; interactive := interactive w;
     axes := axes w; next_ax := next_ax w; lines := lines w;
     next_line := next_line w; sliders := f; next_slider := n;
     checkboxes := checkboxes w; next_checkbox := next_checkbox w;
     capturing := capturing w; stdout := stdout w;
     out_widget := out_widget w; displayed := displayed w |}.

Definition with_checkboxes (f : nat -> Checkbox) (n : nat) (w : World) : World :=
  {| env := env w; globals := globals w; figures := figures w;
     next_fig := next_fig w; gcf := gcf w; interactive := interactive w;
     axes := axes w; next_ax := next_ax w; lines := lines w;
     next_line := next_line w; sliders := sliders w;
     next_slider := next_slider w; checkboxes := f; next_checkbox := n;
     capturing := capturing w; stdout := stdout w;
     out_widget := out_widget w; displayed := displayed w |}.

Definition with_output (c : bool) (so ow : list OutItem) (d : list Displayed)
    (w : World) : World :=
  {| env := env w; globals := globals w; figures := figures w;
     next_fig := next_fig w; gcf := gcf w; interactive := interactive w;
     axes := axes w; next_ax := next_ax w; lines := lines w;
     next_line := next_line w; sliders := sliders w;
     next_slider := next_slider w; checkboxes := checkboxes w;
     next_checkbox := next_checkbox w;
     capturing := c; stdout := so; out_widget := ow; displayed := d |}.
(** *** Cells and callbacks as computations

    A computation runs on the kernel's state and either returns or raises.
    It also reports its steps in order, and which of them raised: the
    calls into libraries and built-ins, and the statements the interpreter
    carries out itself and may refuse -- the lookup of a global name
    ([NameError] while it is unbound), an unpacking, an [import]. *)

Inductive Origin : Type := Library | Interpreter.

Record Call : Type :=
  { origin : Origin; callee : string; raised : option exn }.

Record Outcome (A : Type) : Type :=
  { res : result A; world : World; calls : list Call }.
Arguments res {A} o.
Arguments world {A} o.
Arguments calls {A} o.

Definition M (A : Type) : Type := World -> Outcome A.

Definition ret {A : Type} (a : A) : M A :=
  fun w => {| res := Ok a; world := w; calls := [] |}.

Definition bind {A B : Type} (m : M A) (k : A -> M B) : M B :=
  fun w =>
    let o := m w in
    match res o with
    | Ok a =>
        let o' := k a (world o) in
        {| res := res o'; world := world o'; calls := calls o ++ calls o' |}
    | Raise e => {| res := Raise e; world := world o; calls := calls o |}
    end.

Notation "x <- m ;; k" := (bind m (fun x => k))
  (at level 61, m at next level, right associativity).
Notation "m ;;; k" := (bind m (fun _ => k))
  (at level 61, right associativity).

Definition outcome_of {A : Type} (r : result A) : option exn :=
  match r with Ok _ => None | Raise e => Some e end.

(** One step: it returns or raises, and is reported either way. *)
Definition op {A : Type} (o : Origin) (name : string)
    (f : World -> result A * World) : M A :=
  fun w =>
    let rw := f w in
    {| res := fst rw; world := snd rw;
       calls := [ {| origin := o; callee := name;
                     raised := outcome_of (fst rw) |} ] |}.

(** A call into a library or a built-in. *)
Definition lib {A : Type} (name : string) (f : World -> result A * World) : M A :=
  op Library name f.

(** A call that only computes. *)
Definition lib_pure {A : Type} (name : string) (r : result A) : M A :=
  lib name (fun w => (r, w)).

(** The value of a global name: [NameError] while no cell has bound it. *)
Definition read {A : Type} (name : string) (f : Globals -> option A) : M A :=
  op Interpreter name (fun w =>
    (match f (globals w) with Some a => Ok a | None => Raise NameError end, w)).

Definition has (name : string) (names : list string) : bool :=
  existsb (String.eqb name) names.

(** The lookup of a name bound to a module or a class, as in [plt.figure]
    or [GUI_inter(...)]. *)
Definition use (name : string) : M unit :=
  op Interpreter name (fun w =>
    (if has name (g_names (globals w)) then Ok tt else Raise NameError, w)).

(** Binding global names: an assignment never fails. *)
Definition assign (f : Globals -> Globals) : M unit :=
  fun w => {| res := Ok tt; world := with_globals (f (globals w)) w; calls := [] |}.

Definition bind_name (name : string) (g : Globals) : Globals :=
  {| g_names := name :: g_names g; g_ext := g_ext g; g_image := g_image g;
     g_fig := g_fig g; g_p := g_p g; g_line := g_line g; g_line2 := g_line2 g;
     g_sp := g_sp g; g_ra := g_ra g; g_dec := g_dec g; g_co := g_co g |}.
Definition set_ext (v : Z) (g : Globals) : Globals :=
  {| g_names := g_names g; g_ext := Some v; g_image := g_image g;
     g_fig := g_fig g; g_p := g_p g; g_line := g_line g; g_line2 := g_line2 g;
     g_sp := g_sp g; g_ra := g_ra g; g_dec := g_dec g; g_co := g_co g |}.
Definition set_image (v : ndarray) (g : Globals) : Globals :=
  {| g_names := g_names g; g_ext := g_ext g; g_image := Some v;
     g_fig := g_fig g; g_p := g_p g; g_line := g_line g; g_line2 := g_line2 g;
     g_sp := g_sp g; g_ra := g_ra g; g_dec := g_dec g; g_co := g_co g |}.
Definition set_fig (v : nat) (g : Globals) : Globals :=
  {| g_names := g_names g; g_ext := g_ext g; g_image := g_image g;
     g_fig := Some v; g_p := g_p g; g_line := g_line g; g_line2 := g_line2 g;
     g_sp := g_sp g; g_ra := g_ra g; g_dec := g_dec g; g_co := g_co g |}.
Definition set_p (v : nat) (g : Globals) : Globals :=
  {| g_names := g_names g; g_ext := g_ext g; g_image := g_image g;
     g_fig := g_fig g; g_p := Some v; g_line := g_line g; g_line2 := g_line2 g;
     g_sp := g_sp g; g_ra := g_ra g; g_dec := g_dec g; g_co := g_co g |}.
Definition set_line (v : nat) (g : Globals) : Globals :=
  {| g_names := g_names g; g_ext := g_ext g; g_image := g_image g;
     g_fig := g_fig g; g_p := g_p g; g_line := Some v; g_line2 := g_line2 g;
     g_sp := g_sp g; g_ra := g_ra g; g_dec := g_dec g; g_co := g_co g |}.
Definition set_line2 (v : nat) (g : Globals) : Globals :=
  {| g_names := g_names g; g_ext := g_ext g; g_image := g_image g;
     g_fig := g_fig g; g_p := g_p g; g_line := g_line g; g_line2 := Some v;
     g_sp := g_sp g; g_ra := g_ra g; g_dec := g_dec g; g_co := g_co g |}.
Definition set_sp (v : list (list Table)) (g : Globals) : Globals :=
  {| g_names := g_names g; g_ext := g_ext g; g_image := g_image g;
     g_fig := g_fig g; g_p := g_p g; g_line := g_line g; g_line2 := g_line2 g;
     g_sp := Some v; g_ra := g_ra g; g_dec := g_dec g; g_co := g_co g |}.
Definition set_ra (v : Q) (g : Globals) : Globals :=
  {| g_names := g_names g; g_ext := g_ext g; g_image := g_image g;
     g_fig := g_fig g; g_p := g_p g; g_line := g_line g; g_line2 := g_line2 g;
     g_sp := g_sp g; g_ra := Some v; g_dec := g_dec g; g_co := g_co g |}.
Definition set_dec (v : Q) (g : Globals) : Globals :=
  {| g_names := g_names g; g_ext := g_ext g; g_image := g_image g;
     g_fig := g_fig g; g_p := g_p g; g_line := g_line g; g_line2 := g_line2 g;
     g_sp := g_sp g; g_ra := g_ra g; g_dec := Some v; g_co := g_co g |}.
Definition set_co (v : SkyCoord) (g : Globals) : Globals :=
  {| g_names := g_names g; g_ext := g_ext g; g_image := g_image g;
     g_fig := g_fig g; g_p := g_p g; g_line := g_line g; g_line2 := g_line2 g;
     g_sp := g_sp g; g_ra := g_ra g; g_dec := g_dec g; g_co := Some v |}.

(** [import target as name] and [from ... import name]: the statement
    raises what importing [target] raises, and binds [name] otherwise. *)
Definition import_ (target name : string) : M unit :=
  op Interpreter ("import " ++ target) (fun w =>
    match import_error (env w) target with
    | None => (Ok tt, with_globals (bind_name name (globals w)) w)
    | Some e => (Raise e, w)
    end).

(** [name.__version__] and [sys.version], of an imported module. *)
Definition module_version (name : string) : M string :=
  op Interpreter name (fun w =>
    (if has name (g_names (globals w))
     then Ok (version_of (env w) name) else Raise NameError, w)).

(** *** Library calls *)

Definition getitem {A : Type} (l : list A) (i : Z) : M A :=
  lib_pure "list.__getitem__" (list_getitem l i).

Definition empty_figure : Figure :=
  {| fig_axes := []; draw_count := 0; draw_idle_count := 0; connected := [] |}.

Definition set_fig_axes (l : list nat) (f : Figure) : Figure :=
  {| fig_axes := l; draw_count := draw_count f;
     draw_idle_count := draw_idle_count f; connected := connected f |}.
Definition bump_draw (f : Figure) : Figure :=
  {| fig_axes := fig_axes f; draw_count := S (draw_count f);
     draw_idle_count := draw_idle_count f; connected := connected f |}.
Definition bump_draw_idle (f : Figure) : Figure :=
  {| fig_axes := fig_axes f; draw_count := draw_count f;
     draw_idle_count := S (draw_idle_count f); connected := connected f |}.
Definition add_connection (c : string * Handler) (f : Figure) : Figure :=
  {| fig_axes := fig_axes f; draw_count := draw_count f;
     draw_idle_count := draw_idle_count f; connected := connected f ++ [c] |}.

Definition on_figure (id : nat) (g : Figure -> Figure) (w : World) : World :=
  with_figures (upd (figures w) id (g (figures w id))) (next_fig w) (gcf w) w.

(** [plt.figure(...)]: a new figure, which becomes pyplot's current one. *)
Definition plt_figure : M nat :=
  lib "plt.figure" (fun w =>
    let id := next_fig w in
    (Ok id, with_figures (upd (figures w) id empty_figure) (S id) id w)).

Definition plt_ion : M unit :=
  lib "plt.ion" (fun w => (Ok tt, with_interactive true w)).

Definition plt_show : M unit :=
  lib "plt.show" (fun w => (Ok tt, w)).

(** [plt.clf()] clears pyplot's current figure. *)
Definition plt_clf : M unit :=
  lib "plt.clf" (fun w => (Ok tt, on_figure (gcf w) (set_fig_axes []) w)).

(** [plt.draw()] asks the current figure's canvas for a deferred redraw. *)
Definition plt_draw : M unit :=
  lib "plt.draw" (fun w => (Ok tt, on_figure (gcf w) bump_draw_idle w)).

Definition empty_axes : Axes :=
  {| children := []; xlabel := ""; ylabel := "" |}.

Definition add_child (a : Artist) (ax : Axes) : Axes :=
  {| children := children ax ++ [a]; xlabel := xlabel ax; ylabel := ylabel ax |}.

Definition new_axes (fig : nat) (w : World) : result nat * World :=
  let ax := next_ax w in
  (Ok ax,
   on_figure fig (fun f => set_fig_axes (fig_axes f ++ [ax]) f)
     (with_axes (upd (axes w) ax empty_axes) (S ax) w)).

Definition Figure_add_subplot (fig : nat) : M nat :=
  lib "Figure.add_subplot" (new_axes fig).

(** [fig.gca()]: the figure's latest axes, made first when it has none. *)
Definition Figure_gca (fig : nat) : M nat :=
  lib "Figure.gca" (fun w =>
    match rev (fig_axes (figures w fig)) with
    | ax :: _ => (Ok ax, w)
    | [] => new_axes fig w
    end).

Definition image_shape_ok (dims : list nat) : bool :=
  match dims with
  | [_; _] => true
  | [_; _; c] => Nat.eqb c 1 || Nat.eqb c 3 || Nat.eqb c 4
  | _ => false
  end.

(** [ax.imshow(img, ..., vmin=, vmax=)] adds an image artist showing the
    array it is given.  matplotlib takes a plane [(M, N)], a plane of
    single values [(M, N, 1)], and a plane of colour triples or quadruples
    [(M, N, 3)], [(M, N, 4)]; it refuses any other shape with
    [TypeError]. *)
Definition Axes_imshow (ax : nat) (img : ndarray) (lo hi : Q) : M unit :=
  lib "Axes.imshow" (fun w =>
    if image_shape_ok (shape img)
    then (Ok tt, with_axes (upd (axes w) ax (add_child (AxesImage img lo hi) (axes w ax)))
                           (next_ax w) w)
    else (Raise TypeError, w)).

Definition is_None (v : pyfloat) : bool :=
  match v with None => true | Some _ => false end.

Definition with_color (c : option string) (st : LineStyle) : LineStyle :=
  match c with
  | Some _ => {| color := c; marker := marker st; linestyle := linestyle st |}
  | None => st
  end.

(** [ax.plot(x, y, fmt, c=, markersize=)] for one-dimensional [x] and [y]
    (a scalar counts as one sample): a new line is added to the axes.
    matplotlib raises [ValueError] when the two lengths differ and, in the
    releases that check it, when an argument is [None]. *)
Definition Axes_plot (ax : nat) (xs ys : list pyfloat) (fmt : string)
    (c : option string) (ms : option Q) : M nat :=
  lib "Axes.plot" (fun w =>
    if plot_rejects_None (env w) && existsb is_None (xs ++ ys)
    then (Raise ValueError, w)
    else if negb (Nat.eqb (length xs) (length ys))
    then (Raise ValueError, w)
    else
      let id := next_line w in
      let l := {| line_x := xs; line_y := ys;
                  style := with_color c (process_plot_format fmt);
                  markersize := ms; visible := true |} in
      (Ok id,
       with_axes (upd (axes w) ax (add_child (LineArtist id) (axes w ax)))
                 (next_ax w)
                 (with_lines (upd (lines w) id l) (S id) w))).

Definition floats (l : list Q) : list pyfloat := map Some l.

Definition arange (n : nat) : list pyfloat :=
  map (fun i => Some (inject_Z (Z.of_nat i))) (seq 0 n).

(** [ax.plot(y)] for one-dimensional [y]: the samples against their
    positions. *)
Definition Axes_plot1 (ax : nat) (ys : list Q) : M nat :=
  Axes_plot ax (arange (length ys)) (floats ys) "" None None.

(** The line that [ax.plot(y)] draws for the samples [ys]. *)
Definition samples_line (ys : list Q) : Line2D :=
  {| line_x := arange (length ys); line_y := floats ys;
     style := {| color := None; marker := None; linestyle := None |};
     markersize := None; visible := true |}.

(** The state [w] with one more line, [l], added to the axes [ax]. *)
Definition add_line (ax : nat) (l : Line2D) (w : World) : World :=
  with_axes (upd (axes w) ax (add_child (LineArtist (next_line w)) (axes w ax)))
            (next_ax w)
            (with_lines (upd (lines w) (next_line w) l) (S (next_line w)) w).

(** Column [j] of a row-major array of [n] rows and [m] columns. *)
Definition column_of (d : list Q) (n m j : nat) : list Q :=
  map (fun r => nth (r * m + j) d 0%Q) (seq 0 n).

Definition plot_columns (ax : nat) (cols : list (list Q)) (w : World)
    : list nat * World :=
  fold_left
    (fun acc ys =>
       (fst acc ++ [next_line (snd acc)],
        add_line ax (samples_line ys) (snd acc)))
    cols ([], w).

(** [ax.plot(y)] for an array [y]: one line for a scalar or a
    one-dimensional array, one line per column for a two-dimensional one,
    and [ValueError] for more dimensions.  It returns the lines. *)
Definition Axes_plot_y (ax : nat) (y : ndarray) : M (list nat) :=
  lib "Axes.plot" (fun w =>
    match shape y with
    | [] | [_] =>
        let r := plot_columns ax [data y] w in (Ok (fst r), snd r)
    | [n; m] =>
        let r := plot_columns ax (map (column_of (data y) n m) (seq 0 m)) w in
        (Ok (fst r), snd r)
    | _ => (Raise ValueError, w)
    end).

Definition Axes_set_xlabel (ax : nat) (s : string) : M unit :=
  lib "Axes.set_xlabel" (fun w =>
    (Ok tt, with_axes (upd (axes w) ax
       {| children := children (axes w ax); xlabel := s; ylabel := ylabel (axes w ax) |})
       (next_ax w) w)).

Definition Axes_set_ylabel (ax : nat) (s : string) : M unit :=
  lib "Axes.set_ylabel" (fun w =>
    (Ok tt, with_axes (upd (axes w) ax
       {| children := children (axes w ax); xlabel := xlabel (axes w ax); ylabel := s |})
       (next_ax w) w)).

Definition on_line (id : nat) (g : Line2D -> Line2D) (w : World) : World :=
  with_lines (upd (lines w) id (g (lines w id))) (next_line w) w.

Definition Line2D_set_xdata (id : nat) (xs : list Q) : M unit :=
  lib "Line2D.set_xdata" (fun w =>
    (Ok tt, on_line id (fun l =>
       {| line_x := floats xs; line_y := line_y l; style := style l;
          markersize := markersize l; visible := visible l |}) w)).

Definition Line2D_set_ydata (id : nat) (ys : list Q) : M unit :=
  lib "Line2D.set_ydata" (fun w =>
    (Ok tt, on_line id (fun l =>
       {| line_x := line_x l; line_y := floats ys; style := style l;
          markersize := markersize l; visible := visible l |}) w)).

Definition Line2D_set_visible (id : nat) (b : bool) : M unit :=
  lib "Line2D.set_visible" (fun w =>
    (Ok tt, on_line id (fun l =>
       {| line_x := line_x l; line_y := line_y l; style := style l;
          markersize := markersize l; visible := b |}) w)).

(** [fig.canvas.draw()] and [fig.canvas.draw_idle()], when called. *)
Definition FigureCanvas_draw (fig : nat) : M unit :=
  lib "FigureCanvas.draw" (fun w => (Ok tt, on_figure fig bump_draw w)).

Definition FigureCanvas_draw_idle (fig : nat) : M unit :=
  lib "FigureCanvas.draw_idle" (fun w => (Ok tt, on_figure fig bump_draw_idle w)).

(** [fig.canvas.mpl_connect(name, func)] returns the connection id. *)
Definition FigureCanvas_mpl_connect (fig : nat) (name : string) (h : Handler) : M nat :=
  lib "FigureCanvas.mpl_connect" (fun w =>
    (Ok (length (connected (figures w fig))),
     on_figure fig (add_connection (name, h)) w)).

Definition print (item : OutItem) : M unit :=
  lib "print" (fun w =>
    if capturing w
    then (Ok tt, with_output true (stdout w) (out_widget w ++ [item]) (displayed w) w)
    else (Ok tt, with_output false (stdout w ++ [item]) (out_widget w) (displayed w) w)).

Definition display (d : Displayed) : M unit :=
  lib "display" (fun w =>
    (Ok tt, with_output (capturing w) (stdout w) (out_widget w) (displayed w ++ [d]) w)).

(** [widgets.Output()]: the notebook makes one, named [out]. *)
Definition widgets_Output : M unit :=
  lib "widgets.Output" (fun w =>
    (Ok tt, with_output (capturing w) (stdout w) [] (displayed w) w)).

Definition clamp (v lo hi : Z) : Z := Z.min (Z.max v lo) hi.

(** [widgets.IntSlider(value=, min=, max=, step=, description=)]: the
    bounds must be ordered, and the value is brought inside them. *)
Definition widgets_IntSlider (v lo hi st : Z) (d : string) : M nat :=
  lib "widgets.IntSlider" (fun w =>
    if hi <? lo then (Raise TraitError, w)
    else
      let id := next_slider w in
      (Ok id,
       with_sliders (upd (sliders w) id
          {| value := clamp v lo hi; smin := lo; smax := hi; step := st;
             description := d; slider_observers := [] |}) (S id) w)).

Definition IntSlider_observe (id : nat) (h : Handler) (name : string) : M unit :=
  lib "IntSlider.observe" (fun w =>
    let s := sliders w id in
    (Ok tt,
     with_sliders (upd (sliders w) id
        {| value := value s; smin := smin s; smax := smax s; step := step s;
           description := description s;
           slider_observers := slider_observers s ++ [(name, h)] |})
        (next_slider w) w)).

Definition widgets_Checkbox (v : bool) : M nat :=
  lib "widgets.Checkbox" (fun w =>
    let id := next_checkbox w in
    (Ok id,
     with_checkboxes (upd (checkboxes w) id
        {| checked := v; checkbox_observers := [] |}) (S id) w)).

Definition Checkbox_observe (id : nat) (h : Handler) (name : string) : M unit :=
  lib "Checkbox.observe" (fun w =>
    let c := checkboxes w id in
    (Ok tt,
     with_checkboxes (upd (checkboxes w) id
        {| checked := checked c;
           checkbox_observers := checkbox_observers c ++ [(name, h)] |})
        (next_checkbox w) w)).

(** [coordinates.SkyCoord(ra=, dec=, unit=(u.deg, u.deg), frame='fk5')]:
    astropy refuses a latitude outside of [-90, 90] degrees. *)
Definition skycoord (ra dec : Q) : result SkyCoord :=
  if Qle_bool (-90 # 1) dec && Qle_bool dec (90 # 1)
  then Ok {| co_ra := ra; co_dec := dec |}
  else Raise ValueError.

(** The line magic [%matplotlib backend], run by IPython.  The backend it
    selects decides how figures are rendered, which is outside of this
    model. *)
Definition magic (backend : string) : M unit :=
  lib "%matplotlib" (fun w => (magic_matplotlib (env w) backend, w)).

(** The values a slider lets the user pick. *)
Definition selectable (s : IntSlider) (v : Z) : Prop :=
  smin s <= v <= smax s /\ (v - smin s) mod step s = 0.

(** [@out.capture()]: the decorated function runs inside the Output
    widget's context.  What it prints goes to the widget; on leaving the
    context after an exception, ipywidgets shows the traceback in the
    widget and, inside a running kernel, suppresses the exception, so that
    the decorated function returns [None]. *)
Definition capture (body : M unit) : M unit :=
  fun w =>
    let o := body (with_output true (stdout w) (out_widget w) (displayed w) w) in
    let w1 := world o in
    match res o with
    | Ok a =>
        {| res := Ok a;
           world := with_output false (stdout w1) (out_widget w1) (displayed w1) w1;
           calls := calls o |}
    | Raise e =>
        if in_kernel (env w1)
        then {| res := Ok tt;
                world := with_output false (stdout w1) (out_widget w1 ++ [Traceback e])
                                     (displayed w1) w1;
                calls := calls o |}
        else {| res := Raise e;
                world := with_output false (stdout w1) (out_widget w1) (displayed w1) w1;
                calls := calls o |}
    end.

(** *** The callbacks *)

(** First [on_key_press]: marks the cursor position on the axes [p].  The
    statement [fig.canvas.draw_idle] looks [fig] up, takes the bound
    method and drops it: the method is a value here, never run. *)
Definition on_key_press (event : KeyEvent) : M unit :=
  let xc := xdata event in
  let yc := ydata event in
  if key_is event "m" then
    p <- read "p" g_p ;;
    Axes_plot p [xc] [yc] "ro" None (Some 5%Q) ;;;
    fig <- read "fig" g_fig ;;
    ret (FigureCanvas_draw_idle fig) ;;;
    ret tt
  else ret tt.

(** Second [on_key_press], before its decorator: it also prints the
    position and the pixel [image[int(yc),int(xc)]]. *)
Definition on_key_press_body (event : KeyEvent) : M unit :=
  let xc := xdata event in
  let yc := ydata event in
  if key_is event "m" then
    p <- read "p" g_p ;;
    Axes_plot p [xc] [yc] "ro" None (Some 5%Q) ;;;
    fig <- read "fig" g_fig ;;
    ret (FigureCanvas_draw_idle fig) ;;;
    image <- read "image" g_image ;;
    row <- lib_pure "int" (py_int yc) ;;
    col <- lib_pure "int" (py_int xc) ;;
    pixel <- lib_pure "ndarray.__getitem__" (ndarray_getitem2 image row col) ;;
    fx <- lib_pure "float" (py_float xc) ;;
    fy <- lib_pure "float" (py_float yc) ;;
    fv <- lib_pure "float" (float_of_array pixel) ;;
    print (Text "[%.1f, %.1f] = %.4f" [fx; fy; fv])
  else ret tt.

(** The function the name [on_key_press] denotes after [@out.capture()]. *)
Definition on_key_press_captured (event : KeyEvent) : M unit :=
  capture (on_key_press_body event).

(** [GUI_inter.on_key_press]: it plots on [self.p] and names the global
    [fig]. *)
Definition GUI_inter_on_key_press (self : GUI_inter) (event : KeyEvent) : M unit :=
  let xc := xdata event in
  let yc := ydata event in
  if key_is event "m" then
    Axes_plot (self_p self) [xc] [yc] "ro" None (Some 5%Q) ;;;
    fig <- read "fig" g_fig ;;
    ret (FigureCanvas_draw_idle fig) ;;;
    fx <- lib_pure "float" (py_float xc) ;;
    fy <- lib_pure "float" (py_float yc) ;;
    print (Text "[%.2f, %.2f]" [fx; fy])
  else ret tt.

(** [update(change)], the observer of the image-row slider:
    [line.set_ydata(image[change.new,:])] looks up [line], then [image],
    takes the row and sets the data. *)
Definition update (change_new : Z) : M unit :=
  line <- read "line" g_line ;;
  image <- read "image" g_image ;;
  row <- lib_pure "ndarray.__getitem__" (ndarray_getitem_row image change_new) ;;
  Line2D_set_ydata line (data row) ;;;
  fig <- read "fig" g_fig ;;
  FigureCanvas_draw fig.

Definition power10 (xs : list Q) : M (list Q) :=
  lib "ndarray.__rpow__" (fun w => (Ok (map (pow10 (env w)) xs), w)).

(** [new_spec(change)], the observer of the spectrum slider. *)
Definition new_spec (change_new : Z) : M unit :=
  sp <- read "sp" g_sp ;;
  pf <- getitem sp change_new ;;
  ext <- read "ext" g_ext ;;
  getitem pf ext ;;;
  tab <- getitem pf ext ;;
  spec <- lib_pure "FITS_rec.__getitem__" (table_getitem tab "flux") ;;
  loglam <- lib_pure "FITS_rec.__getitem__" (table_getitem tab "loglam") ;;
  wave <- power10 loglam ;;
  line <- read "line" g_line ;;
  Line2D_set_xdata line wave ;;;
  Line2D_set_ydata line spec ;;;
  fig <- read "fig" g_fig ;;
  FigureCanvas_draw fig.


(** *** The cells

    A name that a cell binds and reads back further down is a bound
    variable of its embedding; where a later cell or a callback reads the
    name too, the cell also assigns the global. *)

Definition nl : string := String (Ascii.ascii_of_nat 10) EmptyString.

(** The cell that reports the versions. *)
Definition cell_versions : M unit :=
  import_ "sys" "sys" ;;;
  import_ "astropy" "astropy" ;;;
  import_ "astroquery" "astroquery" ;;;
  import_ "ipywidgets" "ipywidgets" ;;;
  import_ "matplotlib" "matplotlib" ;;;
  v <- module_version "sys" ;;
  print (Printed [Str (nl ++ " Python version: "); Str v]) ;;;
  v <- module_version "astropy" ;;
  print (Printed [Str (nl ++ " Astropy version: "); Str v]) ;;;
  v <- module_version "matplotlib" ;;
  print (Printed [Str (nl ++ " Matplotlib version: "); Str v]) ;;;
  v <- module_version "astroquery" ;;
  print (Printed [Str (nl ++ " Astroquery version: "); Str v]) ;;;
  v <- module_version "ipywidgets" ;;
  print (Printed [Str (nl ++ " ipywidgets version: "); Str v]).

(** The cell of the imports. *)
Definition cell_imports : M unit :=
  import_ "glob" "glob" ;;;
  import_ "os" "os" ;;;
  import_ "sys" "sys" ;;;
  import_ "numpy" "np" ;;;
  import_ "matplotlib.pyplot" "plt" ;;;
  import_ "astropy.io.fits" "pyfits" ;;;
  import_ "astropy.units" "u" ;;;
  import_ "astroquery.skyview.SkyView" "SkyView" ;;;
  import_ "ipywidgets" "widgets".

(** The image is the data of HDU [ext] of the first file SkyView returns;
    a file is read as the list of the arrays of its HDUs. *)
Definition cell_load_image : M unit :=
  assign (set_ext 0) ;;;
  use "SkyView" ;;;
  use "u" ;;;
  pflist <- lib "SkyView.get_images" (fun w => (skyview_get_images (env w), w)) ;;
  pf <- getitem pflist 0 ;;
  ext <- read "ext" g_ext ;;
  image <- getitem pf ext ;;
  assign (set_image image).


(** The lines shared by the three cells that display the image. *)
Definition new_display : M unit :=
  use "plt" ;;;
  fig <- plt_figure ;;
  assign (set_fig fig) ;;;
  use "plt" ;;;
  plt_ion ;;;
  p <- Figure_add_subplot fig ;;
  assign (set_p p) ;;;
  image <- read "image" g_image ;;
  Axes_imshow p image (-10 # 1) (20 # 1).

Definition cell_display : M unit :=
  new_display ;;;
  use "plt" ;;;
  plt_show.

Definition cell_key_press : M unit :=
  new_display ;;;
  fig <- read "fig" g_fig ;;
  FigureCanvas_mpl_connect fig "key_press_event" H_on_key_press ;;;
  use "plt" ;;;
  plt_show.

(** [out.capture()] makes the decorator; what the decorated function does
    is [capture]. *)
Definition Output_capture : M unit :=
  lib "Output.capture" (fun w => (Ok tt, w)).

Definition cell_key_press_output : M unit :=
  new_display ;;;
  use "widgets" ;;;
  widgets_Output ;;;
  Output_capture ;;;
  fig <- read "fig" g_fig ;;
  FigureCanvas_mpl_connect fig "key_press_event" H_on_key_press_captured ;;;
  display ShowOutput.

(** The cell of the class statement binds the name [GUI_inter]. *)
Definition cell_class : M unit :=
  assign (bind_name "GUI_inter").

Definition np_mean_call (a : ndarray) : M Q :=
  lib "np.mean" (fun w => (Ok (np_mean (env w) a), w)).
Definition np_std_call (a : ndarray) : M Q :=
  lib "np.std" (fun w => (Ok (np_std (env w) a), w)).

Definition GUI_inter_display (self : GUI_inter) (sigma : Q) : M GUI_inter :=
  use "plt" ;;;
  plt_clf ;;;
  use "np" ;;;
  m0 <- np_mean_call (self_img self) ;;
  use "np" ;;;
  s0 <- np_std_call (self_img self) ;;
  use "np" ;;;
  m1 <- np_mean_call (self_img self) ;;
  use "np" ;;;
  s1 <- np_std_call (self_img self) ;;
  let lo := (m0 - sigma * s0)%Q in
  let hi := (m1 + sigma * s1)%Q in
  p <- Figure_add_subplot (self_fig self) ;;
  Axes_imshow p (self_img self) lo hi ;;;
  use "plt" ;;;
  plt_draw ;;;
  ret {| self_fig := self_fig self; self_p := p; self_img := self_img self;
         v0 := lo; v1 := hi |}.

Definition GUI_inter_init (fig : nat) (img : ndarray) : M GUI_inter :=
  p <- Figure_gca fig ;;
  GUI_inter_display
    {| self_fig := fig; self_p := p; self_img := img; v0 := 0; v1 := 0 |}
    (20 # 1).

Definition cell_gui : M unit :=
  use "plt" ;;;
  fig <- plt_figure ;;
  assign (set_fig fig) ;;;
  use "GUI_inter" ;;;
  image <- read "image" g_image ;;
  G <- GUI_inter_init fig image ;;
  FigureCanvas_mpl_connect fig "key_press_event" (H_GUI_on_key_press G) ;;;
  ret tt.

(** The cell that plots row 150 of the image. *)
Definition cell_slice : M unit :=
  image <- read "image" g_image ;;
  slice <- lib_pure "ndarray.__getitem__" (ndarray_getitem_row image 150) ;;
  use "plt" ;;;
  fig <- plt_figure ;;
  assign (set_fig fig) ;;;
  p <- Figure_add_subplot fig ;;
  assign (set_p p) ;;;
  Axes_plot_y p slice ;;;
  use "plt" ;;;
  plt_show.

(** The slider cell.  [zl,xl = image.shape] is a statement of the cell:
    the interpreter unpacks the shape, and raises [ValueError] unless it
    has two entries.  Once it has passed, the row [image[150,:]] is
    one-dimensional and [p.plot] returns the one line that [line, = ...]
    unpacks. *)
Definition cell_slider : M nat :=
  image <- read "image" g_image ;;
  zx <- op Interpreter "unpack" (fun w => (unpack2 (shape image), w)) ;;
  let zl := fst zx in
  use "plt" ;;;
  fig <- plt_figure ;;
  assign (set_fig fig) ;;;
  p <- Figure_add_subplot fig ;;
  assign (set_p p) ;;;
  slice <- lib_pure "ndarray.__getitem__" (ndarray_getitem_row image 150) ;;
  line <- Axes_plot1 p (data slice) ;;
  assign (set_line line) ;;;
  use "widgets" ;;;
  int_slider <- widgets_IntSlider 150 0 (Z.of_nat zl) 1 "Z-axis:" ;;
  IntSlider_observe int_slider H_update "value" ;;;
  display (ShowSlider int_slider) ;;;
  ret int_slider.

Definition cell_imports_sdss : M unit :=
  import_ "astroquery.sdss.SDSS" "SDSS" ;;;
  import_ "astropy.coordinates" "coordinates".

Definition cell_ra_dec : M unit :=
  assign (fun g => set_dec (69679383 # 1000000) (set_ra (148969687 # 1000000) g)).

Definition cell_co : M unit :=
  use "coordinates" ;;;
  ra <- read "ra" g_ra ;;
  dec <- read "dec" g_dec ;;
  use "u" ;;;
  use "u" ;;;
  co <- lib_pure "coordinates.SkyCoord" (skycoord ra dec) ;;
  assign (set_co co).

Definition cell_query : M unit :=
  use "SDSS" ;;;
  co <- read "co" g_co ;;
  use "u" ;;;
  xid <- lib "SDSS.query_region" (fun w => (sdss_query_region (env w) co, w)) ;;
  use "SDSS" ;;;
  sp <- lib "SDSS.get_spectra" (fun w => (sdss_get_spectra (env w) xid, w)) ;;
  assign (set_sp sp) ;;;
  print (Printed [Str "N ="; Num (inject_Z (Z.of_nat (length sp)))]).

(** The lines shared by the two cells with a spectrum slider: the first
    spectrum's table and its two columns. *)
Definition first_spectrum : M (list Q * list Q) :=
  sp <- read "sp" g_sp ;;
  pf <- getitem sp 0 ;;
  ext <- read "ext" g_ext ;;
  getitem pf ext ;;;
  tab <- getitem pf ext ;;
  spec <- lib_pure "FITS_rec.__getitem__" (table_getitem tab "flux") ;;
  loglam <- lib_pure "FITS_rec.__getitem__" (table_getitem tab "loglam") ;;
  wave <- power10 loglam ;;
  ret (wave, spec).

Definition cell_spectrum : M unit :=
  sp <- read "sp" g_sp ;;
  pf <- getitem sp 0 ;;
  assign (set_ext 1) ;;;
  ext <- read "ext" g_ext ;;
  getitem pf ext ;;;
  tab <- getitem pf ext ;;
  spec <- lib_pure "FITS_rec.__getitem__" (table_getitem tab "flux") ;;
  loglam <- lib_pure "FITS_rec.__getitem__" (table_getitem tab "loglam") ;;
  wave <- power10 loglam ;;
  use "plt" ;;;
  fig <- plt_figure ;;
  assign (set_fig fig) ;;;
  ax <- Figure_add_subplot fig ;;
  Axes_plot ax (floats wave) (floats spec) "" None None ;;;
  Axes_set_xlabel ax "Wavelength [Angstroms]" ;;;
  Axes_set_ylabel ax "Flux".

(** [ext = 1], the first spectrum, a new figure and the plot of the flux
    against the wavelength. *)
Definition spectrum_figure : M nat :=
  assign (set_ext 1) ;;;
  ws <- first_spectrum ;;
  use "plt" ;;;
  fig <- plt_figure ;;
  assign (set_fig fig) ;;;
  ax <- Figure_add_subplot fig ;;
  line <- Axes_plot ax (floats (fst ws)) (floats (snd ws)) "" None None ;;
  assign (set_line line) ;;;
  Axes_set_xlabel ax "Wavelength [Angstroms]" ;;;
  Axes_set_ylabel ax "Flux" ;;;
  ret ax.

Definition n_max (sp : list (list Table)) : Z := Z.of_nat (length sp) - 1.

Definition spectrum_slider : M nat :=
  sp <- read "sp" g_sp ;;
  use "widgets" ;;;
  int_slider <- widgets_IntSlider 0 0 (n_max sp) 1 "Spectrum:" ;;
  IntSlider_observe int_slider H_new_spec "value" ;;;
  display (ShowSlider int_slider) ;;;
  ret int_slider.

Definition cell_spectrum_slider : M nat :=
  spectrum_figure ;;;
  spectrum_slider.

Definition cell_spectrum_lines : M nat :=
  ax <- spectrum_figure ;;
  line2 <- Axes_plot ax (floats [6563 # 1; 6563 # 1]) (floats [0%Q; 20 # 1])
             "--" (Some "r"%string) None ;;
  assign (set_line2 line2) ;;;
  Line2D_set_visible line2 false ;;;
  int_slider <- spectrum_slider ;;
  use "widgets" ;;;
  chk_box <- widgets_Checkbox false ;;
  Checkbox_observe chk_box H_display_lines "value" ;;;
  display (ShowCheckbox chk_box) ;;;
  ret int_slider.


(** *** Sessions to run the cells on *)

Definition blank_line : Line2D :=
  {| line_x := []; line_y := [];
     style := {| color := None; marker := None; linestyle := None |};
     markersize := None; visible := true |}.

Definition blank_slider : IntSlider :=
  {| value := 0; smin := 0; smax := 0; step := 1; description := "";
     slider_observers := [] |}.

(** No name is bound yet. *)
Definition no_globals : Globals :=
  {| g_names := []; g_ext := None; g_image := None; g_fig := None;
     g_p := None; g_line := None; g_line2 := None; g_sp := None;
     g_ra := None; g_dec := None; g_co := None |}.

(** A kernel that has run no cell yet. *)
Definition fresh_kernel (e : Env) : World :=
  {| env := e; globals := no_globals;
     figures := fun _ => empty_figure; next_fig := 0; gcf := 0;
     interactive := false;
     axes := fun _ => empty_axes; next_ax := 0;
     lines := fun _ => blank_line; next_line := 0;
     sliders := fun _ => blank_slider; next_slider := 0;
     checkboxes := fun _ => {| checked := false; checkbox_observers := [] |};
     next_checkbox := 0;
     capturing := false; stdout := []; out_widget := []; displayed := [] |}.

(** A two-by-two image, an image of 151 rows, an image of two-by-two
    colour triples, and a spectrum table. *)
Definition small_image : ndarray :=
  {| shape := [2; 2]%nat; data := [1; 2; 3; 4]%Q |}.

Definition tall_image : ndarray :=
  {| shape := [151; 1]%nat; data := repeat 7%Q 151 |}.

Definition colour_image : ndarray :=
  {| shape := [2; 2; 3]%nat; data := repeat 1%Q 12 |}.

Definition spectrum_table : Table :=
  {| columns := ["flux"; "loglam"; "ivar"]%string;
     rows := [[12; 3; 1]; [15; 4; 1]; [11; 5; 1]]%Q |}.

(** A session inside a running kernel, with every module installed, a
    matplotlib that rejects [None], and services that answer: SkyView with
    one file holding [img], SDSS with two spectra of two HDUs each.  The
    numeric functions are stand-ins; no property depends on them. *)
Definition sample_env (img : ndarray) : Env :=
  {| in_kernel := true;
     plot_rejects_None := true;
     import_error := fun _ => None;
     version_of := fun _ => "1.0"%string;
     magic_matplotlib := fun _ => Ok tt;
     pow10 := fun q => Qpower 10 (trunc q);
     np_mean := fun _ => 0%Q;
     np_std := fun _ => 1%Q;
     skyview_get_images := Ok [[img]];
     sdss_query_region := fun _ => Ok (Some [1; 2]%nat);
     sdss_get_spectra := fun _ =>
       Ok [[spectrum_table; spectrum_table]; [spectrum_table; spectrum_table]] |}.

(** An environment in which importing [target] fails. *)
Definition without_module (target : string) (e : Env) : Env :=
  {| in_kernel := in_kernel e;
     plot_rejects_None := plot_rejects_None e;
     import_error := fun t =>
       if String.eqb t target then Some ModuleNotFoundError else import_error e t;
     version_of := version_of e;
     magic_matplotlib := magic_matplotlib e;
     pow10 := pow10 e;
     np_mean := np_mean e;
     np_std := np_std e;
     skyview_get_images := skyview_get_images e;
     sdss_query_region := sdss_query_region e;
     sdss_get_spectra := sdss_get_spectra e |}.

(** The kernel after the cells of the imports and of the image; after the
    cell that installs the decorated callback; and after the cells that
    query SDSS and the cell of the spectrum slider. *)
Definition session_with_image (img : ndarray) : World :=
  world (cell_load_image (world (cell_imports (fresh_kernel (sample_env img))))).

Definition session_with_output (img : ndarray) : World :=
  world (cell_key_press_output (session_with_image img)).

Definition session_with_spectra (img : ndarray) : World :=
  world (cell_spectrum_slider
    (world (cell_query
      (world (cell_co
        (world (cell_ra_dec
          (world (cell_imports_sdss (session_with_output img)))))))))).

Definition key_m_at (x y : Q) : KeyEvent :=
  {| key := Some "m"%string; position := Some (x, y) |}.

Definition key_m_outside : KeyEvent :=
  {| key := Some "m"%string; position := None |}.

Definition sample_gui : GUI_inter :=
  {| self_fig := 0; self_p := 0; self_img := small_image; v0 := 0; v1 := 1 |}.

(** *** Vocabulary of the properties *)

(** A module or class name is bound. *)
Definition imported (name : string) (w : World) : Prop :=
  has name (g_names (globals w)) = true.

(** A computation leaves a part of the kernel's state as it found it. *)
Definition keeps {X A : Type} (proj : World -> X) (m : M A) : Prop :=
  forall w, proj (world (m w)) = proj w.

(** The line that ['ro'] with [markersize=5] draws at one point: a red
    circle and no connecting line. *)
Definition red_marker (x y : Q) : Line2D :=
  {| line_x := [Some x]; line_y := [Some y];
     style := {| color := Some "r"%string; marker := Some "o"%string;
                 linestyle := None |};
     markersize := Some 5%Q; visible := true |}.

(** The calls that draw a canvas or ask for it. *)
Definition redraw_call (c : Call) : bool :=
  existsb (String.eqb (callee c))
    ["FigureCanvas.draw_idle"; "FigureCanvas.draw"; "plt.draw"]%string.

(** *** Computations without handlers *)

(** The computations written with the statements the notebook uses
    outside its one decorator: sequencing, steps (library calls, name
    lookups, unpackings, imports) and bindings of global names. *)
Inductive Straight : forall A : Type, M A -> Prop :=
| St_ret (A : Type) (a : A) : Straight A (ret a)
| St_assign (f : Globals -> Globals) : Straight unit (assign f)
| St_op (A : Type) (o : Origin) (name : string)
    (f : World -> result A * World) : Straight A (op o name f)
| St_bind (A B : Type) (m : M A) (k : A -> M B) :
    Straight A m -> (forall a, Straight B (k a)) -> Straight B (bind m k).
Arguments Straight {A} m.





(** No call into a library or a built-in raised. *)
Definition no_call_raised (l : list Call) : Prop :=
  Forall (fun c => origin c = Library -> raised c = None) l.

(** What a figure shows: the axes with their artists, the lines, the
    figures with their counters of draws, and pyplot's current figure. *)
Definition figure_state (w : World) :=
  (axes w, next_ax w, lines w, next_line w, figures w, next_fig w, gcf w).

(** In [w'], what the figures show is what they showed in [w] plus one
    red marker at [(x, y)] in the axes [ax]. *)
Definition marked (w : World) (ax : nat) (x y : Q) (w' : World) : Prop :=
  figure_state w' = figure_state (add_line ax (red_marker x y) w).

(** A computation in whose log no step satisfies [bad]. *)
Definition never_calls {A : Type} (bad : Call -> bool) (m : M A) : Prop :=
  forall w, existsb bad (calls (m w)) = false.

(** An outcome that asked for no redraw: no figure changed, so no
    counter of draws did, and the log has no call that draws. *)
Definition no_redraw {A : Type} (w : World) (o : Outcome A) : Prop :=
  figures (world o) = figures w /\ existsb redraw_call (calls o) = false.

(** An index numpy accepts on an axis of length [n], and the position it
    denotes. *)
Definition index_ok (i : Z) (n : nat) : bool :=
  (- Z.of_nat n <=? i) && (i <? Z.of_nat n).

Definition wrap (i : Z) (n : nat) : nat :=
  if 0 <=? i then Z.to_nat i else Z.to_nat (i + Z.of_nat n).

(** Where [print] writes: the Output widget while it captures, the cell's
    output otherwise. *)
Definition printed (w : World) : list OutItem :=
  if capturing w then out_widget w else stdout w.

(** The reading of "well defined only inside the image": whenever the
    second callback's body returns on a press of [m], the truncated
    coordinates are a row and a column counted from zero. *)
Definition lookup_only_inside : Prop :=
  forall (w : World) (ev : KeyEvent) (x y : Q) (image : ndarray) (zl xl : nat),
    key ev = Some "m"%string ->
    position ev = Some (x, y) ->
    g_image (globals w) = Some image ->
    shape image = [zl; xl] ->
    length (data image) = (zl * xl)%nat ->
    res (on_key_press_body ev w) = Ok tt ->
    0 <= trunc y < Z.of_nat zl /\ 0 <= trunc x < Z.of_nat xl.

(** The reading of "the [m] callbacks add one red marker": on every press
    of [m], with [p] and [fig] bound, the first callback leaves the figures
    with one more marker. *)
Definition m_press_always_marks : Prop :=
  forall (w : World) (ev : KeyEvent) (p fig : nat),
    key ev = Some "m"%string ->
    g_p (globals w) = Some p ->
    g_fig (globals w) = Some fig ->
    exists x y, marked w p x y (world (on_key_press ev w)).

(** The reading of "the array passed to imshow is 2-dimensional": whenever
    the display cell returns, the image it has shown has two axes. *)
Definition imshow_gets_plane : Prop :=
  forall (w : World) (image : ndarray),
    g_image (globals w) = Some image ->
    res (cell_display w) = Ok tt ->
    ndim image = 2%nat.

(** The entry of the log for a step that returned. *)
Definition called (o : Origin) (name : string) : Call :=
  {| origin := o; callee := name; raised := None |}.

(** An outcome with the steps [l] made before it. *)
Definition after_calls {A : Type} (l : list Call) (o : Outcome A) : Outcome A :=
  {| res := res o; world := world o; calls := (l ++ calls o)%list |}.

(** A call to [ax.plot] that matplotlib refused with [ValueError], as it
    does for arrays of different lengths. *)
Definition plot_refused (c : Call) : bool :=
  String.eqb (callee c) "Axes.plot"
  && match raised c with Some ValueError => true | _ => false end.

(** The row [r] of a two-dimensional array with [xl] columns. *)
Definition row_of (a : ndarray) (xl r : nat) : list Q :=
  slice_of (data a) (r * xl) xl.

(** Sequencing of results, to write down what a run computes. *)
Definition and_then {A B : Type} (r : result A) (f : A -> result B) : result B :=
  match r with
  | Ok a => f a
  | Raise e => Raise e
  end.

(** The wavelengths and fluxes read from HDU [ext] of spectrum [v] of
    [sp]: the columns [flux] and [loglam] of its table. *)
Definition selected_spectrum (e : Env) (sp : list (list Table)) (ext v : Z)
    : result (list Q * list Q) :=
  and_then (list_getitem sp v) (fun pf =>
  and_then (list_getitem pf ext) (fun tab =>
  and_then (table_getitem tab "flux") (fun spec =>
  and_then (table_getitem tab "loglam") (fun loglam =>
  Ok (map (pow10 e) loglam, spec))))).

(** The image the load cell binds: HDU [0] of the first file. *)
Definition first_image (pflist : list (list ndarray)) : result ndarray :=
  and_then (list_getitem pflist 0) (fun pf => list_getitem pf 0).


(** A computation that, started in a state where [I] holds, ends in one,
    with a part of the state as it found it. *)
Definition keeps_when {X A : Type} (I : World -> Prop) (proj : World -> X)
    (m : M A) : Prop :=
  forall w, I w -> proj (world (m w)) = proj w /\ I (world (m w)).

End Interactive.

(** * Properties *)

(** ** The fitting notebook *)

Module NLLSFacts.
Import NLLS.
Local Open Scope R_scope.

Lemma set_last_length (l : list R) (v : R) :
  length (set_last l v) = length l.
Proof.
  induction l as [|a [|b tl] IH]; simpl in *; auto.
Qed.

Lemma set_last_Forall (P : R -> Prop) (l : list R) (v : R) :
  Forall P l -> P v -> Forall P (set_last l v).
Proof.
  intros Hl Hv.
  induction l as [|a [|b tl] IH]; simpl; auto.
  inversion Hl; subst. constructor; auto.
Qed.

Lemma linspace_length (start stop : R) (num : nat) :
  length (linspace start stop num) = num.
Proof.
  unfold linspace.
  destruct (0 <? num - 1)%nat, (1 <? num)%nat;
    rewrite ?set_last_length, length_map, length_seq; reflexivity.
Qed.

Lemma linspace_nonneg (start stop : R) (num : nat) :
  0 <= start -> start <= stop ->
  Forall (fun w => 0 <= w) (linspace start stop num).
Proof.
  intros Hs Hle.
  assert (Hd : 0 <= stop - start) by lra.
  assert (Hstop : 0 <= stop) by lra.
  unfold linspace.
  destruct (0 <? num - 1)%nat eqn:Hdiv.
  - assert (Hpos : 0 < INR (num - 1)).
    { apply lt_0_INR. apply Nat.ltb_lt in Hdiv. exact Hdiv. }
    assert (Hstep : 0 <= (stop - start) / INR (num - 1)).
    { apply Rmult_le_pos; [exact Hd|]. left. apply Rinv_0_lt_compat. exact Hpos. }
    assert (Hy : Forall (fun w => 0 <= w)
                   (map (fun i => INR i * ((stop - start) / INR (num - 1)) + start)
                        (seq 0 num))).
    { apply Forall_forall. intros w Hin. apply in_map_iff in Hin.
      destruct Hin as [i [<- _]].
      pose proof (pos_INR i) as Hi.
      pose proof (Rmult_le_pos _ _ Hi Hstep). lra. }
    destruct (1 <? num)%nat; [apply set_last_Forall|]; assumption.
  - assert (Hy : Forall (fun w => 0 <= w)
                   (map (fun i => INR i * (stop - start) + start) (seq 0 num))).
    { apply Forall_forall. intros w Hin. apply in_map_iff in Hin.
      destruct Hin as [i [<- _]].
      pose proof (pos_INR i) as Hi.
      pose proof (Rmult_le_pos _ _ Hi Hd). lra. }
    destruct (1 <? num)%nat; [apply set_last_Forall|]; assumption.
Qed.

Lemma wave_nonneg : Forall (fun w => 0 <= w) wave.
Proof. unfold wave. apply linspace_nonneg; lra. Qed.

Lemma flux_at_lower (w : R) : 0 <= w -> 500 <= flux_at w.
Proof.
  intros Hw. unfold flux_at, amplitude, cont_zp, cont_slope, uplus.
  pose proof (exp_pos (-0.5 * np_power (w - center) 2 / width ^ 2)) as He.
  nra.
Qed.

Lemma flux_nonneg : Forall (fun f => 0 <= f) flux.
Proof.
  unfold flux. apply Forall_forall. intros f Hin.
  apply in_map_iff in Hin. destruct Hin as [w [<- Hw]].
  pose proof wave_nonneg as Hall.
  rewrite Forall_forall in Hall.
  pose proof (flux_at_lower w (Hall w Hw)). lra.
Qed.

Section SyntheticFacts.
Variable RNG : Type.
Variable poisson_draw : R -> RNG -> Z * RNG.

Lemma no_negative_mean (lam : list R) :
  Forall (fun f => 0 <= f) lam -> existsb negative lam = false.
Proof.
  induction 1 as [|l tl Hl _ IH]; simpl; [reflexivity|].
  rewrite IH. unfold negative.
  destruct (Rlt_dec l 0); [lra | reflexivity].
Qed.

Lemma poisson_each_single_draws (lam : list R) (g : RNG) :
  Forall2 (single_draw RNG poisson_draw) lam
          (fst (poisson_each RNG poisson_draw lam g)).
Proof.
  revert g. induction lam as [|l tl IH]; intros g; simpl.
  - constructor.
  - destruct (poisson_draw l g) as [k g1] eqn:Hk.
    specialize (IH g1).
    destruct (poisson_each RNG poisson_draw tl g1) as [ks g2]. simpl in *.
    constructor; [|exact IH].
    exists g. rewrite Hk. reflexivity.
Qed.
End SyntheticFacts.

Lemma star_five {X Y : Type} (f : X -> R -> R -> R -> R -> R -> Y)
    (x : X) (params : list R) :
  is_ok (star f x params) = true <-> length params = 5%nat.
Proof.
  destruct params as [|a [|b [|c [|d [|e [|e' tl]]]]]]; simpl;
    split; intros H; try discriminate; reflexivity.
Qed.

Lemma model_textbook (x cont slope amp center width : R) :
  model x cont slope amp center width
  = gaussian_plus_continuum_spec x cont slope amp center width.
Proof.
  unfold model, gaussian_plus_continuum_spec, np_power.
  do 2 f_equal. f_equal. f_equal.
  unfold Rdiv. rewrite Rinv_mult.
  replace (-0.5) with (- / 2) by lra. ring.
Qed.

(** C1. The fit runs over exactly five scalar parameters: [model] takes
    five parameters after [x] (a call [model(x, *params)] binds exactly
    when [params] has five entries), the initial guess has five entries,
    and whenever [curve_fit], called as in the notebook, returns
    [(popt, pcov)], [popt] has length 5, [pcov] is 5 by 5 and
    [model(x, *popt)] is a well-formed call.  The optimizer is any function
    with the shapes scipy documents. *)
Theorem fit_has_five_parameters
    (curve_fit : fitter) (Hshape : curve_fit_shapes curve_fit)
    (obs : list Z) (popt : list R) (pcov : list (list R))
    (Hfit : fit_cell curve_fit obs = Ok (popt, pcov)) :
  (forall x params, is_ok (star model x params) = true <-> length params = 5%nat) /\
  length p0 = 5%nat /\
  length popt = 5%nat /\
  length pcov = 5%nat /\
  Forall (fun row => length row = 5%nat) pcov /\
  (forall x, is_ok (star model x popt) = true).
Proof.
  unfold fit_cell in Hfit.
  destruct (Hshape _ _ _ _ _ _ _ Hfit) as [Hp [Hc Hrows]].
  change (length p0) with 5%nat in *.
  split; [intros x params; apply star_five|].
  repeat split; auto.
  intros x. apply star_five. exact Hp.
Qed.

Lemma fit_has_five_parameters_witness :
  length p0 = 5%nat /\
  length (map (fun _ : R => map (fun _ : R => 0) p0) p0) = 5%nat.
Proof.
  assert (Hshape : curve_fit_shapes null_fit).
  { intros f xs ys q sigma popt pcov H. unfold null_fit in H.
    inversion H; subst; clear H.
    rewrite length_map. repeat split.
    apply Forall_forall. intros row Hin. apply in_map_iff in Hin.
    destruct Hin as [_ [<- _]]. apply length_map. }
  pose proof (fit_has_five_parameters null_fit Hshape []
                p0 (map (fun _ => map (fun _ => 0) p0) p0) eq_refl) as H.
  destruct H as [_ [_ [Hp [Hc _]]]].
  split; [exact Hp | exact Hc].
Defined.

(** C2. The Gaussian-plus-continuum model is the same textbook formula
    wherever it appears: [model] equals
    [amp*exp(-(x-center)^2/(2*width^2)) + cont + slope*x] for every [x] and
    every parameter tuple; the compound astropy model
    [Gaussian1D(amplitude=amp, mean=center, stddev=width) + Linear1D(slope=slope, intercept=cont)]
    denotes the same function of [x]; and the true [flux] array is the
    formula at the true parameters over the wavelength grid. *)
Theorem model_is_textbook_formula :
  (forall x cont slope amp center width,
     model x cont slope amp center width
     = gaussian_plus_continuum_spec x cont slope amp center width) /\
  (forall x cont slope amp center width,
     models.add (models.Gaussian1D amp center width)
                (models.Linear1D slope cont) x
     = gaussian_plus_continuum_spec x cont slope amp center width) /\
  flux = map (fun w => gaussian_plus_continuum_spec
                         w cont_zp cont_slope amplitude center width) wave.
Proof.
  split; [exact model_textbook|]. split.
  - intros x cont slope amp c w.
    rewrite <- model_textbook.
    unfold models.add, models.Gaussian1D, models.Linear1D, model, np_power.
    ring.
  - unfold flux. apply map_ext. intros w.
    rewrite <- model_textbook. reflexivity.
Qed.

(** C3. The synthetic-data step is one call into numpy's generator:
    the true flux is non-negative in every channel, so the call does not
    raise, and [obs_flux] is, channel by channel and in order, a single
    Poisson draw whose mean is the true flux of that channel, with
    nothing applied to the draws afterwards. *)
Theorem obs_flux_is_poisson_of_flux
    (RNG : Type) (poisson_draw : R -> RNG -> Z * RNG) (g : RNG) :
  Forall (fun f => 0 <= f) flux /\
  obs_flux RNG poisson_draw g
  = (Ok (fst (poisson_each RNG poisson_draw flux g)),
     snd (poisson_each RNG poisson_draw flux g)) /\
  Forall2 (single_draw RNG poisson_draw) flux
          (fst (poisson_each RNG poisson_draw flux g)).
Proof.
  split; [exact flux_nonneg|]. split.
  - unfold obs_flux, np_random_poisson.
    rewrite (no_negative_mean flux flux_nonneg).
    destruct (poisson_each RNG poisson_draw flux g); reflexivity.
  - apply poisson_each_single_draws.
Qed.

(** *** The line profile, the correlation matrix and the ellipse *)

Lemma exp_nonpos_le_1 (t : R) : t <= 0 -> exp t <= 1.
Proof.
  intros [Hlt | Heq].
  - rewrite <- exp_0. left. apply exp_increasing. exact Hlt.
  - subst. rewrite exp_0. lra.
Qed.

Lemma line_exponent_nonpos (d w : R) :
  w <> 0 -> -0.5 * np_power d 2 / w ^ 2 <= 0.
Proof.
  intros Hw. unfold np_power.
  assert (Hd : 0 <= d ^ 2) by (simpl; nra).
  assert (Hw2 : 0 < w ^ 2) by (simpl; nra).
  assert (Hq : 0 <= d ^ 2 / w ^ 2).
  { apply Rmult_le_pos; [exact Hd|]. left. apply Rinv_0_lt_compat. exact Hw2. }
  unfold Rdiv in *. rewrite Rmult_assoc. lra.
Qed.

Lemma model_between (x cont slope amp center width : R) :
  width <> 0 -> 0 <= amp ->
  cont + slope * x <= model x cont slope amp center width <= amp + cont + slope * x.
Proof.
  intros Hwidth Hamp. unfold model.
  pose proof (exp_pos (-0.5 * np_power (x - center) 2 / width ^ 2)) as Hpos.
  pose proof (exp_nonpos_le_1 _ (line_exponent_nonpos (x - center) width Hwidth))
    as Hle.
  nra.
Qed.

(** X1. The line of [model] peaks at its centre: there the model is
    [amp + cont + slope*center]; the line is mirror-symmetric about the
    centre; and for a non-negative amplitude the model lies between the
    continuum and the continuum plus the amplitude. *)
Theorem model_line_profile (x cont slope amp center width : R)
    (Hwidth : width <> 0) (Hamp : 0 <= amp) :
  model center cont slope amp center width = amp + cont + slope * center /\
  (forall d,
     model (center + d) cont slope amp center width - (cont + slope * (center + d))
     = model (center - d) cont slope amp center width - (cont + slope * (center - d))) /\
  cont + slope * x <= model x cont slope amp center width <= amp + cont + slope * x.
Proof.
  split; [|split].
  - unfold model.
    replace (np_power (center - center) 2) with 0 by (unfold np_power; ring).
    rewrite Rmult_0_r. unfold Rdiv. rewrite Rmult_0_l, exp_0. ring.
  - intros d. unfold model.
    replace (np_power (center + d - center) 2)
      with (np_power (center - d - center) 2) by (unfold np_power; ring).
    ring.
  - apply model_between; assumption.
Qed.

Lemma model_line_profile_witness :
  model 5 500 5 30 5 0.5 = 30 + 500 + 5 * 5.
Proof.
  assert (Hwidth : 0.5 <> 0) by lra.
  assert (Hamp : 0 <= 30) by lra.
  destruct (model_line_profile 0 500 5 30 5 0.5 Hwidth Hamp) as [Hpeak _].
  exact Hpeak.
Defined.

Lemma linspace_bounds (start stop : R) (num : nat) :
  start <= stop ->
  Forall (fun w => start <= w <= stop) (linspace start stop num).
Proof.
  intros Hle.
  assert (Hd : 0 <= stop - start) by lra.
  unfold linspace.
  destruct (0 <? num - 1)%nat eqn:Hdiv.
  - assert (Hpos : 0 < INR (num - 1)).
    { apply lt_0_INR. apply Nat.ltb_lt in Hdiv. exact Hdiv. }
    assert (Hy : Forall (fun w => start <= w <= stop)
                   (map (fun i => INR i * ((stop - start) / INR (num - 1)) + start)
                        (seq 0 num))).
    { apply Forall_forall. intros w Hin. apply in_map_iff in Hin.
      destruct Hin as [i [<- Hi]]. apply in_seq in Hi.
      assert (Hi' : INR i <= INR (num - 1)) by (apply le_INR; lia).
      pose proof (pos_INR i) as Hi0.
      assert (Hfrac : 0 <= INR i / INR (num - 1) <= 1).
      { split.
        - apply Rmult_le_pos; [exact Hi0|]. left. apply Rinv_0_lt_compat, Hpos.
        - apply (Rmult_le_reg_r (INR (num - 1))); [exact Hpos|].
          unfold Rdiv. rewrite Rmult_assoc, Rinv_l by lra. lra. }
      replace (INR i * ((stop - start) / INR (num - 1)))
        with ((stop - start) * (INR i / INR (num - 1)))
        by (unfold Rdiv; ring).
      nra. }
    destruct (1 <? num)%nat; [apply set_last_Forall|]; [exact Hy | lra | exact Hy].
  - apply Nat.ltb_ge in Hdiv.
    assert (Hy : Forall (fun w => start <= w <= stop)
                   (map (fun i => INR i * (stop - start) + start) (seq 0 num))).
    { apply Forall_forall. intros w Hin. apply in_map_iff in Hin.
      destruct Hin as [i [<- Hi]]. apply in_seq in Hi.
      assert (i = 0%nat) by lia. subst. simpl. lra. }
    destruct (1 <? num)%nat; [apply set_last_Forall|]; [exact Hy | lra | exact Hy].
Qed.

Lemma set_last_last (l : list R) (v d : R) : l <> [] -> last (set_last l v) d = v.
Proof.
  induction l as [|a [|b tl] IH]; intros Hne; [congruence | reflexivity |].
  change (set_last (a :: b :: tl) v) with (a :: set_last (b :: tl) v).
  assert (Hcons : exists c tl', set_last (b :: tl) v = c :: tl').
  { destruct tl; simpl; eauto. }
  destruct Hcons as [c [tl' Hc]].
  rewrite Hc. change (last (a :: c :: tl') d) with (last (c :: tl') d).
  rewrite <- Hc. apply IH. discriminate.
Qed.

(** X2. The grid and the true flux stay in range: [wave] begins at
    exactly 0 and ends at exactly 10, every channel lies in between, and
    in every channel the true flux is at least the continuum [500] and at
    most [580], the continuum at the last channel plus the amplitude. *)
Theorem wave_and_flux_ranges :
  hd 0 wave = 0 /\
  last wave 0 = 10 /\
  Forall (fun w => 0 <= w <= 10) wave /\
  Forall (fun f => 500 <= f <= 580) flux.
Proof.
  assert (Hwave : Forall (fun w => 0 <= w <= 10) wave).
  { unfold wave. apply linspace_bounds. lra. }
  split; [|split; [|split]].
  - unfold wave, linspace.
    change (0 <? 100 - 1)%nat with true. change (1 <? 100)%nat with true.
    change (seq 0 100) with (0%nat :: 1%nat :: seq 2 98).
    cbn [map set_last hd]. simpl INR. lra.
  - unfold wave, linspace.
    change (0 <? 100 - 1)%nat with true. change (1 <? 100)%nat with true.
    cbv iota. apply set_last_last.
    change (seq 0 100) with (0%nat :: seq 1 99). discriminate.
  - exact Hwave.
  - unfold flux. apply Forall_forall. intros f Hin.
    apply in_map_iff in Hin. destruct Hin as [w [<- Hw]].
    rewrite Forall_forall in Hwave. specialize (Hwave w Hw).
    assert (Hwidth : width <> 0) by (unfold width; lra).
    assert (Hamp : 0 <= amplitude) by (unfold amplitude; lra).
    pose proof (model_between w cont_zp cont_slope amplitude center width
                  Hwidth Hamp) as Hb.
    change (model w cont_zp cont_slope amplitude center width) with (flux_at w) in Hb.
    unfold cont_zp, cont_slope, amplitude in Hb. lra.
Qed.

Lemma entry_row_length (m : list (list R)) (n i : nat) :
  length m = n -> Forall (fun row => length row = n) m -> (i < n)%nat ->
  length (nth i m []) = n.
Proof.
  intros Hm Hrows Hi. rewrite Forall_forall in Hrows.
  apply Hrows. apply nth_In. lia.
Qed.

Lemma nth_err (pcov : list (list R)) (i : nat) :
  (i < length pcov)%nat -> nth i (err pcov) 0 = sqrt (entry pcov i i).
Proof.
  intros Hi. unfold err, np_diag.
  rewrite <- sqrt_0 at 1. rewrite map_nth.
  f_equal.
  rewrite (nth_indep _ 0 (entry pcov 0 0)) by (rewrite length_map, length_seq; exact Hi).
  change (entry pcov 0 0) with ((fun k => entry pcov k k) 0%nat).
  rewrite map_nth, seq_nth by exact Hi. reflexivity.
Qed.

Lemma length_err (pcov : list (list R)) : length (err pcov) = length pcov.
Proof. unfold err, np_diag. rewrite !length_map, length_seq. reflexivity. Qed.

Lemma entry_outer (u v : list R) (i j : nat) :
  (i < length u)%nat -> (j < length v)%nat ->
  entry (np_outer u v) i j = nth i u 0 * nth j v 0.
Proof.
  intros Hi Hj. unfold entry, np_outer.
  rewrite (nth_indep _ [] (map (fun y => 0 * y) v)) by (rewrite length_map; exact Hi).
  change (map (fun y => 0 * y) v) with ((fun x => map (fun y => x * y) v) 0).
  rewrite map_nth.
  rewrite (nth_indep _ 0 (nth i u 0 * 0)) by (rewrite length_map; exact Hj).
  change (nth i u 0 * 0) with ((fun y => nth i u 0 * y) 0).
  rewrite map_nth. reflexivity.
Qed.

Lemma entry_divide (a b : list (list R)) (n i j : nat) :
  length a = n -> length b = n ->
  length (nth i a []) = n -> length (nth i b []) = n ->
  (i < n)%nat -> (j < n)%nat ->
  entry (divide_entries a b) i j = entry a i j / entry b i j.
Proof.
  intros Ha Hb Hra Hrb Hi Hj. unfold entry, divide_entries.
  set (F := fun rows : list R * list R =>
              map (fun xy => fst xy / snd xy) (combine (fst rows) (snd rows))).
  change (@nil R) with (F ([], [])) at 1.
  rewrite map_nth, combine_nth by congruence.
  unfold F. cbn [fst snd].
  set (G := fun xy : R * R => fst xy / snd xy).
  rewrite (nth_indep _ 0 (G (0, 0)))
    by (rewrite length_map, length_combine, Hra, Hrb, Nat.min_id; exact Hj).
  rewrite map_nth, combine_nth by congruence.
  reflexivity.
Qed.

Lemma pcor_entry (pcov : list (list R)) (n i j : nat) :
  length pcov = n -> Forall (fun row => length row = n) pcov ->
  (i < n)%nat -> (j < n)%nat ->
  entry (pcor pcov) i j
  = entry pcov i j / (sqrt (entry pcov i i) * sqrt (entry pcov j j)).
Proof.
  intros Hn Hrows Hi Hj. unfold pcor.
  assert (Hlen : length (np_outer (err pcov) (err pcov)) = n).
  { unfold np_outer. rewrite length_map, length_err. exact Hn. }
  assert (Hrow : length (nth i (np_outer (err pcov) (err pcov)) []) = n).
  { unfold np_outer.
    rewrite (nth_indep _ [] (map (fun y => 0 * y) (err pcov)))
      by (rewrite length_map, length_err; lia).
    change (map (fun y => 0 * y) (err pcov))
      with ((fun x => map (fun y => x * y) (err pcov)) 0).
    rewrite map_nth, length_map, length_err. exact Hn. }
  rewrite (entry_divide _ _ n i j Hn Hlen
             (entry_row_length pcov n i Hn Hrows Hi) Hrow Hi Hj).
  rewrite entry_outer by (rewrite length_err; lia).
  rewrite !nth_err by lia. reflexivity.
Qed.

(** X3. The correlation matrix [pcor = pcov/np.outer(err,err)] of a
    square [pcov] has the shape of [pcov] and the entries
    [pcov[i,j]/(sqrt(pcov[i,i])*sqrt(pcov[j,j]))].  Its diagonal is 1
    wherever the variance is positive, it is symmetric wherever [pcov]
    is, and an entry lies in [-1, 1] when the two variances are positive
    and [pcov[i,j]^2 <= pcov[i,i]*pcov[j,j]]. *)
Theorem correlation_matrix (pcov : list (list R)) (n i j : nat)
    (Hrows : length pcov = n)
    (Hcols : Forall (fun row => length row = n) pcov)
    (Hi : (i < n)%nat) (Hj : (j < n)%nat) :
  length (pcor pcov) = n /\
  length (nth i (pcor pcov) []) = n /\
  entry (pcor pcov) i j
  = entry pcov i j / (sqrt (entry pcov i i) * sqrt (entry pcov j j)) /\
  (0 < entry pcov i i -> entry (pcor pcov) i i = 1) /\
  (entry pcov i j = entry pcov j i ->
   entry (pcor pcov) i j = entry (pcor pcov) j i) /\
  (0 < entry pcov i i -> 0 < entry pcov j j ->
   entry pcov i j ^ 2 <= entry pcov i i * entry pcov j j ->
   -1 <= entry (pcor pcov) i j <= 1).
Proof.
  assert (Hlen : length (pcor pcov) = n).
  { unfold pcor, divide_entries, np_outer.
    rewrite length_map, length_combine, length_map, length_err, Hrows.
    apply Nat.min_id. }
  split; [exact Hlen|]. split.
  { unfold pcor, divide_entries.
    set (F := fun rows : list R * list R =>
                map (fun xy => fst xy / snd xy) (combine (fst rows) (snd rows))).
    change (@nil R) with (F ([], [])).
    rewrite map_nth. unfold F.
    rewrite length_map, length_combine.
    assert (Hl2 : length (np_outer (err pcov) (err pcov)) = n).
    { unfold np_outer. rewrite length_map, length_err. exact Hrows. }
    rewrite combine_nth by congruence. cbn [fst snd].
    rewrite (entry_row_length pcov n i Hrows Hcols Hi).
    unfold np_outer.
    rewrite (nth_indep _ [] (map (fun y => 0 * y) (err pcov)))
      by (rewrite length_map, length_err; lia).
    change (map (fun y => 0 * y) (err pcov))
      with ((fun x => map (fun y => x * y) (err pcov)) 0).
    rewrite map_nth, length_map, length_err, Hrows. apply Nat.min_id. }
  rewrite !(pcor_entry pcov n) by assumption.
  split; [reflexivity|]. split; [|split].
  - intros Hv. rewrite sqrt_sqrt by lra. field. lra.
  - intros Hsym. rewrite Hsym. f_equal. ring.
  - intros Hvi Hvj Hcs.
    pose proof (sqrt_lt_R0 _ Hvi) as Hsi.
    pose proof (sqrt_lt_R0 _ Hvj) as Hsj.
    set (s := sqrt (entry pcov i i) * sqrt (entry pcov j j)).
    assert (Hs : 0 < s) by (unfold s; nra).
    assert (Hs2 : s ^ 2 = entry pcov i i * entry pcov j j).
    { unfold s. simpl.
      replace (sqrt (entry pcov i i) * sqrt (entry pcov j j)
               * (sqrt (entry pcov i i) * sqrt (entry pcov j j) * 1))
        with (sqrt (entry pcov i i) * sqrt (entry pcov i i)
              * (sqrt (entry pcov j j) * sqrt (entry pcov j j))) by ring.
      rewrite !sqrt_sqrt by lra. reflexivity. }
    assert (Hc : - s <= entry pcov i j <= s) by (simpl in *; nra).
    split.
    + apply (Rmult_le_reg_r s); [exact Hs|].
      unfold Rdiv. rewrite Rmult_assoc, Rinv_l by lra. lra.
    + apply (Rmult_le_reg_r s); [exact Hs|].
      unfold Rdiv. rewrite Rmult_assoc, Rinv_l by lra. lra.
Qed.

Lemma correlation_matrix_witness :
  entry (pcor [[4; 1]; [1; 9]]) 0 1 = 1 / (sqrt 4 * sqrt 9).
Proof.
  assert (Hcols : Forall (fun row : list R => length row = 2%nat) [[4; 1]; [1; 9]])
    by (repeat constructor).
  assert (H0 : (0 < 2)%nat) by lia.
  assert (H1 : (1 < 2)%nat) by lia.
  destruct (correlation_matrix [[4; 1]; [1; 9]] 2 0 1 eq_refl Hcols H0 H1)
    as [_ [_ [Hentry _]]].
  exact Hentry.
Defined.

(** X4. After the cell's reordering the larger eigenvalue comes first and
    each eigenvalue still goes with its own eigenvector column; nothing
    but the order changes.  For non-negative eigenvalues the ellipse's
    [width] is then its major axis: [0 <= height <= width]. *)
Theorem ellipse_major_axis_first (eigval : vec2) (eigvec : mat2)
    (H0 : 0 <= fst eigval) (H1 : 0 <= snd eigval) :
  snd (fst (reverse_sorted eigval eigvec)) <= fst (fst (reverse_sorted eigval eigvec)) /\
  (forall c,
     eigenpair c (fst eigval) (column eigvec false) ->
     eigenpair c (snd eigval) (column eigvec true) ->
     eigenpair c (fst (fst (reverse_sorted eigval eigvec)))
               (column (snd (reverse_sorted eigval eigvec)) false) /\
     eigenpair c (snd (fst (reverse_sorted eigval eigvec)))
               (column (snd (reverse_sorted eigval eigvec)) true)) /\
  (reverse_sorted eigval eigvec = (eigval, eigvec) \/
   reverse_sorted eigval eigvec = (reversed eigval, reversed_columns eigvec)) /\
  0 <= snd (ellipse_axes (fst (reverse_sorted eigval eigvec)))
    <= fst (ellipse_axes (fst (reverse_sorted eigval eigvec))).
Proof.
  destruct eigval as [e0 e1]. destruct eigvec as [[a b] [c d]].
  cbn [fst snd] in H0, H1.
  unfold reverse_sorted. cbn [fst snd].
  assert (Hs59 : 0 <= sqrt 5.9) by apply sqrt_pos.
  destruct (Rlt_dec e0 e1) as [Hlt | Hge]; cbn [fst snd reversed reversed_columns
    ellipse_axes column].
  - split; [lra|]. split; [intros m Ha Hb; split; assumption|].
    split; [right; reflexivity|].
    pose proof (sqrt_pos e0) as Hp0.
    assert (Hle : sqrt e0 <= sqrt e1) by (apply sqrt_le_1; lra).
    split; nra.
  - split; [lra|]. split; [intros m Ha Hb; split; assumption|].
    split; [left; reflexivity|].
    pose proof (sqrt_pos e1) as Hp1.
    assert (Hle : sqrt e1 <= sqrt e0) by (apply sqrt_le_1; lra).
    split; nra.
Qed.

Lemma ellipse_major_axis_first_witness :
  snd (fst (reverse_sorted (1, 4) ((1, 0), (0, 1))))
  <= fst (fst (reverse_sorted (1, 4) ((1, 0), (0, 1)))).
Proof.
  assert (H0 : 0 <= fst (1, 4)) by (simpl; lra).
  assert (H1 : 0 <= snd (1, 4)) by (simpl; lra).
  destruct (ellipse_major_axis_first (1, 4) ((1, 0), (0, 1)) H0 H1) as [Hsorted _].
  exact Hsorted.
Defined.

(** X5. Both fitting interfaces start from the same curve: the initial
    guess [p0] handed to [curve_fit], read in the parameter order of
    [model], is the compound astropy model built from
    [Gaussian1D(amplitude=80., mean=4.5, stddev=1.0)] and
    [Linear1D(slope=0.0, intercept=425.)]. *)
Theorem fits_start_from_same_model (x : R) :
  star model x p0 = Ok (compound_model x).
Proof.
  unfold p0, star. f_equal.
  unfold compound_model, models.add, line, continuum,
    models.Gaussian1D, models.Linear1D, model, np_power.
  ring.
Qed.

End NLLSFacts.

(** ** The interactive notebook *)
Module InteractiveFacts.
Import Interactive.
Local Open Scope Z_scope.

(** *** Errors are not handled *)


Ltac expose_lib :=
  unfold getitem, plt_figure, plt_ion, plt_show, plt_clf, plt_draw,
    Figure_add_subplot, Figure_gca, Axes_imshow, Axes_plot1, Axes_plot,
    Axes_plot_y, Axes_set_xlabel, Axes_set_ylabel, Line2D_set_xdata,
    Line2D_set_ydata, Line2D_set_visible, FigureCanvas_draw,
    FigureCanvas_mpl_connect, display, widgets_Output, Output_capture,
    widgets_IntSlider, IntSlider_observe, widgets_Checkbox, Checkbox_observe,
    power10, np_mean_call, np_std_call, magic, print.

Ltac straight :=
  expose_lib; unfold read, use, import_, module_version, lib_pure, lib;
  repeat first
    [ progress intros
    | apply St_bind
    | apply St_ret
    | apply St_assign
    | apply St_op
    | match goal with
      | |- Straight (if ?b then _ else _) => destruct b
      | |- Straight (let (_, _) := ?p in _) => destruct p
      end ].













Lemma straight_new_display : Straight new_display.
Proof. unfold new_display. straight. Qed.















(** *** Running a computation step by step *)

Lemma bind_ret {A B : Type} (a : A) (k : A -> M B) (w : World) :
  bind (ret a) k w = k a w.
Proof. unfold bind, ret; simpl. destruct (k a w); reflexivity. Qed.

Lemma bind_assign {B : Type} (f : Globals -> Globals) (k : unit -> M B) (w : World) :
  bind (assign f) k w = k tt (with_globals (f (globals w)) w).
Proof. unfold bind, assign; simpl. destruct (k tt _); reflexivity. Qed.

Lemma bind_op_ok {A B : Type} (o : Origin) (name : string)
    (f : World -> result A * World) (k : A -> M B) (w w1 : World) (a : A) :
  f w = (Ok a, w1) ->
  bind (op o name f) k w = after_calls [called o name] (k a w1).
Proof. intros H. unfold bind, op. rewrite H. reflexivity. Qed.

Lemma bind_op_raise {A B : Type} (o : Origin) (name : string)
    (f : World -> result A * World) (k : A -> M B) (w w1 : World) (e : exn) :
  f w = (Raise e, w1) ->
  bind (op o name f) k w
  = {| res := Raise e; world := w1;
       calls := [{| origin := o; callee := name; raised := Some e |}] |}.
Proof. intros H. unfold bind, op. rewrite H. reflexivity. Qed.

Lemma op_ok {A : Type} (o : Origin) (name : string)
    (f : World -> result A * World) (w w1 : World) (a : A) :
  f w = (Ok a, w1) ->
  op o name f w = {| res := Ok a; world := w1; calls := [called o name] |}.
Proof. intros H. unfold op. rewrite H. reflexivity. Qed.

Lemma op_raise {A : Type} (o : Origin) (name : string)
    (f : World -> result A * World) (w w1 : World) (e : exn) :
  f w = (Raise e, w1) ->
  op o name f w
  = {| res := Raise e; world := w1;
       calls := [{| origin := o; callee := name; raised := Some e |}] |}.
Proof. intros H. unfold op. rewrite H. reflexivity. Qed.

Lemma bind_lib_ok {A B : Type} (name : string) (f : World -> result A * World)
    (k : A -> M B) (w w1 : World) (a : A) :
  f w = (Ok a, w1) ->
  bind (lib name f) k w = after_calls [called Library name] (k a w1).
Proof. apply bind_op_ok. Qed.

Lemma bind_lib_raise {A B : Type} (name : string) (f : World -> result A * World)
    (k : A -> M B) (w w1 : World) (e : exn) :
  f w = (Raise e, w1) ->
  bind (lib name f) k w
  = {| res := Raise e; world := w1;
       calls := [{| origin := Library; callee := name; raised := Some e |}] |}.
Proof. apply bind_op_raise. Qed.

Lemma lib_ok {A : Type} (name : string) (f : World -> result A * World)
    (w w1 : World) (a : A) :
  f w = (Ok a, w1) ->
  lib name f w = {| res := Ok a; world := w1; calls := [called Library name] |}.
Proof. apply op_ok. Qed.

Lemma lib_raise {A : Type} (name : string) (f : World -> result A * World)
    (w w1 : World) (e : exn) :
  f w = (Raise e, w1) ->
  lib name f w
  = {| res := Raise e; world := w1;
       calls := [{| origin := Library; callee := name; raised := Some e |}] |}.
Proof. apply op_raise. Qed.

Lemma bind_pure_ok {A B : Type} (name : string) (a : A) (k : A -> M B) (w : World) :
  bind (lib_pure name (Ok a)) k w = after_calls [called Library name] (k a w).
Proof. reflexivity. Qed.

Lemma bind_pure_raise {A B : Type} (name : string) (e : exn) (k : A -> M B)
    (w : World) :
  bind (lib_pure name (Raise e)) k w
  = {| res := Raise e; world := w;
       calls := [{| origin := Library; callee := name; raised := Some e |}] |}.
Proof. reflexivity. Qed.

Lemma bind_read {A B : Type} (name : string) (f : Globals -> option A)
    (k : A -> M B) (w : World) (a : A) :
  f (globals w) = Some a ->
  bind (read name f) k w = after_calls [called Interpreter name] (k a w).
Proof. intros H. unfold read. apply bind_op_ok. rewrite H. reflexivity. Qed.

Lemma bind_read_unbound {A B : Type} (name : string) (f : Globals -> option A)
    (k : A -> M B) (w : World) :
  f (globals w) = None ->
  bind (read name f) k w
  = {| res := Raise NameError; world := w;
       calls := [{| origin := Interpreter; callee := name;
                    raised := Some NameError |}] |}.
Proof. intros H. unfold read. apply bind_op_raise. rewrite H. reflexivity. Qed.

Lemma bind_use {B : Type} (name : string) (k : unit -> M B) (w : World) :
  has name (g_names (globals w)) = true ->
  bind (use name) k w = after_calls [called Interpreter name] (k tt w).
Proof. intros H. unfold use. apply bind_op_ok. rewrite H. reflexivity. Qed.

Lemma bind_use_unbound {B : Type} (name : string) (k : unit -> M B) (w : World) :
  has name (g_names (globals w)) = false ->
  bind (use name) k w
  = {| res := Raise NameError; world := w;
       calls := [{| origin := Interpreter; callee := name;
                    raised := Some NameError |}] |}.
Proof. intros H. unfold use. apply bind_op_raise. rewrite H. reflexivity. Qed.

Lemma bind_ok {A B : Type} (m : M A) (k : A -> M B) (w : World) (a : A) :
  res (m w) = Ok a ->
  bind m k w = after_calls (calls (m w)) (k a (world (m w))).
Proof. intros H. unfold bind. rewrite H. reflexivity. Qed.

Lemma bind_failed {A B : Type} (m : M A) (k : A -> M B) (w : World) (e : exn) :
  res (m w) = Raise e ->
  bind m k w = {| res := Raise e; world := world (m w); calls := calls (m w) |}.
Proof. intros H. unfold bind. rewrite H. reflexivity. Qed.

Lemma res_after_calls {A : Type} (l : list Call) (o : Outcome A) :
  res (after_calls l o) = res o.
Proof. reflexivity. Qed.

Lemma world_after_calls {A : Type} (l : list Call) (o : Outcome A) :
  world (after_calls l o) = world o.
Proof. reflexivity. Qed.

Lemma calls_after_calls {A : Type} (l : list Call) (o : Outcome A) :
  calls (after_calls l o) = (l ++ calls o)%list.
Proof. reflexivity. Qed.

Lemma py_int_Some (q : Q) : py_int (Some q) = Ok (trunc q).
Proof. reflexivity. Qed.

Lemma py_float_Some (q : Q) : py_float (Some q) = Ok q.
Proof. reflexivity. Qed.

Lemma float_of_scalar (v : Q) :
  float_of_array {| shape := []; data := [v] |} = Ok v.
Proof. reflexivity. Qed.

Create Rewrite HintDb run.
#[local] Hint Rewrite @bind_ret @bind_assign @bind_pure_ok
  @bind_pure_raise @res_after_calls @world_after_calls @calls_after_calls
  py_int_Some py_float_Some float_of_scalar : run.

Lemma upd_same {A : Type} (f : nat -> A) (k : nat) (v : A) : upd f k v k = v.
Proof. unfold upd. rewrite Nat.eqb_refl. reflexivity. Qed.

Lemma upd_other {A : Type} (f : nat -> A) (k i : nat) (v : A) :
  i <> k -> upd f k v i = f i.
Proof.
  intros H. unfold upd. destruct (Nat.eqb i k) eqn:E; [|reflexivity].
  apply Nat.eqb_eq in E. congruence.
Qed.

Ltac world_simpl :=
  cbn [world res calls after_calls ret
       env globals figures next_fig gcf interactive axes next_ax lines next_line
       sliders next_slider checkboxes next_checkbox capturing stdout out_widget
       displayed
       with_globals with_figures with_interactive with_axes with_lines
       with_sliders with_checkboxes with_output on_figure on_line add_line
       g_names g_ext g_image g_fig g_p g_line g_line2 g_sp g_ra g_dec g_co
       bind_name set_ext set_image set_fig set_p set_line set_line2 set_sp
       set_ra set_dec set_co].

Ltac world_norm t :=
  eval cbn [world res calls after_calls ret
       env globals figures next_fig gcf interactive axes next_ax lines next_line
       sliders next_slider checkboxes next_checkbox capturing stdout out_widget
       displayed
       with_globals with_figures with_interactive with_axes with_lines
       with_sliders with_checkboxes with_output on_figure on_line add_line
       g_names g_ext g_image g_fig g_p g_line g_line2 g_sp g_ra g_dec g_co
       bind_name set_ext set_image set_fig set_p set_line set_line2 set_sp
       set_ra set_dec set_co] in t.

(** The facts kept about a state that a run has reached: rewriting with
    them takes a later state back to the earlier ones. *)
Ltac recall :=
  repeat match goal with
         | H : ?p ?W = _ |- _ => is_var W; rewrite H
         end.

Ltac settle := world_simpl; repeat (progress (recall; world_simpl)).

(** A name is bound in the state reached. *)
Ltac bound := settle; first [reflexivity | eassumption].

Ltac lib_step :=
  first [ erewrite bind_lib_ok by reflexivity
        | erewrite bind_op_ok by reflexivity ].
Ltac read_step := erewrite bind_read by bound.
Ltac use_step := rewrite bind_use by bound.

Lemma outcome_facts {A : Type} (o : Outcome A) (P : result A -> World -> Prop)
    (r : result A) (W : World) (l : list Call) :
  o = {| res := r; world := W; calls := l |} -> P r W -> P (res o) (world o).
Proof. intros ->. exact (fun H => H). Qed.

(** To prove facts about the result and the final state of a run, run it
    once. *)
Ltac by_running :=
  match goal with
  | |- res ?o = _ /\ _ =>
      pattern (res o), (world o); eapply outcome_facts; [|cbv beta]
  end.

(** A long run is cut: the state reached is named, what it holds is kept
    as equations, and the run goes on from the name. *)
Ltac keep_proj proj T W :=
  let v := world_norm (proj T) in
  let H := fresh "HW" in
  assert (H : proj W = v) by reflexivity.

Ltac cut_at T :=
  let W := fresh "W" in
  set (W := T) in *;
  keep_proj env T W; keep_proj globals T W; keep_proj figures T W;
  keep_proj next_fig T W; keep_proj gcf T W; keep_proj interactive T W;
  keep_proj axes T W; keep_proj next_ax T W; keep_proj lines T W;
  keep_proj next_line T W; keep_proj sliders T W; keep_proj next_slider T W;
  keep_proj checkboxes T W; keep_proj next_checkbox T W;
  keep_proj capturing T W; keep_proj stdout T W; keep_proj out_widget T W;
  keep_proj displayed T W;
  clearbody W.

Ltac cut_world :=
  match goal with
  | |- context [bind _ _ ?T] => tryif is_var T then fail else cut_at T
  end.

Ltac long_run :=
  match goal with
  | |- res ?o = _ /\ _ =>
      pattern (res o), (world o);
      match goal with
      | |- ?P _ _ => let p := fresh "Post" in set (p := P)
      end
  end.

(** *** Parts of the state a computation leaves alone *)

Lemma keeps_bind {X A B : Type} (proj : World -> X) (m : M A) (k : A -> M B) :
  keeps proj m -> (forall a, keeps proj (k a)) -> keeps proj (bind m k).
Proof.
  intros Hm Hk w. unfold bind.
  destruct (res (m w)) as [a|e]; simpl.
  - rewrite Hk. apply Hm.
  - apply Hm.
Qed.

Lemma keeps_op {X A : Type} (proj : World -> X) (o : Origin) (name : string)
    (f : World -> result A * World) :
  (forall w, proj (snd (f w)) = proj w) -> keeps proj (op o name f).
Proof. intros H w. apply H. Qed.

Ltac case_matches :=
  repeat match goal with
         | |- context [if ?b then _ else _] => destruct b
         | |- context [match ?r with Ok _ => _ | Raise _ => _ end] => destruct r
         | |- context [match ?l with [] => _ | _ :: _ => _ end] => destruct l
         | |- context [match ?l with Some _ => _ | None => _ end] => destruct l
         end.

Ltac keeps_leaf :=
  first
    [ apply keeps_op; intros; simpl; case_matches; reflexivity
    | intros ?; reflexivity ].

Ltac keeps_all :=
  expose_lib; unfold read, use, import_, module_version, lib_pure, lib;
  repeat (apply keeps_bind; [|intros]); try keeps_leaf.

Lemma never_calls_bind {A B : Type} (bad : Call -> bool) (m : M A) (k : A -> M B) :
  never_calls bad m -> (forall a, never_calls bad (k a)) ->
  never_calls bad (bind m k).
Proof.
  intros Hm Hk w. unfold bind.
  destruct (res (m w)) as [a|e]; simpl.
  - rewrite existsb_app, Hm, Hk. reflexivity.
  - apply Hm.
Qed.

Lemma never_calls_op {A : Type} (bad : Call -> bool) (o : Origin) (name : string)
    (f : World -> result A * World) :
  (forall r, bad {| origin := o; callee := name; raised := r |} = false) ->
  never_calls bad (op o name f).
Proof. intros H w. unfold op; simpl. rewrite H. reflexivity. Qed.

Lemma never_calls_capture (bad : Call -> bool) (body : M unit) :
  never_calls bad body -> never_calls bad (capture body).
Proof.
  intros H w. unfold capture.
  destruct (res (body _)); [|destruct (in_kernel _)]; simpl; apply H.
Qed.

Lemma keeps_capture {X : Type} (proj : World -> X) (body : M unit) :
  (forall c so ow d w, proj (with_output c so ow d w) = proj w) ->
  keeps proj body -> keeps proj (capture body).
Proof.
  intros Hout H w. unfold capture.
  destruct (res (body _)); [|destruct (in_kernel _)]; simpl;
    rewrite Hout, H, Hout; reflexivity.
Qed.

Ltac never_calls_all :=
  expose_lib; unfold read, use, import_, module_version, lib_pure, lib;
  repeat (apply never_calls_bind; [|intros]);
  try first
    [ apply never_calls_op; intros; reflexivity
    | intros ?; reflexivity ].

Lemma on_key_press_body_keeps_env ev : keeps env (on_key_press_body ev).
Proof.
  unfold on_key_press_body. destruct (key_is ev "m").
  - keeps_all.
  - intros w. reflexivity.
Qed.

Lemma capture_outcome (body : M unit) (w : World) :
  keeps env body ->
  let o := body (with_output true (stdout w) (out_widget w) (displayed w) w) in
  calls (capture body w) = calls o /\
  res (capture body w) = (if in_kernel (env w) then Ok tt else res o) /\
  out_widget (world (capture body w))
  = (out_widget (world o)
     ++ match res o with
        | Raise e => if in_kernel (env w) then [Traceback e] else []
        | Ok _ => []
        end)%list.
Proof.
  intros Hkeep o.
  assert (Henv : env (world o) = env w) by (unfold o; rewrite Hkeep; reflexivity).
  unfold capture. fold o. rewrite Henv.
  destruct (res o) as [[]|e]; destruct (in_kernel (env w)); simpl;
    rewrite ?app_nil_r; auto.
Qed.


Lemma unpack2_refuses (dims : list nat) :
  length dims <> 2%nat -> unpack2 dims = Raise ValueError.
Proof.
  destruct dims as [|a [|b [|c tl]]]; simpl; intros H; try reflexivity.
  congruence.
Qed.

Ltac no_call_raised_log :=
  autorewrite with run; cbn [calls app];
  repeat (constructor; [intros Ho; first [reflexivity | discriminate Ho]|]);
  constructor.


Lemma cell_slider_without_plane (w : World) (image : ndarray) :
  g_image (globals w) = Some image -> length (shape image) <> 2%nat ->
  res (cell_slider w) = Raise ValueError /\
  no_call_raised (calls (cell_slider w)).
Proof.
  intros Himage Hshape. unfold cell_slider.
  read_step.
  erewrite bind_op_raise.
  2:{ rewrite (unpack2_refuses _ Hshape). reflexivity. }
  split; [reflexivity|]. unfold no_call_raised. no_call_raised_log.
Qed.



(** *** The key-press callbacks *)

Lemma bind_returned {A B : Type} (m : M A) (k : A -> M B) (w w1 : World)
    (a : A) (l : list Call) :
  m w = {| res := Ok a; world := w1; calls := l |} ->
  bind m k w = after_calls l (k a w1).
Proof. intros H. unfold bind. rewrite H. reflexivity. Qed.

(** A plot of one point with both coordinates present goes through. *)
Lemma plot_point_outcome (ax : nat) (x y : Q) (w : World) :
  Axes_plot ax [Some x] [Some y] "ro" None (Some 5%Q) w
  = {| res := Ok (next_line w);
       world := add_line ax (red_marker x y) w;
       calls := [called Library "Axes.plot"] |}.
Proof.
  unfold Axes_plot, lib, op; simpl. rewrite andb_false_r. reflexivity.
Qed.

(** A plot of [None] against [None], where matplotlib rejects it. *)
Lemma plot_nothing_outcome (ax : nat) (w : World) :
  plot_rejects_None (env w) = true ->
  Axes_plot ax [None] [None] "ro" None (Some 5%Q) w
  = {| res := Raise ValueError; world := w;
       calls := [{| origin := Library; callee := "Axes.plot";
                    raised := Some ValueError |}] |}.
Proof.
  intros H. unfold Axes_plot. apply lib_raise. rewrite H. reflexivity.
Qed.

Lemma bind_raised {A B : Type} (m : M A) (k : A -> M B) (w w1 : World)
    (e : exn) (l : list Call) :
  m w = {| res := Raise e; world := w1; calls := l |} ->
  bind m k w = {| res := Raise e; world := w1; calls := l |}.
Proof. intros H. unfold bind. rewrite H. reflexivity. Qed.

Lemma on_key_press_keeps_figures ev : keeps figures (on_key_press ev).
Proof.
  unfold on_key_press. destruct (key_is ev "m"); keeps_all.
Qed.

Lemma on_key_press_body_keeps_figures ev : keeps figures (on_key_press_body ev).
Proof.
  unfold on_key_press_body. destruct (key_is ev "m"); keeps_all.
Qed.

Lemma GUI_inter_on_key_press_keeps_figures self ev :
  keeps figures (GUI_inter_on_key_press self ev).
Proof.
  unfold GUI_inter_on_key_press. destruct (key_is ev "m"); keeps_all.
Qed.

Lemma on_key_press_never_redraws ev : never_calls redraw_call (on_key_press ev).
Proof.
  unfold on_key_press. destruct (key_is ev "m"); never_calls_all.
Qed.

Lemma on_key_press_body_never_redraws ev :
  never_calls redraw_call (on_key_press_body ev).
Proof.
  unfold on_key_press_body. destruct (key_is ev "m"); never_calls_all.
Qed.

Lemma GUI_inter_on_key_press_never_redraws self ev :
  never_calls redraw_call (GUI_inter_on_key_press self ev).
Proof.
  unfold GUI_inter_on_key_press. destruct (key_is ev "m"); never_calls_all.
Qed.

Lemma capture_figure_state (body : M unit) (w : World) :
  figure_state (world (capture body w))
  = figure_state
      (world (body (with_output true (stdout w) (out_widget w) (displayed w) w))).
Proof.
  unfold capture.
  destruct (res (body _)); [|destruct (in_kernel _)]; reflexivity.
Qed.

Ltac on_key_m Hkey Hpos :=
  unfold key_is, xdata, ydata; rewrite Hkey, Hpos;
  change (String.eqb "m" "m") with true; cbv iota; cbv beta;
  change (option_map fst (Some (?x, ?y))) with (Some x);
  change (option_map snd (Some (?x, ?y))) with (Some y);
  change (option_map fst (@None (Q * Q))) with (@None Q);
  change (option_map snd (@None (Q * Q))) with (@None Q).

Lemma on_key_press_marks (w : World) (ev : KeyEvent) (x y : Q) (p fig : nat) :
  key ev = Some "m"%string -> position ev = Some (x, y) ->
  g_p (globals w) = Some p -> g_fig (globals w) = Some fig ->
  marked w p x y (world (on_key_press ev w)).
Proof.
  intros Hkey Hpos Hp Hfig. unfold marked, on_key_press. on_key_m Hkey Hpos.
  read_step.
  rewrite (bind_returned _ _ _ _ _ _ (plot_point_outcome p x y w)).
  read_step. autorewrite with run. reflexivity.
Qed.

Lemma on_key_press_body_marks (w : World) (ev : KeyEvent) (x y : Q) (p fig : nat) :
  key ev = Some "m"%string -> position ev = Some (x, y) ->
  g_p (globals w) = Some p -> g_fig (globals w) = Some fig ->
  marked w p x y (world (on_key_press_body ev w)).
Proof.
  intros Hkey Hpos Hp Hfig. unfold marked, on_key_press_body. on_key_m Hkey Hpos.
  read_step.
  rewrite (bind_returned _ _ _ _ _ _ (plot_point_outcome p x y w)).
  read_step. autorewrite with run.
  match goal with
  | |- figure_state (world (?t ?w1)) = _ =>
      assert (K : keeps figure_state t) by keeps_all;
      rewrite (K w1); clear K
  end.
  reflexivity.
Qed.

Lemma on_key_press_captured_marks (w : World) (ev : KeyEvent) (x y : Q)
    (p fig : nat) :
  key ev = Some "m"%string -> position ev = Some (x, y) ->
  g_p (globals w) = Some p -> g_fig (globals w) = Some fig ->
  marked w p x y (world (on_key_press_captured ev w)).
Proof.
  intros Hkey Hpos Hp Hfig. unfold marked, on_key_press_captured.
  rewrite capture_figure_state.
  apply (on_key_press_body_marks
           (with_output true (stdout w) (out_widget w) (displayed w) w)
           ev x y p fig);
    assumption.
Qed.

Lemma GUI_inter_on_key_press_marks (w : World) (self : GUI_inter)
    (ev : KeyEvent) (x y : Q) (fig : nat) :
  key ev = Some "m"%string -> position ev = Some (x, y) ->
  g_fig (globals w) = Some fig ->
  marked w (self_p self) x y (world (GUI_inter_on_key_press self ev w)).
Proof.
  intros Hkey Hpos Hfig. unfold marked, GUI_inter_on_key_press.
  on_key_m Hkey Hpos.
  rewrite (bind_returned _ _ _ _ _ _ (plot_point_outcome (self_p self) x y w)).
  read_step. autorewrite with run.
  match goal with
  | |- figure_state (world (?t ?w1)) = _ =>
      assert (K : keeps figure_state t) by keeps_all;
      rewrite (K w1); clear K
  end.
  reflexivity.
Qed.

(** With the cursor outside of the axes, where matplotlib rejects [None]:
    [p.plot] raises and the callback stops there. *)
Lemma on_key_press_outside (w : World) (ev : KeyEvent) (p : nat) :
  key ev = Some "m"%string -> position ev = None ->
  plot_rejects_None (env w) = true ->
  g_p (globals w) = Some p ->
  res (on_key_press ev w) = Raise ValueError /\
  world (on_key_press ev w) = w.
Proof.
  intros Hkey Hpos Hrej Hp. unfold on_key_press. on_key_m Hkey Hpos.
  read_step.
  rewrite (bind_raised _ _ _ _ _ _ (plot_nothing_outcome p w Hrej)).
  split; reflexivity.
Qed.

Lemma on_key_press_body_outside (w : World) (ev : KeyEvent) (p fig : nat)
    (image : ndarray) :
  key ev = Some "m"%string -> position ev = None ->
  g_p (globals w) = Some p -> g_fig (globals w) = Some fig ->
  g_image (globals w) = Some image ->
  res (on_key_press_body ev w)
  = Raise (if plot_rejects_None (env w) then ValueError else TypeError) /\
  (plot_rejects_None (env w) = true -> world (on_key_press_body ev w) = w).
Proof.
  intros Hkey Hpos Hp Hfig Himage. unfold on_key_press_body.
  on_key_m Hkey Hpos. read_step.
  destruct (plot_rejects_None (env w)) eqn:Hrej.
  - rewrite (bind_raised _ _ _ _ _ _ (plot_nothing_outcome p w Hrej)).
    split; [reflexivity | intros _; reflexivity].
  - unfold Axes_plot. erewrite bind_lib_ok.
    2:{ rewrite Hrej. reflexivity. }
    read_step. rewrite bind_ret. read_step.
    change (py_int None) with (@Raise Z TypeError).
    rewrite bind_pure_raise.
    split; [reflexivity | intros H; discriminate H].
Qed.

Lemma GUI_inter_on_key_press_outside (w : World) (self : GUI_inter)
    (ev : KeyEvent) :
  key ev = Some "m"%string -> position ev = None ->
  plot_rejects_None (env w) = true ->
  res (GUI_inter_on_key_press self ev w) = Raise ValueError /\
  world (GUI_inter_on_key_press self ev w) = w.
Proof.
  intros Hkey Hpos Hrej. unfold GUI_inter_on_key_press. on_key_m Hkey Hpos.
  rewrite (bind_raised _ _ _ _ _ _ (plot_nothing_outcome (self_p self) w Hrej)).
  split; reflexivity.
Qed.

Lemma marked_next_line (w w' : World) (ax : nat) (x y : Q) :
  marked w ax x y w' -> next_line w' = S (next_line w).
Proof.
  unfold marked, figure_state. intros H.
  apply (f_equal (fun t => snd (fst (fst (fst t))))) in H.
  exact H.
Qed.

(** C10 (amended).  On a press of [m], with [p] and [fig] bound: when the
    cursor is inside the axes, each of the three key-press callbacks adds
    one red marker artist to the axes ([p], or [self.p] for the class) and
    changes nothing else of what the figures show; when the cursor is
    outside of the axes, the coordinates are [None], and where matplotlib
    rejects them [p.plot] raises [ValueError] and what the figures show is
    unchanged: no marker is added.  Whatever the event, no callback asks
    for a redraw: [fig.canvas.draw_idle] is evaluated and not called, so
    the log has no drawing call and no figure's counters move. *)
Theorem key_press_marks_without_redraw
    (w : World) (self : GUI_inter) (ev : KeyEvent) (p fig : nat)
    (Hkey : key ev = Some "m"%string)
    (Hp : g_p (globals w) = Some p)
    (Hfig : g_fig (globals w) = Some fig) :
  (forall x y,
     position ev = Some (x, y) ->
     marked w p x y (world (on_key_press ev w)) /\
     marked w p x y (world (on_key_press_captured ev w)) /\
     marked w (self_p self) x y (world (GUI_inter_on_key_press self ev w))) /\
  (position ev = None ->
   plot_rejects_None (env w) = true ->
   res (on_key_press ev w) = Raise ValueError /\
   res (GUI_inter_on_key_press self ev w) = Raise ValueError /\
   figure_state (world (on_key_press ev w)) = figure_state w /\
   figure_state (world (on_key_press_captured ev w)) = figure_state w /\
   figure_state (world (GUI_inter_on_key_press self ev w)) = figure_state w) /\
  (forall ev' w',
     no_redraw w' (on_key_press ev' w') /\
     no_redraw w' (on_key_press_captured ev' w') /\
     no_redraw w' (GUI_inter_on_key_press self ev' w')).
Proof.
  split; [|split].
  - intros x y Hpos.
    split; [apply (on_key_press_marks w ev x y p fig); assumption|].
    split; [apply (on_key_press_captured_marks w ev x y p fig); assumption|].
    apply (GUI_inter_on_key_press_marks w self ev x y fig); assumption.
  - intros Hpos Hrej.
    destruct (on_key_press_outside w ev p Hkey Hpos Hrej Hp) as [Hr1 Hw1].
    destruct (GUI_inter_on_key_press_outside w self ev Hkey Hpos Hrej)
      as [Hr2 Hw2].
    split; [exact Hr1|]. split; [exact Hr2|].
    split; [rewrite Hw1; reflexivity|].
    split; [|rewrite Hw2; reflexivity].
    unfold on_key_press_captured. rewrite capture_figure_state.
    set (wc := with_output true (stdout w) (out_widget w) (displayed w) w).
    unfold on_key_press_body. on_key_m Hkey Hpos.
    erewrite bind_read by (unfold wc; bound).
    assert (Hrejc : plot_rejects_None (env wc) = true) by exact Hrej.
    rewrite (bind_raised _ _ _ _ _ _ (plot_nothing_outcome p wc Hrejc)).
    reflexivity.
  - intros ev' w'. unfold no_redraw. repeat split.
    + apply on_key_press_keeps_figures.
    + apply on_key_press_never_redraws.
    + apply (keeps_capture figures); [reflexivity|].
      apply on_key_press_body_keeps_figures.
    + apply never_calls_capture, on_key_press_body_never_redraws.
    + apply GUI_inter_on_key_press_keeps_figures.
    + apply GUI_inter_on_key_press_never_redraws.
Qed.

(** C10, as stated, fails outside of the axes: in the session of the
    notebook, a press of [m] with the cursor outside of the axes makes
    [p.plot] raise, and the figures have no marker more. *)
Lemma m_press_outside_adds_no_marker : ~ m_press_always_marks.
Proof.
  intros H.
  assert (Hp : g_p (globals (session_with_output small_image)) = Some 0%nat)
    by (vm_compute; reflexivity).
  assert (Hfig : g_fig (globals (session_with_output small_image)) = Some 0%nat)
    by (vm_compute; reflexivity).
  destruct (H (session_with_output small_image) key_m_outside 0%nat 0%nat
              eq_refl Hp Hfig) as [x [y Hmark]].
  apply marked_next_line in Hmark.
  assert (Hafter : next_line (world (on_key_press key_m_outside
                                       (session_with_output small_image)))
                   = 0%nat) by (vm_compute; reflexivity).
  assert (Hbefore : next_line (session_with_output small_image) = 0%nat)
    by (vm_compute; reflexivity).
  rewrite Hafter, Hbefore in Hmark. discriminate Hmark.
Qed.

(** *** Indexing *)

Lemma norm_index_wrap (i : Z) (n : nat) :
  norm_index i n = if index_ok i n then Ok (wrap i n) else Raise IndexError.
Proof.
  unfold norm_index, index_ok, wrap.
  destruct (0 <=? i) eqn:H0; destruct (i <? Z.of_nat n) eqn:H1;
    destruct (- Z.of_nat n <=? i) eqn:H2; destruct (i <? 0) eqn:H3;
    simpl; try reflexivity; lia.
Qed.

Lemma wrap_lt (i : Z) (n : nat) : index_ok i n = true -> (wrap i n < n)%nat.
Proof.
  unfold index_ok, wrap. intros H.
  apply andb_true_iff in H. destruct H as [H1 H2].
  destruct (0 <=? i) eqn:H0; lia.
Qed.

Lemma slice_one (l : list Q) (k : nat) :
  (k < length l)%nat -> slice_of l (k * 1) 1 = [nth k l 0%Q].
Proof.
  unfold slice_of. rewrite Nat.mul_1_r.
  revert k. induction l as [|a tl IH]; intros k Hk; simpl in Hk; [lia|].
  destruct k as [|k]; simpl.
  - reflexivity.
  - apply IH. lia.
Qed.

Lemma getitem2_plane (a : ndarray) (zl xl : nat) (i j : Z) :
  shape a = [zl; xl] -> length (data a) = (zl * xl)%nat ->
  ndarray_getitem2 a i j
  = if index_ok i zl && index_ok j xl
    then Ok {| shape := [];
               data := [nth (wrap i zl * xl + wrap j xl) (data a) 0%Q] |}
    else Raise IndexError.
Proof.
  intros Hs Hd. unfold ndarray_getitem2. rewrite Hs, !norm_index_wrap.
  destruct (index_ok i zl) eqn:Hi; [|reflexivity].
  destruct (index_ok j xl) eqn:Hj; [|reflexivity].
  simpl. rewrite slice_one; [reflexivity|].
  apply wrap_lt in Hi. apply wrap_lt in Hj. rewrite Hd. nia.
Qed.

Lemma norm_index_inside (i : Z) (n : nat) :
  0 <= i < Z.of_nat n -> norm_index i n = Ok (Z.to_nat i).
Proof.
  intros H. unfold norm_index.
  destruct (0 <=? i) eqn:H0; destruct (i <? Z.of_nat n) eqn:H1; simpl;
    try reflexivity; lia.
Qed.

Lemma norm_index_at_length (n : nat) : norm_index (Z.of_nat n) n = Raise IndexError.
Proof.
  unfold norm_index.
  destruct (0 <=? Z.of_nat n) eqn:H0; destruct (Z.of_nat n <? Z.of_nat n) eqn:H1;
    destruct (- Z.of_nat n <=? Z.of_nat n) eqn:H2;
    destruct (Z.of_nat n <? 0) eqn:H3; simpl; try reflexivity; lia.
Qed.

(** *** The pixel that is printed *)

Lemma print_outcome (item : OutItem) (w : World) :
  res (print item w) = Ok tt /\
  printed (world (print item w)) = (printed w ++ [item])%list /\
  capturing (world (print item w)) = capturing w.
Proof.
  unfold print, lib, op, printed; simpl. destruct (capturing w); simpl; auto.
Qed.

Lemma on_key_press_body_inside (w : World) (ev : KeyEvent) (x y : Q)
    (p fig : nat) (image : ndarray) (zl xl : nat) :
  key ev = Some "m"%string -> position ev = Some (x, y) ->
  g_p (globals w) = Some p -> g_fig (globals w) = Some fig ->
  g_image (globals w) = Some image ->
  shape image = [zl; xl] ->
  length (data image) = (zl * xl)%nat ->
  let ok := index_ok (trunc y) zl && index_ok (trunc x) xl in
  let pixel := nth (wrap (trunc y) zl * xl + wrap (trunc x) xl) (data image) 0%Q in
  res (on_key_press_body ev w) = (if ok then Ok tt else Raise IndexError) /\
  printed (world (on_key_press_body ev w))
  = (if ok then printed w ++ [Text "[%.1f, %.1f] = %.4f" [x; y; pixel]]
     else printed w)%list.
Proof.
  intros Hkey Hpos Hp Hfig Himage Hs Hd ok pixel.
  unfold on_key_press_body. on_key_m Hkey Hpos.
  read_step.
  rewrite (bind_returned _ _ _ _ _ _ (plot_point_outcome p x y w)).
  read_step. rewrite bind_ret. read_step.
  autorewrite with run.
  rewrite (getitem2_plane _ zl xl _ _ Hs Hd). fold ok. fold pixel.
  destruct ok.
  - autorewrite with run.
    destruct (print_outcome (Text "[%.1f, %.1f] = %.4f" [x; y; pixel])
                (add_line p (red_marker x y) w)) as [Hr [Hpr _]].
    rewrite Hr, Hpr. split; reflexivity.
  - autorewrite with run. split; reflexivity.
Qed.

(** C9 (amended).  On a press of [m], with [p], [fig] and [image] bound,
    the second callback's body looks up [image[int(yc), int(xc)]]: the row
    comes from the y coordinate and the column from the x coordinate, both
    truncated toward zero.  With the cursor inside the axes and a
    two-dimensional image of [zl] rows and [xl] columns, it returns
    exactly when [-zl <= int(yc) < zl] and [-xl <= int(xc) < xl], and
    raises [IndexError] otherwise; it prints the entry at row [int(yc)]
    and column [int(xc)], a negative index counting from the end.  With
    the cursor outside of the axes, [xdata] and [ydata] are [None],
    [int(yc)] is a [TypeError], and the body raises: [ValueError] from
    [p.plot] where matplotlib rejects [None], the [TypeError] of the
    conversion otherwise. *)
Theorem marked_pixel_lookup (w : World) (ev : KeyEvent) (p fig : nat)
    (image : ndarray) (zl xl : nat)
    (Hkey : key ev = Some "m"%string)
    (Hp : g_p (globals w) = Some p)
    (Hfig : g_fig (globals w) = Some fig)
    (Himage : g_image (globals w) = Some image)
    (Hshape : shape image = [zl; xl])
    (Hdata : length (data image) = (zl * xl)%nat) :
  (forall x y,
     position ev = Some (x, y) ->
     py_int (ydata ev) = Ok (trunc y) /\
     py_int (xdata ev) = Ok (trunc x) /\
     res (on_key_press_body ev w)
     = (if index_ok (trunc y) zl && index_ok (trunc x) xl
        then Ok tt else Raise IndexError) /\
     printed (world (on_key_press_body ev w))
     = (if index_ok (trunc y) zl && index_ok (trunc x) xl
        then printed w
             ++ [Text "[%.1f, %.1f] = %.4f"
                   [x; y;
                    nth (wrap (trunc y) zl * xl + wrap (trunc x) xl)
                        (data image) 0%Q]]
        else printed w)%list) /\
  (position ev = None ->
     xdata ev = None /\
     ydata ev = None /\
     py_int (ydata ev) = Raise TypeError /\
     res (on_key_press_body ev w)
     = Raise (if plot_rejects_None (env w) then ValueError else TypeError)).
Proof.
  split.
  - intros x y Hpos.
    destruct (on_key_press_body_inside w ev x y p fig image zl xl
                Hkey Hpos Hp Hfig Himage Hshape Hdata)
      as [Hres Hprint].
    unfold xdata, ydata. rewrite Hpos.
    split; [reflexivity|]. split; [reflexivity|].
    split; [exact Hres | exact Hprint].
  - intros Hpos. unfold xdata, ydata at 1 2. rewrite Hpos.
    split; [reflexivity|]. split; [reflexivity|]. split; [reflexivity|].
    apply (on_key_press_body_outside w ev p fig image); assumption.
Qed.

(** C9, as stated, fails: on the two-by-two image of the sample session, a
    press of [m] at [(-3/2, -3/2)] truncates to row and column [-1], and
    the lookup returns the last pixel instead of failing. *)
Lemma lookup_accepts_negative_index : ~ lookup_only_inside.
Proof.
  intros H.
  assert (Himage : g_image (globals (session_with_output small_image))
                   = Some small_image) by (vm_compute; reflexivity).
  assert (Hres : res (on_key_press_body (key_m_at (-3 # 2) (-3 # 2))
                        (session_with_output small_image)) = Ok tt)
    by (vm_compute; reflexivity).
  destruct (H (session_with_output small_image) (key_m_at (-3 # 2) (-3 # 2))
              (-3 # 2)%Q (-3 # 2)%Q small_image 2%nat 2%nat
              eq_refl eq_refl Himage eq_refl eq_refl Hres)
    as [[Hrow _] _].
  vm_compute in Hrow. apply Hrow. reflexivity.
Qed.

(** *** The sliders *)

Lemma no_None_in_arrays (n : nat) (ys : list Q) :
  existsb is_None (arange n ++ floats ys) = false.
Proof.
  rewrite existsb_app.
  assert (Ha : existsb is_None (arange n) = false).
  { unfold arange. induction (seq 0 n); simpl; auto. }
  assert (Hf : existsb is_None (floats ys) = false).
  { unfold floats. induction ys; simpl; auto. }
  rewrite Ha, Hf. reflexivity.
Qed.

Lemma no_None_in_floats (xs ys : list Q) :
  existsb is_None (floats xs ++ floats ys) = false.
Proof.
  rewrite existsb_app.
  assert (Hf : forall l, existsb is_None (floats l) = false).
  { unfold floats. induction l; simpl; auto. }
  rewrite !Hf. reflexivity.
Qed.

Lemma row_of_length (a : ndarray) (zl xl r : nat) :
  length (data a) = (zl * xl)%nat -> (r < zl)%nat ->
  length (row_of a xl r) = xl.
Proof.
  intros Hd Hr. unfold row_of, slice_of.
  rewrite length_firstn, length_skipn, Hd.
  apply Nat.min_l. nia.
Qed.

Lemma getitem_row_inside (a : ndarray) (zl xl : nat) (v : Z) :
  shape a = [zl; xl] -> 0 <= v < Z.of_nat zl ->
  ndarray_getitem_row a v
  = Ok {| shape := [xl]; data := row_of a xl (Z.to_nat v) |}.
Proof.
  intros Hs Hv. unfold ndarray_getitem_row. rewrite Hs.
  rewrite (norm_index_inside v zl Hv).
  unfold row_of, size_of. simpl fold_right. rewrite Nat.mul_1_r. reflexivity.
Qed.

Lemma getitem_row_plane (a : ndarray) (zl xl : nat) (v : Z) :
  shape a = [zl; xl] ->
  (0 <= v < Z.of_nat zl -> is_ok (ndarray_getitem_row a v) = true) /\
  ndarray_getitem_row a (Z.of_nat zl) = Raise IndexError.
Proof.
  intros Hs. unfold ndarray_getitem_row. rewrite Hs. split.
  - intros Hv. rewrite (norm_index_inside v zl Hv). reflexivity.
  - rewrite norm_index_at_length. reflexivity.
Qed.

Lemma list_getitem_inside {A : Type} (l : list A) (v : Z) :
  0 <= v < Z.of_nat (length l) -> is_ok (list_getitem l v) = true.
Proof.
  intros Hv. unfold list_getitem. rewrite (norm_index_inside v _ Hv).
  destruct (nth_error l (Z.to_nat v)) eqn:Hn; [reflexivity|].
  apply nth_error_None in Hn. lia.
Qed.

Lemma clamp_inside (v lo hi : Z) : lo <= v <= hi -> clamp v lo hi = v.
Proof. unfold clamp. lia. Qed.

(** What the slider cell leaves behind. *)
Lemma cell_slider_state (w : World) (image : ndarray) (zl xl : nat) :
  imported "plt" w -> imported "widgets" w ->
  g_image (globals w) = Some image ->
  shape image = [zl; xl] -> (150 < zl)%nat ->
  let o := cell_slider w in
  res o = Ok (next_slider w) /\
  globals (world o)
  = set_line (next_line w) (set_p (next_ax w) (set_fig (next_fig w) (globals w))) /\
  sliders (world o) (next_slider w)
  = {| value := 150; smin := 0; smax := Z.of_nat zl; step := 1;
       description := "Z-axis:";
       slider_observers := [("value"%string, H_update)] |} /\
  (forall s, s <> next_slider w -> sliders (world o) s = sliders w s) /\
  lines (world o) (next_line w) = samples_line (row_of image xl 150) /\
  (forall l, l <> next_line w -> lines (world o) l = lines w l) /\
  axes (world o) (next_ax w)
  = add_child (LineArtist (next_line w)) empty_axes /\
  (forall a, a <> next_ax w -> axes (world o) a = axes w a) /\
  figures (world o) (next_fig w) = set_fig_axes [next_ax w] empty_figure /\
  (forall f, f <> next_fig w -> figures (world o) f = figures w f) /\
  next_ax (world o) = S (next_ax w) /\
  next_line (world o) = S (next_line w) /\
  displayed (world o) = (displayed w ++ [ShowSlider (next_slider w)])%list.
Proof.
  unfold imported. intros Hplt Hwidgets Himage Hs H150. cbv zeta.
  long_run.
  unfold cell_slider. expose_lib. read_step.
  erewrite bind_op_ok.
  2:{ rewrite Hs. reflexivity. }
  cbn [fst]. use_step. lib_step. rewrite bind_assign.
  unfold new_axes. lib_step. rewrite bind_assign.
  cut_world.
  rewrite (getitem_row_inside image zl xl 150 Hs) by lia.
  rewrite bind_pure_ok. cbn [data].
  erewrite bind_lib_ok.
  2:{ rewrite no_None_in_arrays, andb_false_r.
      unfold arange, floats. rewrite !length_map, length_seq, Nat.eqb_refl.
      reflexivity. }
  rewrite bind_assign. use_step.
  cut_world.
  erewrite bind_lib_ok.
  2:{ destruct (Z.of_nat zl <? 0) eqn:Hlt; [lia|].
      rewrite clamp_inside by lia. reflexivity. }
  lib_step. erewrite bind_lib_ok by reflexivity.
  autorewrite with run. subst Post. cbv beta. settle.
  repeat (rewrite upd_same;
          cbn [fig_axes children set_fig_axes add_child empty_figure empty_axes
               value smin smax step description slider_observers app]).
  split; [reflexivity|]. split; [reflexivity|]. split; [reflexivity|].
  split. { intros s Hne. rewrite !upd_other by exact Hne. reflexivity. }
  split; [reflexivity|].
  split. { intros l Hne. rewrite !upd_other by exact Hne. reflexivity. }
  split; [reflexivity|].
  split. { intros a Hne. rewrite !upd_other by exact Hne. reflexivity. }
  split; [reflexivity|].
  split. { intros f Hne. rewrite !upd_other by exact Hne. reflexivity. }
  repeat split; reflexivity.
Qed.

(** What [update] does. *)
Lemma update_run (w : World) (v : Z) (line : nat) (image : ndarray) :
  g_line (globals w) = Some line ->
  g_image (globals w) = Some image ->
  match ndarray_getitem_row image v with
  | Raise e =>
      res (update v w) = Raise e /\ world (update v w) = w
  | Ok row =>
      lines (world (update v w)) line
      = {| line_x := line_x (lines w line); line_y := floats (data row);
           style := style (lines w line); markersize := markersize (lines w line);
           visible := visible (lines w line) |} /\
      (forall l, l <> line -> lines (world (update v w)) l = lines w l) /\
      axes (world (update v w)) = axes w /\
      globals (world (update v w)) = globals w /\
      match g_fig (globals w) with
      | None =>
          res (update v w) = Raise NameError /\
          figures (world (update v w)) = figures w
      | Some fig =>
          res (update v w) = Ok tt /\
          figures (world (update v w)) fig = bump_draw (figures w fig) /\
          (forall f, f <> fig -> figures (world (update v w)) f = figures w f)
      end
  end.
Proof.
  intros Hline Himage. unfold update. expose_lib.
  read_step. read_step.
  destruct (ndarray_getitem_row image v) as [row|e].
  - rewrite bind_pure_ok. lib_step.
    destruct (g_fig (globals w)) as [fig|] eqn:Hfig.
    + read_step. erewrite lib_ok by reflexivity.
      autorewrite with run. world_simpl. rewrite !upd_same.
      split; [reflexivity|].
      split. { intros l Hne. rewrite upd_other by exact Hne. reflexivity. }
      split; [reflexivity|]. split; [reflexivity|].
      split; [reflexivity|]. split; [reflexivity|].
      intros f Hne. rewrite upd_other by exact Hne. reflexivity.
    + erewrite bind_read_unbound by bound.
      autorewrite with run. world_simpl. rewrite !upd_same.
      split; [reflexivity|].
      split. { intros l Hne. rewrite upd_other by exact Hne. reflexivity. }
      repeat split; reflexivity.
  - rewrite bind_pure_raise. autorewrite with run. split; reflexivity.
Qed.

Lemma spectrum_slider_state (w : World) (sp : list (list Table)) :
  imported "widgets" w -> g_sp (globals w) = Some sp -> sp <> [] ->
  let o := spectrum_slider w in
  res o = Ok (next_slider w) /\
  sliders (world o) (next_slider w)
  = {| value := 0; smin := 0; smax := n_max sp; step := 1;
       description := "Spectrum:";
       slider_observers := [("value"%string, H_new_spec)] |} /\
  (forall s, s <> next_slider w -> sliders (world o) s = sliders w s) /\
  displayed (world o) = (displayed w ++ [ShowSlider (next_slider w)])%list /\
  globals (world o) = globals w /\ figures (world o) = figures w /\
  axes (world o) = axes w /\ lines (world o) = lines w /\
  checkboxes (world o) = checkboxes w /\
  next_checkbox (world o) = next_checkbox w.
Proof.
  unfold imported. intros Hwidgets Hsp Hne. cbv zeta.
  assert (Hn : 0 <= n_max sp).
  { unfold n_max. destruct sp; [congruence|]. simpl length. lia. }
  by_running.
  { unfold spectrum_slider. expose_lib. read_step. use_step.
    erewrite bind_lib_ok.
    2:{ destruct (n_max sp <? 0) eqn:Hlt; [lia|].
        rewrite clamp_inside by lia. reflexivity. }
    lib_step. lib_step. reflexivity. }
  world_simpl. rewrite !upd_same.
  cbn [value smin smax step description slider_observers app].
  split; [reflexivity|]. split; [reflexivity|].
  split. { intros s Hs. rewrite !upd_other by exact Hs. reflexivity. }
  repeat split; reflexivity.
Qed.

(** C5. The image-row slider made by the slider cell runs from 0 to [zl],
    the number of rows of the image: at its maximum the callback [update]
    asks for row [zl], one past the last, and raises [IndexError]; at any
    selectable value below the maximum the row index is in bounds and
    [update] returns.  The spectrum slider runs from 0 to [len(sp)-1], and
    every value it lets the user pick indexes [sp] in bounds. *)
Theorem slider_ranges (w : World) (image : ndarray) (zl xl : nat)
    (Hplt : imported "plt" w)
    (Hwidgets : imported "widgets" w)
    (Himage : g_image (globals w) = Some image)
    (Hshape : shape image = [zl; xl])
    (Hrows : (150 < zl)%nat) :
  (exists s,
     res (cell_slider w) = Ok s /\
     smin (sliders (world (cell_slider w)) s) = 0 /\
     smax (sliders (world (cell_slider w)) s) = Z.of_nat zl /\
     g_image (globals (world (cell_slider w))) = Some image /\
     g_line (globals (world (cell_slider w))) = Some (next_line w) /\
     g_fig (globals (world (cell_slider w))) = Some (next_fig w) /\
     (forall w' line,
        g_image (globals w') = Some image ->
        g_line (globals w') = Some line ->
        res (update (smax (sliders (world (cell_slider w)) s)) w')
        = Raise IndexError /\
        (forall v,
           selectable (sliders (world (cell_slider w)) s) v ->
           v < smax (sliders (world (cell_slider w)) s) ->
           0 <= v < Z.of_nat zl /\
           (forall fig, g_fig (globals w') = Some fig ->
                        res (update v w') = Ok tt)))) /\
  (forall w2 sp,
     imported "widgets" w2 ->
     g_sp (globals w2) = Some sp ->
     sp <> [] ->
     exists s2,
       res (spectrum_slider w2) = Ok s2 /\
       smin (sliders (world (spectrum_slider w2)) s2) = 0 /\
       smax (sliders (world (spectrum_slider w2)) s2)
       = Z.of_nat (length sp) - 1 /\
       g_sp (globals (world (spectrum_slider w2))) = Some sp /\
       (forall v,
          selectable (sliders (world (spectrum_slider w2)) s2) v ->
          is_ok (list_getitem sp v) = true)).
Proof.
  split.
  - destruct (cell_slider_state w image zl xl Hplt Hwidgets Himage Hshape Hrows)
      as [Hres [Hg [Hs _]]].
    cbv zeta in Hres, Hg, Hs.
    exists (next_slider w). rewrite Hs, Hg. cbn [smin smax].
    split; [exact Hres|]. split; [reflexivity|]. split; [reflexivity|].
    split; [exact Himage|]. split; [reflexivity|]. split; [reflexivity|].
    intros w' line Himage' Hline'. split.
    + pose proof (update_run w' (Z.of_nat zl) line image Hline' Himage') as Hu.
      destruct (getitem_row_plane image zl xl 0 Hshape) as [_ Hlast].
      rewrite Hlast in Hu. apply Hu.
    + intros v [[Hlo _] _] Hlt. cbn [smin] in Hlo.
      split; [lia|]. intros fig Hfig'.
      pose proof (update_run w' v line image Hline' Himage') as Hu.
      rewrite (getitem_row_inside image zl xl v Hshape) in Hu by lia.
      rewrite Hfig' in Hu. apply Hu.
  - intros w2 sp Hw2 Hsp Hne.
    destruct (spectrum_slider_state w2 sp Hw2 Hsp Hne)
      as [Hres [Hs [_ [_ [Hg _]]]]].
    cbv zeta in Hres, Hs, Hg.
    exists (next_slider w2). rewrite Hs, Hg. cbn [smin smax].
    split; [exact Hres|]. split; [reflexivity|]. split; [reflexivity|].
    split; [exact Hsp|].
    intros v [[Hlo Hhi] _]. cbn [smin smax] in Hlo, Hhi. unfold n_max in Hhi.
    apply list_getitem_inside. lia.
Qed.

(** *** Shapes of what is plotted *)

Lemma poisson_each_length (RNG : Type) (draw : R -> RNG -> Z * RNG)
    (lam : list R) (g : RNG) :
  length (fst (NLLS.poisson_each RNG draw lam g)) = length lam.
Proof.
  revert g. induction lam as [|l tl IH]; intros g; simpl; [reflexivity|].
  destruct (draw l g) as [k g1]. specialize (IH g1).
  destruct (NLLS.poisson_each RNG draw tl g1) as [ks g2]. simpl in *.
  rewrite IH. reflexivity.
Qed.

Lemma obs_flux_length (RNG : Type) (draw : R -> RNG -> Z * RNG) (g g' : RNG)
    (obs : list Z) :
  NLLS.obs_flux RNG draw g = (Ok obs, g') -> length obs = length NLLS.flux.
Proof.
  unfold NLLS.obs_flux, NLLS.np_random_poisson. intros H.
  destruct (existsb NLLS.negative NLLS.flux); [discriminate|].
  pose proof (poisson_each_length RNG draw NLLS.flux g) as Hlen.
  destruct (NLLS.poisson_each RNG draw NLLS.flux g) as [ks g2].
  inversion H; subst. exact Hlen.
Qed.

Lemma model_array_length (xs popt ys : list R) :
  NLLS.star NLLS.model_array xs popt = Ok ys -> length ys = length xs.
Proof.
  destruct popt as [|a [|b [|c [|d [|e [|e' tl]]]]]]; simpl; intros H;
    try discriminate.
  inversion H; subst. unfold NLLS.model_array. apply length_map.
Qed.

Lemma table_column_length (t : Table) (name : string) (col : list Q) :
  table_getitem t name = Ok col -> length col = length (rows t).
Proof.
  unfold table_getitem. destruct (index_of name (columns t)); intros H;
    inversion H; subst. apply length_map.
Qed.

Lemma never_calls_bind_when {A B : Type} (bad : Call -> bool) (P : A -> Prop)
    (m : M A) (k : A -> M B) :
  never_calls bad m ->
  (forall w a, res (m w) = Ok a -> P a) ->
  (forall a, P a -> never_calls bad (k a)) ->
  never_calls bad (bind m k).
Proof.
  intros Hm HP Hk w. unfold bind.
  destruct (res (m w)) as [a|e] eqn:Hres; simpl.
  - rewrite existsb_app, Hm, (Hk a (HP w a Hres)). reflexivity.
  - apply Hm.
Qed.

Lemma plot_arrays_accepted (ax : nat) (xs ys : list Q) (fmt : string)
    (c : option string) (ms : option Q) :
  length xs = length ys ->
  never_calls plot_refused (Axes_plot ax (floats xs) (floats ys) fmt c ms).
Proof.
  intros Hlen w. unfold Axes_plot, lib, op.
  rewrite no_None_in_floats, andb_false_r.
  unfold floats. rewrite !length_map, Hlen, Nat.eqb_refl. reflexivity.
Qed.

Lemma plot_samples_accepted (ax : nat) (ys : list Q) :
  never_calls plot_refused (Axes_plot1 ax ys).
Proof.
  intros w. unfold Axes_plot1, Axes_plot, lib, op.
  rewrite no_None_in_arrays, andb_false_r.
  unfold arange, floats. rewrite !length_map, length_seq, Nat.eqb_refl.
  reflexivity.
Qed.

(** A step other than [ax.plot]. *)
Ltac quiet_leaf :=
  unfold getitem, plt_figure, plt_ion, plt_show, Figure_add_subplot,
    Axes_set_xlabel, Axes_set_ylabel, Line2D_set_visible, display,
    widgets_IntSlider, IntSlider_observe, widgets_Checkbox, Checkbox_observe,
    power10, read, use, lib_pure, lib;
  first [ apply never_calls_op; intros; reflexivity | intros ?; reflexivity ].

Lemma cell_spectrum_plot_accepted : never_calls plot_refused cell_spectrum.
Proof.
  unfold cell_spectrum.
  do 5 (apply never_calls_bind; [quiet_leaf | intros]).
  apply never_calls_bind; [quiet_leaf | intros tab].
  apply (never_calls_bind_when _ (fun spec => length spec = length (rows tab)));
    [quiet_leaf | intros w spec H; apply (table_column_length tab "flux"), H
    | intros spec Hspec].
  apply (never_calls_bind_when _ (fun col => length col = length (rows tab)));
    [quiet_leaf | intros w col H; apply (table_column_length tab "loglam"), H
    | intros loglam Hloglam].
  apply (never_calls_bind_when _ (fun wave => length wave = length loglam));
    [quiet_leaf | intros w wave H; inversion H; apply length_map
    | intros wave Hwave].
  do 4 (apply never_calls_bind; [quiet_leaf | intros]).
  apply never_calls_bind; [apply plot_arrays_accepted; congruence | intros].
  apply never_calls_bind; [quiet_leaf | intros]. quiet_leaf.
Qed.

Lemma cell_slider_plot_accepted : never_calls plot_refused cell_slider.
Proof.
  unfold cell_slider.
  do 8 (apply never_calls_bind; [quiet_leaf | intros]).
  apply never_calls_bind; [apply plot_samples_accepted | intros].
  repeat (apply never_calls_bind; [quiet_leaf | intros]). quiet_leaf.
Qed.

Lemma res_bind_inv {A B : Type} (m : M A) (k : A -> M B) (w : World) (b : B) :
  res (bind m k w) = Ok b ->
  exists a, res (m w) = Ok a /\ res (k a (world (m w))) = Ok b.
Proof.
  unfold bind. destruct (res (m w)) as [a|e]; simpl; intros H.
  - exists a. split; [reflexivity | exact H].
  - discriminate.
Qed.

Lemma first_spectrum_lengths (w : World) (ws : list Q * list Q) :
  res (first_spectrum w) = Ok ws -> length (fst ws) = length (snd ws).
Proof.
  unfold first_spectrum. intros H.
  apply res_bind_inv in H. destruct H as [sp [_ H]].
  apply res_bind_inv in H. destruct H as [pf [_ H]].
  apply res_bind_inv in H. destruct H as [ext [_ H]].
  apply res_bind_inv in H. destruct H as [hdu [_ H]].
  apply res_bind_inv in H. destruct H as [tab [_ H]].
  apply res_bind_inv in H. destruct H as [spec [Hspec H]].
  apply res_bind_inv in H. destruct H as [loglam [Hlog H]].
  apply res_bind_inv in H. destruct H as [wave [Hwave H]].
  inversion H; subst; clear H. inversion Hwave; subst; clear Hwave.
  simpl in Hspec, Hlog. simpl fst. simpl snd.
  rewrite length_map, (table_column_length _ _ _ Hspec).
  apply (table_column_length _ _ _ Hlog).
Qed.

Lemma first_spectrum_quiet : never_calls plot_refused first_spectrum.
Proof.
  unfold first_spectrum.
  repeat (apply never_calls_bind; [quiet_leaf | intros]). quiet_leaf.
Qed.

Lemma spectrum_slider_quiet : never_calls plot_refused spectrum_slider.
Proof.
  unfold spectrum_slider.
  repeat (apply never_calls_bind; [quiet_leaf | intros]). quiet_leaf.
Qed.

Lemma spectrum_figure_plot_accepted : never_calls plot_refused spectrum_figure.
Proof.
  unfold spectrum_figure.
  apply never_calls_bind; [quiet_leaf | intros].
  apply (never_calls_bind_when _ (fun ws => length (fst ws) = length (snd ws)));
    [ apply first_spectrum_quiet
    | intros w ws H; apply (first_spectrum_lengths w ws H)
    | intros ws Hws ].
  do 4 (apply never_calls_bind; [quiet_leaf | intros]).
  apply never_calls_bind; [apply plot_arrays_accepted; exact Hws | intros].
  repeat (apply never_calls_bind; [quiet_leaf | intros]). quiet_leaf.
Qed.

Lemma cell_spectrum_slider_plot_accepted :
  never_calls plot_refused cell_spectrum_slider.
Proof.
  unfold cell_spectrum_slider.
  apply never_calls_bind; [apply spectrum_figure_plot_accepted | intros].
  apply spectrum_slider_quiet.
Qed.

Lemma cell_spectrum_lines_plot_accepted :
  never_calls plot_refused cell_spectrum_lines.
Proof.
  unfold cell_spectrum_lines.
  apply never_calls_bind; [apply spectrum_figure_plot_accepted | intros ax].
  apply never_calls_bind; [apply plot_arrays_accepted; reflexivity | intros].
  do 2 (apply never_calls_bind; [quiet_leaf | intros]).
  apply never_calls_bind; [apply spectrum_slider_quiet | intros].
  repeat (apply never_calls_bind; [quiet_leaf | intros]). quiet_leaf.
Qed.

(** *** The cells that show the image *)

Lemma new_display_state (w : World) (image : ndarray) :
  imported "plt" w -> g_image (globals w) = Some image ->
  let ok := image_shape_ok (shape image) in
  let o := new_display w in
  res o = (if ok then Ok tt else Raise TypeError) /\
  globals (world o) = set_p (next_ax w) (set_fig (next_fig w) (globals w)) /\
  figures (world o) (next_fig w) = set_fig_axes [next_ax w] empty_figure /\
  (forall f, f <> next_fig w -> figures (world o) f = figures w f) /\
  axes (world o) (next_ax w)
  = (if ok
     then add_child (AxesImage image (-10 # 1) (20 # 1)) empty_axes
     else empty_axes) /\
  (forall a, a <> next_ax w -> axes (world o) a = axes w a) /\
  interactive (world o) = true /\
  capturing (world o) = capturing w /\
  out_widget (world o) = out_widget w /\
  displayed (world o) = displayed w /\
  next_line (world o) = next_line w.
Proof.
  unfold imported. intros Hplt Himage. cbv zeta.
  destruct (image_shape_ok (shape image)) eqn:E.
  - by_running.
    { unfold new_display. expose_lib.
      use_step. lib_step. rewrite bind_assign. use_step. lib_step.
      unfold new_axes. lib_step. rewrite bind_assign. read_step.
      erewrite lib_ok.
      2:{ rewrite E. reflexivity. }
      reflexivity. }
    world_simpl.
    repeat (rewrite upd_same;
            cbn [fig_axes children set_fig_axes add_child empty_figure
                 empty_axes app]).
    split; [reflexivity|]. split; [reflexivity|]. split; [reflexivity|].
    split. { intros f Hf. rewrite !upd_other by exact Hf. reflexivity. }
    split; [reflexivity|].
    split. { intros a Ha. rewrite !upd_other by exact Ha. reflexivity. }
    repeat split; reflexivity.
  - by_running.
    { unfold new_display. expose_lib.
      use_step. lib_step. rewrite bind_assign. use_step. lib_step.
      unfold new_axes. lib_step. rewrite bind_assign. read_step.
      erewrite lib_raise.
      2:{ rewrite E. reflexivity. }
      reflexivity. }
    world_simpl.
    repeat (rewrite upd_same;
            cbn [fig_axes children set_fig_axes add_child empty_figure
                 empty_axes app]).
    split; [reflexivity|]. split; [reflexivity|]. split; [reflexivity|].
    split. { intros f Hf. rewrite !upd_other by exact Hf. reflexivity. }
    split; [reflexivity|].
    split. { intros a Ha. rewrite !upd_other by exact Ha. reflexivity. }
    repeat split; reflexivity.
Qed.

Lemma cell_display_state (w : World) (image : ndarray) :
  imported "plt" w -> g_image (globals w) = Some image ->
  let ok := image_shape_ok (shape image) in
  res (cell_display w) = (if ok then Ok tt else Raise TypeError) /\
  g_p (globals (world (cell_display w))) = Some (next_ax w) /\
  axes (world (cell_display w)) (next_ax w)
  = (if ok
     then add_child (AxesImage image (-10 # 1) (20 # 1)) empty_axes
     else empty_axes).
Proof.
  intros Hplt Himage. cbv zeta.
  destruct (new_display_state w image Hplt Himage)
    as [Hres [Hg [_ [_ [Ha _]]]]].
  cbv zeta in Hres, Ha. unfold cell_display.
  destruct (image_shape_ok (shape image)).
  - rewrite (bind_ok _ _ _ _ Hres).
    set (W := world (new_display w)) in *. clearbody W.
    unfold imported in Hplt. unfold plt_show.
    erewrite bind_use by (rewrite Hg; bound).
    erewrite lib_ok by reflexivity.
    autorewrite with run. world_simpl. rewrite Hg.
    split; [reflexivity|]. split; [reflexivity | exact Ha].
  - rewrite (bind_failed _ _ _ _ Hres). world_simpl. rewrite Hg.
    split; [reflexivity|]. split; [reflexivity | exact Ha].
Qed.

Lemma image_shape_ok_shapes (dims : list nat) :
  image_shape_ok dims = true <->
  (exists m n, dims = [m; n]) \/
  (exists m n c, dims = [m; n; c] /\ (c = 1 \/ c = 3 \/ c = 4)%nat).
Proof.
  split.
  - destruct dims as [|m [|n [|c [|d tl]]]]; simpl; intros H; try discriminate.
    + left. exists m, n. reflexivity.
    + right. exists m, n, c. split; [reflexivity|].
      apply orb_true_iff in H. destruct H as [H|H].
      * apply orb_true_iff in H. destruct H as [H|H];
          apply Nat.eqb_eq in H; auto.
      * apply Nat.eqb_eq in H. auto.
  - intros [[m [n ->]] | [m [n [c [-> Hc]]]]]; [reflexivity|].
    destruct Hc as [-> | [-> | ->]]; reflexivity.
Qed.

(** C8 (amended).  What is plotted as x against y has matching lengths.
    In the fitting notebook [wave], [flux] and [obs_flux] all have length
    100, and the model curves drawn against [wave] have the length of
    [wave].  In the spectrum notebook the two columns [tab['flux']] and
    [tab['loglam']] of one table have equal length, so does
    [10**tab['loglam']], and the [ax.plot] calls of the spectrum and slider
    cells are never refused for a shape mismatch.  The array handed to
    [imshow] is the array bound to [image], as it is.  The display cell
    does not check its shape: it returns exactly when [imshow] accepts the
    array -- a plane [(M, N)] or a plane of one, three or four values
    [(M, N, 1)], [(M, N, 3)], [(M, N, 4)] -- and raises [TypeError]
    otherwise.  The image has two axes whenever the slider cell, with its
    [zl,xl = image.shape], returns. *)
Theorem plotted_arrays_have_matching_shapes :
  length NLLS.wave = 100%nat /\
  length NLLS.flux = 100%nat /\
  (forall RNG draw g g' obs,
     NLLS.obs_flux RNG draw g = (Ok obs, g') -> length obs = 100%nat) /\
  (forall popt ys,
     NLLS.star NLLS.model_array NLLS.wave popt = Ok ys ->
     length ys = length NLLS.wave) /\
  (forall amp mean sd slope icpt,
     length (map (NLLS.models.add (NLLS.models.Gaussian1D amp mean sd)
                                  (NLLS.models.Linear1D slope icpt))
                 NLLS.wave)
     = length NLLS.wave) /\
  (forall tab spec loglam e,
     table_getitem tab "flux" = Ok spec ->
     table_getitem tab "loglam" = Ok loglam ->
     length (map (pow10 e) loglam) = length spec) /\
  never_calls plot_refused cell_spectrum /\
  never_calls plot_refused cell_spectrum_slider /\
  never_calls plot_refused cell_spectrum_lines /\
  never_calls plot_refused cell_slider /\
  (forall w image,
     imported "plt" w -> g_image (globals w) = Some image ->
     res (cell_display w)
     = (if image_shape_ok (shape image) then Ok tt else Raise TypeError) /\
     (image_shape_ok (shape image) = true ->
      children (axes (world (cell_display w)) (next_ax w))
      = [AxesImage image (-10 # 1) (20 # 1)])) /\
  (forall dims,
     image_shape_ok dims = true <->
     (exists m n, dims = [m; n]) \/
     (exists m n c, dims = [m; n; c] /\ (c = 1 \/ c = 3 \/ c = 4)%nat)) /\
  (forall w image s,
     g_image (globals w) = Some image ->
     res (cell_slider w) = Ok s -> ndim image = 2%nat).
Proof.
  assert (Hwave : length NLLS.wave = 100%nat)
    by apply NLLSFacts.linspace_length.
  assert (Hflux : length NLLS.flux = 100%nat).
  { unfold NLLS.flux. rewrite length_map. exact Hwave. }
  split; [exact Hwave|]. split; [exact Hflux|].
  split.
  { intros RNG draw g g' obs H. rewrite <- Hflux.
    apply (obs_flux_length RNG draw g g' obs H). }
  split; [intros popt ys; apply model_array_length|].
  split; [intros; apply length_map|].
  split.
  { intros tab spec loglam e Hspec Hlog. rewrite length_map.
    rewrite (table_column_length _ _ _ Hspec).
    apply (table_column_length _ _ _ Hlog). }
  split; [exact cell_spectrum_plot_accepted|].
  split; [exact cell_spectrum_slider_plot_accepted|].
  split; [exact cell_spectrum_lines_plot_accepted|].
  split; [exact cell_slider_plot_accepted|].
  split.
  { intros w image Hplt Himage.
    destruct (cell_display_state w image Hplt Himage) as [Hres [_ Ha]].
    cbv zeta in Hres, Ha. split; [exact Hres|].
    intros Hok. rewrite Ha, Hok. reflexivity. }
  split; [exact image_shape_ok_shapes|].
  intros w image s Himage Hres.
  destruct (Nat.eq_dec (length (shape image)) 2) as [H2|H2]; [exact H2|].
  destruct (cell_slider_without_plane w image Himage H2) as [Hraise _].
  rewrite Hraise in Hres. discriminate Hres.
Qed.

(** C8, as stated, fails for [imshow]: in a session where SkyView returns
    a plane of colour triples, the display cell shows it and returns, and
    the array has three axes. *)
Lemma imshow_accepts_colour_image : ~ imshow_gets_plane.
Proof.
  intros H.
  assert (Himage : g_image (globals (session_with_image colour_image))
                   = Some colour_image) by (vm_compute; reflexivity).
  assert (Hres : res (cell_display (session_with_image colour_image)) = Ok tt)
    by (vm_compute; reflexivity).
  specialize (H (session_with_image colour_image) colour_image Himage Hres).
  discriminate H.
Qed.

(** *** The properties on the sample sessions *)

Lemma slider_ranges_witness :
  exists s,
    res (cell_slider (session_with_image tall_image)) = Ok s /\
    smax (sliders (world (cell_slider (session_with_image tall_image))) s)
    = Z.of_nat 151.
Proof.
  assert (Hplt : imported "plt" (session_with_image tall_image))
    by (vm_compute; reflexivity).
  assert (Hwidgets : imported "widgets" (session_with_image tall_image))
    by (vm_compute; reflexivity).
  assert (Himage : g_image (globals (session_with_image tall_image))
                   = Some tall_image) by (vm_compute; reflexivity).
  assert (Hshape : shape tall_image = [151; 1]%nat) by reflexivity.
  assert (Hrows : (150 < 151)%nat) by lia.
  destruct (slider_ranges (session_with_image tall_image) tall_image 151 1
              Hplt Hwidgets Himage Hshape Hrows)
    as [[s [Hres [_ [Hmax _]]]] _].
  exists s. split; [exact Hres | exact Hmax].
Defined.

Lemma marked_pixel_lookup_witness :
  res (on_key_press_body (key_m_at (1 # 2) (3 # 2))
         (session_with_output small_image))
  = (if index_ok (trunc (3 # 2)) 2 && index_ok (trunc (1 # 2)) 2
     then Ok tt else Raise IndexError).
Proof.
  assert (Hp : g_p (globals (session_with_output small_image)) = Some 0%nat)
    by (vm_compute; reflexivity).
  assert (Hfig : g_fig (globals (session_with_output small_image)) = Some 0%nat)
    by (vm_compute; reflexivity).
  assert (Himage : g_image (globals (session_with_output small_image))
                   = Some small_image) by (vm_compute; reflexivity).
  assert (Hshape : shape small_image = [2; 2]%nat) by reflexivity.
  assert (Hdata : length (data small_image) = (2 * 2)%nat) by reflexivity.
  destruct (marked_pixel_lookup (session_with_output small_image)
              (key_m_at (1 # 2) (3 # 2)) 0 0 small_image 2 2
              eq_refl Hp Hfig Himage Hshape Hdata)
    as [Hin _].
  destruct (Hin (1 # 2)%Q (3 # 2)%Q eq_refl) as [_ [_ [Hres _]]].
  exact Hres.
Defined.

Lemma key_press_marks_without_redraw_witness :
  marked (session_with_output small_image) 0 (1 # 2) (3 # 2)
         (world (on_key_press (key_m_at (1 # 2) (3 # 2))
                   (session_with_output small_image))).
Proof.
  assert (Hp : g_p (globals (session_with_output small_image)) = Some 0%nat)
    by (vm_compute; reflexivity).
  assert (Hfig : g_fig (globals (session_with_output small_image)) = Some 0%nat)
    by (vm_compute; reflexivity).
  destruct (key_press_marks_without_redraw (session_with_output small_image)
              sample_gui (key_m_at (1 # 2) (3 # 2)) 0 0 eq_refl Hp Hfig)
    as [Hmark _].
  destruct (Hmark (1 # 2)%Q (3 # 2)%Q eq_refl) as [H _].
  exact H.
Defined.

(** *** The cells and callbacks run on the sample sessions *)

Example marker_inside_prints_pixel :
  printed (world (on_key_press_body (key_m_at (1 # 2) (3 # 2))
                    (session_with_output small_image)))
  = [Text "[%.1f, %.1f] = %.4f" [1 # 2; 3 # 2; 3]%Q].
Proof. vm_compute. reflexivity. Qed.

Example marker_past_the_rows_raises :
  res (on_key_press_body (key_m_at (1 # 2) (5 # 2))
         (session_with_output small_image))
  = Raise IndexError.
Proof. vm_compute. reflexivity. Qed.

Example decorated_callback_shows_traceback :
  out_widget (world (on_key_press_captured key_m_outside
                       (session_with_output small_image)))
  = [Traceback ValueError].
Proof. vm_compute. reflexivity. Qed.

Example display_before_the_image_is_loaded :
  res (cell_display (world (cell_imports (fresh_kernel (sample_env small_image)))))
  = Raise NameError.
Proof. vm_compute. reflexivity. Qed.

Example display_before_the_imports :
  res (cell_display (fresh_kernel (sample_env small_image))) = Raise NameError.
Proof. vm_compute. reflexivity. Qed.

Example slider_cell_on_colour_image :
  res (cell_slider (session_with_image colour_image)) = Raise ValueError.
Proof. vm_compute. reflexivity. Qed.

Example update_at_slider_maximum :
  res (update 151 (world (cell_slider (session_with_image tall_image))))
  = Raise IndexError.
Proof. vm_compute. reflexivity. Qed.

Example update_below_slider_maximum :
  res (update 150 (world (cell_slider (session_with_image tall_image))))
  = Ok tt.
Proof. vm_compute. reflexivity. Qed.

Example new_spec_last_spectrum :
  res (new_spec 1 (session_with_spectra small_image)) = Ok tt /\
  res (new_spec 2 (session_with_spectra small_image)) = Raise IndexError.
Proof. split; vm_compute; reflexivity. Qed.

(** *** More on the callbacks *)

Lemma capture_of_nothing (w : World) :
  capturing w = false ->
  world (capture (ret tt) w) = w.
Proof. destruct w. simpl. intros ->. reflexivity. Qed.

(** X6. A key other than [m] (or a key event without a key) does nothing:
    the two undecorated callbacks return at once, with the kernel's state
    untouched, no name looked up and no library call made; the decorated
    one makes no step either and, outside of a capture, leaves the state
    as it was. *)
Theorem other_keys_do_nothing (w : World) (self : GUI_inter) (ev : KeyEvent)
    (Hkey : key_is ev "m" = false) :
  on_key_press ev w = {| res := Ok tt; world := w; calls := [] |} /\
  GUI_inter_on_key_press self ev w = {| res := Ok tt; world := w; calls := [] |} /\
  res (on_key_press_captured ev w) = Ok tt /\
  calls (on_key_press_captured ev w) = [] /\
  (capturing w = false -> world (on_key_press_captured ev w) = w).
Proof.
  unfold on_key_press, GUI_inter_on_key_press, on_key_press_captured,
    on_key_press_body.
  rewrite Hkey.
  split; [reflexivity|]. split; [reflexivity|].
  split; [reflexivity|]. split; [reflexivity|].
  apply capture_of_nothing.
Qed.

Lemma other_keys_do_nothing_witness :
  on_key_press {| key := Some "x"%string; position := Some (1, 1)%Q |}
               (fresh_kernel (sample_env small_image))
  = {| res := Ok tt; world := fresh_kernel (sample_env small_image);
       calls := [] |}.
Proof.
  destruct (other_keys_do_nothing (fresh_kernel (sample_env small_image))
              sample_gui
              {| key := Some "x"%string; position := Some (1, 1)%Q |} eq_refl)
    as [H _].
  exact H.
Defined.




(** X9. [new_spec], with [sp], [ext] and [line] bound, fails before
    touching anything or replaces the line.  When reading the selected
    spectrum fails (an index out of range raises [IndexError], a missing
    column [KeyError]) the callback raises that error and the kernel's
    state is as it was; otherwise it replaces both the x and the y data
    of the line bound to [line], by as many wavelengths as fluxes, keeps
    every other line, and, with [fig] bound, draws that figure once and
    returns. *)
Theorem new_spec_effect (w : World) (v : Z) (sp : list (list Table)) (ext : Z)
    (line fig : nat)
    (Hsp : g_sp (globals w) = Some sp)
    (Hext : g_ext (globals w) = Some ext)
    (Hline : g_line (globals w) = Some line)
    (Hfig : g_fig (globals w) = Some fig) :
  match selected_spectrum (env w) sp ext v with
  | Raise e =>
      res (new_spec v w) = Raise e /\ world (new_spec v w) = w
  | Ok ws =>
      res (new_spec v w) = Ok tt /\
      length (fst ws) = length (snd ws) /\
      line_x (lines (world (new_spec v w)) line) = floats (fst ws) /\
      line_y (lines (world (new_spec v w)) line) = floats (snd ws) /\
      (forall l, l <> line -> lines (world (new_spec v w)) l = lines w l) /\
      figures (world (new_spec v w)) fig = bump_draw (figures w fig) /\
      (forall f, f <> fig -> figures (world (new_spec v w)) f = figures w f) /\
      globals (world (new_spec v w)) = globals w
  end.
Proof.
  unfold selected_spectrum, new_spec, and_then. expose_lib. read_step.
  destruct (list_getitem sp v) as [pf|e];
    [rewrite bind_pure_ok | rewrite bind_pure_raise; split; reflexivity].
  read_step.
  destruct (list_getitem pf ext) as [tab|e];
    [rewrite !bind_pure_ok | rewrite bind_pure_raise; split; reflexivity].
  destruct (table_getitem tab "flux") as [spec|e] eqn:Hspec;
    [rewrite bind_pure_ok | rewrite bind_pure_raise; split; reflexivity].
  destruct (table_getitem tab "loglam") as [loglam|e] eqn:Hlog;
    [rewrite bind_pure_ok | rewrite bind_pure_raise; split; reflexivity].
  lib_step. read_step. lib_step. lib_step. read_step.
  erewrite lib_ok by reflexivity.
  autorewrite with run. world_simpl. cbn [fst snd].
  split; [reflexivity|].
  split.
  { rewrite length_map, (table_column_length _ _ _ Hspec).
    apply (table_column_length _ _ _ Hlog). }
  split; [rewrite !upd_same; reflexivity|].
  split; [rewrite !upd_same; reflexivity|].
  split; [intros l Hl; rewrite !upd_other by exact Hl; reflexivity|].
  split; [rewrite upd_same; reflexivity|].
  split; [intros f Hf; rewrite upd_other by exact Hf; reflexivity|].
  reflexivity.
Qed.

Lemma new_spec_effect_witness :
  res (new_spec 2 (session_with_spectra small_image)) = Raise IndexError.
Proof.
  assert (Hsp : g_sp (globals (session_with_spectra small_image))
                = Some [[spectrum_table; spectrum_table];
                        [spectrum_table; spectrum_table]])
    by (vm_compute; reflexivity).
  assert (Hext : g_ext (globals (session_with_spectra small_image)) = Some 1)
    by (vm_compute; reflexivity).
  assert (Hline : g_line (globals (session_with_spectra small_image))
                  = Some 0%nat) by (vm_compute; reflexivity).
  assert (Hfig : g_fig (globals (session_with_spectra small_image))
                 = Some 1%nat) by (vm_compute; reflexivity).
  pose proof (new_spec_effect (session_with_spectra small_image) 2 _ 1 0 1
                Hsp Hext Hline Hfig) as H.
  assert (Hsel : selected_spectrum (env (session_with_spectra small_image))
                   [[spectrum_table; spectrum_table];
                    [spectrum_table; spectrum_table]] 1 2
                 = Raise IndexError) by (vm_compute; reflexivity).
  rewrite Hsel in H. exact (proj1 H).
Defined.

(** *** More on the cells *)

(** X10. The load cell, with [SkyView] and [u] imported, sets [ext] to 0
    whether or not it succeeds.  It binds [image] to HDU 0 of the first
    file SkyView returns; when the service raises, or returns no file or
    an empty file ([IndexError]), the cell raises that error and [image]
    is as it was, unbound if it was unbound.  It draws nothing. *)
Theorem cell_load_image_effect (w : World)
    (Hsky : imported "SkyView" w) (Hu : imported "u" w) :
  g_ext (globals (world (cell_load_image w))) = Some 0 /\
  figure_state (world (cell_load_image w)) = figure_state w /\
  match and_then (skyview_get_images (env w)) first_image with
  | Ok img =>
      res (cell_load_image w) = Ok tt /\
      g_image (globals (world (cell_load_image w))) = Some img
  | Raise e =>
      res (cell_load_image w) = Raise e /\
      g_image (globals (world (cell_load_image w))) = g_image (globals w)
  end.
Proof.
  unfold imported in *.
  unfold cell_load_image, first_image, and_then. expose_lib.
  rewrite bind_assign. use_step. use_step.
  destruct (skyview_get_images (env w)) as [pflist|e] eqn:Hs.
  - erewrite bind_lib_ok.
    2:{ world_simpl. rewrite Hs. reflexivity. }
    destruct (list_getitem pflist 0) as [pf|e];
      [rewrite bind_pure_ok; read_step | rewrite bind_pure_raise];
      [|autorewrite with run; world_simpl; repeat split].
    destruct (list_getitem pf 0) as [img|e];
      [rewrite bind_pure_ok | rewrite bind_pure_raise];
      autorewrite with run; world_simpl; repeat split.
  - erewrite bind_lib_raise.
    2:{ world_simpl. rewrite Hs. reflexivity. }
    autorewrite with run. world_simpl. repeat split.
Qed.

Lemma cell_load_image_effect_witness :
  g_ext (globals (world (cell_load_image
                           (world (cell_imports
                                     (fresh_kernel (sample_env small_image)))))))
  = Some 0.
Proof.
  assert (Hsky : imported "SkyView"
                   (world (cell_imports (fresh_kernel (sample_env small_image)))))
    by (vm_compute; reflexivity).
  assert (Hu : imported "u"
                 (world (cell_imports (fresh_kernel (sample_env small_image)))))
    by (vm_compute; reflexivity).
  exact (proj1 (cell_load_image_effect _ Hsky Hu)).
Defined.



(** *** Where the decorated callback prints *)

Lemma keeps_when_bind {X A B : Type} (I : World -> Prop) (proj : World -> X)
    (m : M A) (k : A -> M B) :
  keeps_when I proj m -> (forall a, keeps_when I proj (k a)) ->
  keeps_when I proj (bind m k).
Proof.
  intros Hm Hk w Hw. destruct (Hm w Hw) as [Hp HI]. unfold bind.
  destruct (res (m w)) as [a|e]; simpl.
  - destruct (Hk a _ HI) as [Hp' HI']. split; [rewrite Hp'; exact Hp | exact HI'].
  - split; assumption.
Qed.

Lemma keeps_when_op {X A : Type} (I : World -> Prop) (proj : World -> X)
    (o : Origin) (name : string) (f : World -> result A * World) :
  (forall w, I w -> proj (snd (f w)) = proj w /\ I (snd (f w))) ->
  keeps_when I proj (op o name f).
Proof. intros H w Hw. apply (H w Hw). Qed.

Lemma keeps_when_ret {X A : Type} (I : World -> Prop) (proj : World -> X) (a : A) :
  keeps_when I proj (ret a).
Proof. intros w Hw. split; [reflexivity | exact Hw]. Qed.

Lemma on_key_press_body_keeps_capturing ev :
  keeps capturing (on_key_press_body ev).
Proof.
  unfold on_key_press_body. destruct (key_is ev "m").
  - keeps_all.
  - intros w. reflexivity.
Qed.

Lemma on_key_press_body_keeps_stdout (ev : KeyEvent) :
  keeps_when (fun w => capturing w = true) stdout (on_key_press_body ev).
Proof.
  unfold on_key_press_body. destruct (key_is ev "m"); [|apply keeps_when_ret].
  expose_lib. unfold print, read, use, lib_pure, lib.
  repeat (apply keeps_when_bind; [|intros]);
    first [ apply keeps_when_ret
          | apply keeps_when_op; intros w Hw; simpl; rewrite ?Hw;
            case_matches; simpl; split; first [reflexivity | exact Hw] ].
Qed.

(** X12. What the decorated callback prints goes to the Output widget and
    never to the cell's output: whatever the event and whatever names are
    bound, [stdout] is as it was and the capture is over when the
    callback returns.  On a press of [m] inside a two-dimensional image,
    with [p], [fig] and [image] bound and at an index that numpy accepts,
    the widget gains exactly the line with the position and the pixel. *)
Theorem decorated_callback_prints_to_widget
    (w : World) (ev : KeyEvent) (x y : Q) (p fig : nat) (image : ndarray)
    (zl xl : nat)
    (Hkey : key ev = Some "m"%string)
    (Hpos : position ev = Some (x, y))
    (Hp : g_p (globals w) = Some p)
    (Hfig : g_fig (globals w) = Some fig)
    (Himage : g_image (globals w) = Some image)
    (Hshape : shape image = [zl; xl])
    (Hdata : length (data image) = (zl * xl)%nat)
    (Hin : index_ok (trunc y) zl && index_ok (trunc x) xl = true) :
  (forall ev' w',
     stdout (world (on_key_press_captured ev' w')) = stdout w' /\
     capturing (world (on_key_press_captured ev' w')) = false) /\
  out_widget (world (on_key_press_captured ev w))
  = (out_widget w
     ++ [Text "[%.1f, %.1f] = %.4f"
           [x; y;
            nth (wrap (trunc y) zl * xl + wrap (trunc x) xl) (data image) 0%Q]])%list.
Proof.
  split.
  - intros ev' w'. unfold on_key_press_captured, capture.
    set (wc := with_output true (stdout w') (out_widget w') (displayed w') w').
    destruct (on_key_press_body_keeps_stdout ev' wc eq_refl) as [Hso _].
    destruct (res (on_key_press_body ev' wc));
      [|destruct (in_kernel _)]; world_simpl; split; auto.
  - set (wc := with_output true (stdout w) (out_widget w) (displayed w) w).
    destruct (capture_outcome (on_key_press_body ev) w
                (on_key_press_body_keeps_env ev)) as [_ [_ Hout]].
    fold wc in Hout. unfold on_key_press_captured. rewrite Hout.
    destruct (on_key_press_body_inside wc ev x y p fig image zl xl
                Hkey Hpos Hp Hfig Himage Hshape Hdata)
      as [Hres Hprint].
    rewrite Hin in Hres, Hprint. rewrite Hres, app_nil_r.
    pose proof (on_key_press_body_keeps_capturing ev wc) as Hcap.
    unfold printed in Hprint. rewrite Hcap in Hprint.
    exact Hprint.
Qed.

Lemma decorated_callback_prints_to_widget_witness :
  out_widget (world (on_key_press_captured (key_m_at (1 # 2) (3 # 2))
                       (session_with_output small_image)))
  = (out_widget (session_with_output small_image)
     ++ [Text "[%.1f, %.1f] = %.4f"
           [1 # 2; 3 # 2;
            nth (wrap (trunc (3 # 2)) 2 * 2 + wrap (trunc (1 # 2)) 2)
                (data small_image) 0]%Q])%list.
Proof.
  assert (Hp : g_p (globals (session_with_output small_image)) = Some 0%nat)
    by (vm_compute; reflexivity).
  assert (Hfig : g_fig (globals (session_with_output small_image)) = Some 0%nat)
    by (vm_compute; reflexivity).
  assert (Himage : g_image (globals (session_with_output small_image))
                   = Some small_image) by (vm_compute; reflexivity).
  assert (Hshape : shape small_image = [2; 2]%nat) by reflexivity.
  assert (Hdata : length (data small_image) = (2 * 2)%nat) by reflexivity.
  assert (Hin : index_ok (trunc (3 # 2)) 2 && index_ok (trunc (1 # 2)) 2 = true)
    by (vm_compute; reflexivity).
  destruct (decorated_callback_prints_to_widget
              (session_with_output small_image) (key_m_at (1 # 2) (3 # 2))
              (1 # 2) (3 # 2) 0 0 small_image 2 2
              eq_refl eq_refl Hp Hfig Himage Hshape Hdata Hin)
    as [_ Hout].
  exact Hout.
Defined.

(** *** Which axes a marker goes to *)

Lemma marked_axes (w w' : World) (ax : nat) (x y : Q) :
  marked w ax x y w' ->
  axes w' = upd (axes w) ax (add_child (LineArtist (next_line w)) (axes w ax)).
Proof.
  unfold marked, figure_state. intros H.
  apply (f_equal (fun t => fst (fst (fst (fst (fst (fst t))))))) in H.
  exact H.
Qed.

(** X13. [on_key_press] marks the axes that the global [p] names when the
    key is pressed, not the axes it was connected for: once the slider
    cell has rebound [p], a press of [m] adds its marker to the slider's
    axes, next to the plotted row, and leaves every other axes as it was
    before that cell.  [GUI_inter.on_key_press] marks [self.p] and no
    other axes, whatever [p] is bound to. *)
Theorem marker_follows_global_p
    (w : World) (self : GUI_inter) (ev : KeyEvent) (x y : Q)
    (image : ndarray) (zl xl : nat)
    (Hkey : key ev = Some "m"%string)
    (Hpos : position ev = Some (x, y))
    (Hplt : imported "plt" w) (Hwidgets : imported "widgets" w)
    (Himage : g_image (globals w) = Some image)
    (Hshape : shape image = [zl; xl])
    (Hrows : (150 < zl)%nat) :
  g_p (globals (world (cell_slider w))) = Some (next_ax w) /\
  (forall ax, ax <> next_ax w ->
     axes (world (on_key_press ev (world (cell_slider w)))) ax = axes w ax) /\
  children (axes (world (on_key_press ev (world (cell_slider w)))) (next_ax w))
  = [LineArtist (next_line w); LineArtist (S (next_line w))] /\
  (forall ax, ax <> self_p self ->
     axes (world (GUI_inter_on_key_press self ev (world (cell_slider w)))) ax
     = axes (world (cell_slider w)) ax).
Proof.
  destruct (cell_slider_state w image zl xl Hplt Hwidgets Himage Hshape Hrows)
    as [_ [Hg [_ [_ [_ [_ [Hchildren [Hother [_ [_ [_ [Hnl _]]]]]]]]]]]].
  set (w1 := world (cell_slider w)) in *. clearbody w1.
  assert (Hp : g_p (globals w1) = Some (next_ax w)) by (rewrite Hg; reflexivity).
  assert (Hfig : g_fig (globals w1) = Some (next_fig w))
    by (rewrite Hg; reflexivity).
  pose proof (marked_axes _ _ _ _ _
                (on_key_press_marks w1 ev x y _ _ Hkey Hpos Hp Hfig)) as Hax.
  pose proof (marked_axes _ _ _ _ _
                (GUI_inter_on_key_press_marks w1 self ev x y _ Hkey Hpos Hfig))
    as Hgui.
  split; [exact Hp|]. split; [|split].
  - intros ax Hne. rewrite Hax, upd_other by exact Hne. apply Hother, Hne.
  - rewrite Hax, upd_same. unfold add_child. cbn [children].
    rewrite Hchildren, Hnl. reflexivity.
  - intros ax Hne. rewrite Hgui, upd_other by exact Hne. reflexivity.
Qed.

Lemma marker_follows_global_p_witness :
  g_p (globals (world (cell_slider (session_with_image tall_image))))
  = Some (next_ax (session_with_image tall_image)).
Proof.
  assert (Hplt : imported "plt" (session_with_image tall_image))
    by (vm_compute; reflexivity).
  assert (Hwidgets : imported "widgets" (session_with_image tall_image))
    by (vm_compute; reflexivity).
  assert (Himage : g_image (globals (session_with_image tall_image))
                   = Some tall_image) by (vm_compute; reflexivity).
  assert (Hshape : shape tall_image = [151; 1]%nat) by reflexivity.
  assert (Hrows : (150 < 151)%nat) by lia.
  destruct (marker_follows_global_p (session_with_image tall_image) sample_gui
              (key_m_at (1 # 2) (3 # 2)) (1 # 2) (3 # 2) tall_image 151 1
              eq_refl eq_refl Hplt Hwidgets Himage Hshape Hrows)
    as [Hp _].
  exact Hp.
Defined.

(** X14. The slider cell starts consistent and [update] keeps it so: the
    slider's initial value is 150 and the line it controls shows row 150
    of the image against the column positions; after [update] at any row
    index [0 <= v < zl] the same line shows row [v], still with as many x
    as y samples. *)
Theorem slider_shows_selected_row (w : World) (image : ndarray) (zl xl : nat)
    (v : Z)
    (Hplt : imported "plt" w) (Hwidgets : imported "widgets" w)
    (Himage : g_image (globals w) = Some image)
    (Hshape : shape image = [zl; xl])
    (Hdata : length (data image) = (zl * xl)%nat)
    (Hrows : (150 < zl)%nat)
    (Hv : 0 <= v < Z.of_nat zl) :
  value (sliders (world (cell_slider w)) (next_slider w)) = 150 /\
  g_line (globals (world (cell_slider w))) = Some (next_line w) /\
  line_x (lines (world (cell_slider w)) (next_line w)) = arange xl /\
  line_y (lines (world (cell_slider w)) (next_line w))
  = floats (row_of image xl 150) /\
  res (update v (world (cell_slider w))) = Ok tt /\
  line_x (lines (world (update v (world (cell_slider w)))) (next_line w))
  = arange xl /\
  line_y (lines (world (update v (world (cell_slider w)))) (next_line w))
  = floats (row_of image xl (Z.to_nat v)) /\
  length (line_x (lines (world (update v (world (cell_slider w)))) (next_line w)))
  = length (line_y (lines (world (update v (world (cell_slider w)))) (next_line w))).
Proof.
  destruct (cell_slider_state w image zl xl Hplt Hwidgets Himage Hshape Hrows)
    as [_ [Hg [Hsl [_ [Hl _]]]]].
  set (w1 := world (cell_slider w)) in *. clearbody w1.
  assert (Hline : g_line (globals w1) = Some (next_line w))
    by (rewrite Hg; reflexivity).
  assert (Himg1 : g_image (globals w1) = Some image)
    by (rewrite Hg; exact Himage).
  assert (Hfig : g_fig (globals w1) = Some (next_fig w))
    by (rewrite Hg; reflexivity).
  assert (H150 : length (row_of image xl 150) = xl)
    by (apply (row_of_length _ zl); [exact Hdata | lia]).
  assert (Hx : line_x (lines w1 (next_line w)) = arange xl).
  { rewrite Hl. unfold samples_line. cbn [line_x]. rewrite H150. reflexivity. }
  split; [rewrite Hsl; reflexivity|]. split; [exact Hline|]. split; [exact Hx|].
  split; [rewrite Hl; reflexivity|].
  pose proof (update_run w1 v _ _ Hline Himg1) as Hu.
  rewrite (getitem_row_inside _ zl xl v Hshape Hv), Hfig in Hu.
  destruct Hu as [Hy [_ [_ [_ [Hres _]]]]].
  rewrite Hy. cbn [line_x line_y data]. rewrite Hx.
  split; [exact Hres|].
  split; [reflexivity|]. split; [reflexivity|].
  unfold arange, floats. rewrite !length_map, length_seq.
  symmetry. apply (row_of_length _ zl); [exact Hdata | lia].
Qed.

Lemma slider_shows_selected_row_witness :
  value (sliders (world (cell_slider (session_with_image tall_image)))
                 (next_slider (session_with_image tall_image)))
  = 150.
Proof.
  assert (Hplt : imported "plt" (session_with_image tall_image))
    by (vm_compute; reflexivity).
  assert (Hwidgets : imported "widgets" (session_with_image tall_image))
    by (vm_compute; reflexivity).
  assert (Himage : g_image (globals (session_with_image tall_image))
                   = Some tall_image) by (vm_compute; reflexivity).
  assert (Hshape : shape tall_image = [151; 1]%nat) by reflexivity.
  assert (Hdata : length (data tall_image) = (151 * 1)%nat)
    by (vm_compute; reflexivity).
  assert (Hrows : (150 < 151)%nat) by lia.
  assert (Hv : 0 <= 7 < Z.of_nat 151) by lia.
  destruct (slider_shows_selected_row (session_with_image tall_image)
              tall_image 151 1 7
              Hplt Hwidgets Himage Hshape Hdata Hrows Hv)
    as [Hvalue _].
  exact Hvalue.
Defined.

(** *** The image viewer class and its cell *)

Lemma set_fig_axes_twice (l l' : list nat) (f : Figure) :
  set_fig_axes l (set_fig_axes l' f) = set_fig_axes l f.
Proof. reflexivity. Qed.

Lemma GUI_inter_display_state (self : GUI_inter) (sigma : Q) (w : World) :
  imported "plt" w -> imported "np" w ->
  gcf w = self_fig self ->
  image_shape_ok (shape (self_img self)) = true ->
  let lo := (np_mean (env w) (self_img self)
             - sigma * np_std (env w) (self_img self))%Q in
  let hi := (np_mean (env w) (self_img self)
             + sigma * np_std (env w) (self_img self))%Q in
  let o := GUI_inter_display self sigma w in
  res o = Ok {| self_fig := self_fig self; self_p := next_ax w;
                self_img := self_img self; v0 := lo; v1 := hi |} /\
  figures (world o) (self_fig self)
  = bump_draw_idle (set_fig_axes [next_ax w] (figures w (self_fig self))) /\
  (forall f, f <> self_fig self -> figures (world o) f = figures w f) /\
  axes (world o) (next_ax w)
  = add_child (AxesImage (self_img self) lo hi) empty_axes /\
  (forall a, a <> next_ax w -> axes (world o) a = axes w a) /\
  gcf (world o) = gcf w /\ globals (world o) = globals w /\
  env (world o) = env w /\ next_fig (world o) = next_fig w /\
  next_line (world o) = next_line w /\ lines (world o) = lines w.
Proof.
  unfold imported. intros Hplt Hnp Hcur Hok. cbv zeta.
  long_run.
  unfold GUI_inter_display. expose_lib.
  use_step. lib_step.
  use_step. lib_step. use_step. lib_step.
  use_step. lib_step. use_step. lib_step.
  unfold new_axes. lib_step.
  erewrite bind_lib_ok.
  2:{ rewrite Hok. reflexivity. }
  use_step. lib_step.
  autorewrite with run. subst Post. cbv beta. settle.
  repeat (rewrite upd_same;
          cbn [fig_axes draw_count draw_idle_count connected children
               set_fig_axes bump_draw_idle add_child empty_figure empty_axes app]).
  split; [reflexivity|].
  split; [reflexivity|].
  split. { intros f Hf. rewrite !upd_other by exact Hf. reflexivity. }
  split; [reflexivity|].
  split. { intros a Ha. rewrite !upd_other by exact Ha. reflexivity. }
  repeat split; reflexivity.
Qed.

Lemma GUI_inter_init_state (fig : nat) (img : ndarray) (w : World) :
  imported "plt" w -> imported "np" w ->
  gcf w = fig ->
  image_shape_ok (shape img) = true ->
  let lo := (np_mean (env w) img - (20 # 1) * np_std (env w) img)%Q in
  let hi := (np_mean (env w) img + (20 # 1) * np_std (env w) img)%Q in
  let o := GUI_inter_init fig img w in
  exists p,
    (next_ax w <= p)%nat /\
    (fig_axes (figures w fig) = [] -> p = S (next_ax w)) /\
    res o = Ok {| self_fig := fig; self_p := p; self_img := img;
                  v0 := lo; v1 := hi |} /\
    figures (world o) fig = bump_draw_idle (set_fig_axes [p] (figures w fig)) /\
    (forall f, f <> fig -> figures (world o) f = figures w f) /\
    axes (world o) p = add_child (AxesImage img lo hi) empty_axes /\
    (forall a, (a < next_ax w)%nat -> axes (world o) a = axes w a) /\
    gcf (world o) = gcf w /\ globals (world o) = globals w /\
    env (world o) = env w /\ next_fig (world o) = next_fig w /\
    next_line (world o) = next_line w /\ lines (world o) = lines w.
Proof.
  intros Hplt Hnp Hcur Hok. cbv zeta. unfold GUI_inter_init, Figure_gca.
  destruct (rev (fig_axes (figures w fig))) as [|ax rest] eqn:E.
  - erewrite bind_lib_ok.
    2:{ rewrite E. unfold new_axes. reflexivity. }
    autorewrite with run.
    set (W := on_figure fig _ _).
    assert (HWplt : imported "plt" W) by exact Hplt.
    assert (HWnp : imported "np" W) by exact Hnp.
    assert (HWcur : gcf W = fig) by exact Hcur.
    assert (HWenv : env W = env w) by reflexivity.
    assert (HWax : next_ax W = S (next_ax w)) by reflexivity.
    assert (HWg : globals W = globals w) by reflexivity.
    assert (HWnf : next_fig W = next_fig w) by reflexivity.
    assert (HWnl : next_line W = next_line w) by reflexivity.
    assert (HWl : lines W = lines w) by reflexivity.
    assert (HWfig : figures W fig
                    = set_fig_axes (fig_axes (figures w fig) ++ [next_ax w])
                        (figures w fig)).
    { unfold W. world_simpl. apply upd_same. }
    assert (HWfigs : forall f, f <> fig -> figures W f = figures w f).
    { intros f Hf. unfold W. world_simpl. apply upd_other, Hf. }
    assert (HWaxes : forall a, a <> next_ax w -> axes W a = axes w a).
    { intros a Ha. unfold W. world_simpl. apply upd_other, Ha. }
    clearbody W.
    pose proof (GUI_inter_display_state
                  {| self_fig := fig; self_p := next_ax w; self_img := img;
                     v0 := 0; v1 := 0 |} (20 # 1) W HWplt HWnp HWcur Hok) as H.
    cbv zeta in H. cbn [self_fig self_img] in H.
    rewrite HWenv, HWax, HWfig, set_fig_axes_twice in H.
    destruct H as [Hres [Hf [Hfs [Ha [Has [Hc [Hg [He [Hn [Hl Hls]]]]]]]]]].
    exists (S (next_ax w)).
    split; [lia|]. split; [reflexivity|]. split; [exact Hres|].
    split; [exact Hf|].
    split. { intros f Hne. rewrite Hfs by exact Hne. apply HWfigs, Hne. }
    split; [exact Ha|].
    split. { intros a Hlt. rewrite Has by lia. apply HWaxes. lia. }
    split; [rewrite Hc, HWcur; symmetry; exact Hcur|].
    split; [rewrite Hg; exact HWg|].
    split; [exact He|].
    split; [rewrite Hn; exact HWnf|].
    split; [rewrite Hl; exact HWnl|]. rewrite Hls. exact HWl.
  - erewrite bind_lib_ok.
    2:{ rewrite E. reflexivity. }
    autorewrite with run.
    pose proof (GUI_inter_display_state
                  {| self_fig := fig; self_p := ax; self_img := img;
                     v0 := 0; v1 := 0 |} (20 # 1) w Hplt Hnp Hcur Hok) as H.
    cbv zeta in H. cbn [self_fig self_img] in H.
    destruct H as [Hres [Hf [Hfs [Ha [Has [Hc [Hg [He [Hn [Hl Hls]]]]]]]]]].
    exists (next_ax w).
    split; [lia|].
    split. { intros H0. rewrite H0 in E. discriminate E. }
    split; [exact Hres|]. split; [exact Hf|]. split; [exact Hfs|].
    split; [exact Ha|].
    split. { intros a Hlt. apply Has. lia. }
    repeat split; assumption.
Qed.

(** X15. Building [GUI_inter(fig, img)] on pyplot's current figure, with
    [plt] and [np] imported and an image [imshow] accepts, leaves that
    figure with exactly one axes, [self.p]: an axes that did not exist
    before, holding the image alone, shown between [mean - 20*std] and
    [mean + 20*std].  Whatever axes the figure had (and the one that
    [gca()] makes when it had none) is dropped from the figure by
    [plt.clf()].  One deferred draw is requested and none is made; the
    figure's handlers, every other figure and every older axes stay as
    they were. *)
Theorem gui_constructor_shows_image_on_new_axes
    (w : World) (fig : nat) (img : ndarray)
    (Hplt : imported "plt" w) (Hnp : imported "np" w)
    (Hcur : gcf w = fig)
    (Hok : image_shape_ok (shape img) = true) :
  exists G,
    res (GUI_inter_init fig img w) = Ok G /\
    self_fig G = fig /\ self_img G = img /\
    v0 G = (np_mean (env w) img - (20 # 1) * np_std (env w) img)%Q /\
    v1 G = (np_mean (env w) img + (20 # 1) * np_std (env w) img)%Q /\
    (next_ax w <= self_p G)%nat /\
    fig_axes (figures (world (GUI_inter_init fig img w)) fig) = [self_p G] /\
    children (axes (world (GUI_inter_init fig img w)) (self_p G))
    = [AxesImage img (v0 G) (v1 G)] /\
    draw_count (figures (world (GUI_inter_init fig img w)) fig)
    = draw_count (figures w fig) /\
    draw_idle_count (figures (world (GUI_inter_init fig img w)) fig)
    = S (draw_idle_count (figures w fig)) /\
    connected (figures (world (GUI_inter_init fig img w)) fig)
    = connected (figures w fig) /\
    (forall f, f <> fig ->
       figures (world (GUI_inter_init fig img w)) f = figures w f) /\
    (forall a, (a < next_ax w)%nat ->
       axes (world (GUI_inter_init fig img w)) a = axes w a).
Proof.
  destruct (GUI_inter_init_state fig img w Hplt Hnp Hcur Hok)
    as [p [Hp [_ [Hres [Hf [Hfs [Ha [Has _]]]]]]]].
  cbv zeta in Hres, Ha.
  eexists. split; [exact Hres|]. cbn [self_fig self_p self_img v0 v1].
  rewrite Hf, Ha.
  repeat (split; [reflexivity|]).
  split; [exact Hp|].
  repeat (split; [reflexivity|]).
  split; [exact Hfs | exact Has].
Qed.

Lemma gui_constructor_shows_image_on_new_axes_witness :
  exists G,
    res (GUI_inter_init 0 small_image (session_with_image small_image)) = Ok G.
Proof.
  assert (Hplt : imported "plt" (session_with_image small_image))
    by (vm_compute; reflexivity).
  assert (Hnp : imported "np" (session_with_image small_image))
    by (vm_compute; reflexivity).
  assert (Hcur : gcf (session_with_image small_image) = 0%nat)
    by (vm_compute; reflexivity).
  assert (Hok : image_shape_ok (shape small_image) = true) by reflexivity.
  destruct (gui_constructor_shows_image_on_new_axes
              (session_with_image small_image) 0 small_image Hplt Hnp Hcur Hok)
    as [G [Hres _]].
  exists G. exact Hres.
Defined.

Lemma cell_gui_state (w : World) (img : ndarray) :
  imported "plt" w -> imported "np" w -> imported "GUI_inter" w ->
  g_image (globals w) = Some img ->
  image_shape_ok (shape img) = true ->
  let lo := (np_mean (env w) img - (20 # 1) * np_std (env w) img)%Q in
  let hi := (np_mean (env w) img + (20 # 1) * np_std (env w) img)%Q in
  let G := {| self_fig := next_fig w; self_p := S (next_ax w); self_img := img;
              v0 := lo; v1 := hi |} in
  let w1 := world (cell_gui w) in
  res (cell_gui w) = Ok tt /\
  g_fig (globals w1) = Some (next_fig w) /\
  figures w1 (next_fig w)
  = {| fig_axes := [S (next_ax w)]; draw_count := 0; draw_idle_count := 1;
       connected := [("key_press_event"%string, H_GUI_on_key_press G)] |} /\
  axes w1 (S (next_ax w)) = add_child (AxesImage img lo hi) empty_axes /\
  (forall f, f <> next_fig w -> figures w1 f = figures w f) /\
  (forall a, (a < next_ax w)%nat -> axes w1 a = axes w a) /\
  next_line w1 = next_line w /\ lines w1 = lines w.
Proof.
  unfold imported. intros Hplt Hnp Hclass Himg Hok. cbv zeta.
  unfold cell_gui. expose_lib.
  use_step. lib_step. rewrite bind_assign. use_step. read_step.
  match goal with
  | |- context [bind (GUI_inter_init _ _) _ ?T] => set (W := T)
  end.
  assert (HWplt : imported "plt" W) by exact Hplt.
  assert (HWnp : imported "np" W) by exact Hnp.
  assert (HWcur : gcf W = next_fig w) by reflexivity.
  assert (HWenv : env W = env w) by reflexivity.
  assert (HWax : next_ax W = next_ax w) by reflexivity.
  assert (HWnl : next_line W = next_line w) by reflexivity.
  assert (HWl : lines W = lines w) by reflexivity.
  assert (HWgfig : g_fig (globals W) = Some (next_fig w)) by reflexivity.
  assert (HWfig : figures W (next_fig w) = empty_figure).
  { unfold W. world_simpl. apply upd_same. }
  assert (HWfigs : forall f, f <> next_fig w -> figures W f = figures w f).
  { intros f Hf. unfold W. world_simpl. apply upd_other, Hf. }
  assert (HWaxes : forall a, axes W a = axes w a) by reflexivity.
  clearbody W.
  destruct (GUI_inter_init_state (next_fig w) img W HWplt HWnp HWcur Hok)
    as [p [_ [Hp [Hres [Hf [Hfs [Ha [Has [Hc [Hg [He [Hn [Hl Hls]]]]]]]]]]]]].
  rewrite HWfig in Hp. specialize (Hp eq_refl). subst p.
  rewrite HWenv, HWax in *. rewrite HWfig in Hf.
  rewrite (bind_ok _ _ _ _ Hres).
  set (W1 := world (GUI_inter_init _ _ W)) in *.
  clearbody W1.
  lib_step. autorewrite with run. world_simpl.
  rewrite Hg, HWgfig. rewrite !upd_same. rewrite Hf.
  split; [reflexivity|]. split; [reflexivity|]. split; [reflexivity|].
  split; [exact Ha|].
  split. { intros f Hne. rewrite upd_other by exact Hne. rewrite Hfs by exact Hne.
           apply HWfigs, Hne. }
  split. { intros a Hlt. rewrite Has by exact Hlt. apply HWaxes. }
  split; [rewrite Hl; exact HWnl|]. rewrite Hls. exact HWl.
Qed.

(** X16. The cell that builds the viewer, run with [plt], [np] and the
    class bound and an image [imshow] accepts, makes a new figure, binds
    [fig] to it, and leaves it with one axes showing the image, one
    [key_press_event] handler -- the method of the object whose [self.p]
    is that axes -- one deferred draw requested and no draw made; the
    figures that existed before are not touched.  A press of [m] with the
    cursor inside the axes, handled by that method, then puts the red
    marker on the axes that shows the image, on top of it. *)
Theorem gui_cell_marks_the_displayed_image
    (w : World) (img : ndarray) (ev : KeyEvent) (x y : Q)
    (Hplt : imported "plt" w) (Hnp : imported "np" w)
    (Hclass : imported "GUI_inter" w)
    (Himg : g_image (globals w) = Some img)
    (Hok : image_shape_ok (shape img) = true)
    (Hkey : key ev = Some "m"%string)
    (Hpos : position ev = Some (x, y)) :
  let lo := (np_mean (env w) img - (20 # 1) * np_std (env w) img)%Q in
  let hi := (np_mean (env w) img + (20 # 1) * np_std (env w) img)%Q in
  let G := {| self_fig := next_fig w; self_p := S (next_ax w); self_img := img;
              v0 := lo; v1 := hi |} in
  let w1 := world (cell_gui w) in
  let w2 := world (GUI_inter_on_key_press G ev w1) in
  res (cell_gui w) = Ok tt /\
  g_fig (globals w1) = Some (next_fig w) /\
  fig_axes (figures w1 (next_fig w)) = [S (next_ax w)] /\
  connected (figures w1 (next_fig w))
  = [("key_press_event"%string, H_GUI_on_key_press G)] /\
  draw_count (figures w1 (next_fig w)) = 0%nat /\
  draw_idle_count (figures w1 (next_fig w)) = 1%nat /\
  children (axes w1 (S (next_ax w))) = [AxesImage img lo hi] /\
  (forall f, f <> next_fig w -> figures w1 f = figures w f) /\
  (forall a, (a < next_ax w)%nat -> axes w1 a = axes w a) /\
  children (axes w2 (S (next_ax w)))
  = [AxesImage img lo hi; LineArtist (next_line w)] /\
  lines w2 (next_line w) = red_marker x y /\
  (forall a, a <> S (next_ax w) -> axes w2 a = axes w1 a).
Proof.
  cbv zeta.
  destruct (cell_gui_state w img Hplt Hnp Hclass Himg Hok)
    as [Hres [Hfig [Hf [Ha [Hfs [Has [Hl _]]]]]]].
  cbv zeta in Hf, Ha.
  set (G := {| self_fig := next_fig w; self_p := S (next_ax w);
               self_img := img;
               v0 := (np_mean (env w) img - (20 # 1) * np_std (env w) img)%Q;
               v1 := (np_mean (env w) img + (20 # 1) * np_std (env w) img)%Q |})
    in *.
  set (w1 := world (cell_gui w)) in *. clearbody w1.
  pose proof (GUI_inter_on_key_press_marks w1 G ev x y _ Hkey Hpos Hfig) as Hm.
  pose proof (marked_axes _ _ _ _ _ Hm) as Hax.
  assert (Hline : lines (world (GUI_inter_on_key_press G ev w1)) (next_line w)
                  = red_marker x y).
  { unfold marked, figure_state in Hm.
    apply (f_equal (fun t => snd (fst (fst (fst (fst t)))))) in Hm.
    cbn [fst snd] in Hm. rewrite Hm. unfold add_line. world_simpl.
    rewrite Hl. apply upd_same. }
  change (self_p G) with (S (next_ax w)) in Hax.
  rewrite Hax, Hf, Ha, upd_same, Hl.
  split; [exact Hres|]. split; [exact Hfig|].
  repeat (split; [reflexivity|]).
  split; [exact Hfs|]. split; [exact Has|].
  split; [reflexivity|].
  split; [exact Hline|].
  intros a Hne. rewrite upd_other by exact Hne. reflexivity.
Qed.

Lemma gui_cell_marks_the_displayed_image_witness :
  res (cell_gui (world (cell_class (session_with_image small_image)))) = Ok tt.
Proof.
  assert (Hplt : imported "plt"
                   (world (cell_class (session_with_image small_image))))
    by (vm_compute; reflexivity).
  assert (Hnp : imported "np"
                  (world (cell_class (session_with_image small_image))))
    by (vm_compute; reflexivity).
  assert (Hclass : imported "GUI_inter"
                     (world (cell_class (session_with_image small_image))))
    by (vm_compute; reflexivity).
  assert (Himg : g_image (globals (world (cell_class
                                            (session_with_image small_image))))
                 = Some small_image) by (vm_compute; reflexivity).
  assert (Hok : image_shape_ok (shape small_image) = true) by reflexivity.
  destruct (gui_cell_marks_the_displayed_image
              (world (cell_class (session_with_image small_image))) small_image
              (key_m_at (1 # 2) (3 # 2)) (1 # 2) (3 # 2)
              Hplt Hnp Hclass Himg Hok eq_refl eq_refl)
    as [Hres _].
  exact Hres.
Defined.

(** *** The two cells that connect a key-press handler *)

Lemma cell_key_press_state (w : World) (image : ndarray) :
  imported "plt" w -> g_image (globals w) = Some image ->
  let ok := image_shape_ok (shape image) in
  let w1 := world (cell_key_press w) in
  res (cell_key_press w) = (if ok then Ok tt else Raise TypeError) /\
  globals w1 = set_p (next_ax w) (set_fig (next_fig w) (globals w)) /\
  figures w1 (next_fig w)
  = (if ok
     then add_connection ("key_press_event"%string, H_on_key_press)
            (set_fig_axes [next_ax w] empty_figure)
     else set_fig_axes [next_ax w] empty_figure) /\
  (forall f, f <> next_fig w -> figures w1 f = figures w f) /\
  axes w1 (next_ax w)
  = (if ok
     then add_child (AxesImage image (-10 # 1) (20 # 1)) empty_axes
     else empty_axes) /\
  (forall a, a <> next_ax w -> axes w1 a = axes w a) /\
  out_widget w1 = out_widget w /\
  displayed w1 = displayed w.
Proof.
  intros Hplt Himage. cbv zeta.
  destruct (new_display_state w image Hplt Himage)
    as [Hres [Hg [Hf [Hfs [Ha [Has [_ [_ [Ho [Hd _]]]]]]]]]].
  cbv zeta in Hres, Ha. unfold cell_key_press.
  destruct (image_shape_ok (shape image)).
  - rewrite (bind_ok _ _ _ _ Hres).
    set (W := world (new_display w)) in *. clearbody W.
    unfold imported in Hplt. expose_lib.
    erewrite bind_read by (rewrite Hg; reflexivity).
    lib_step.
    erewrite bind_use by (world_simpl; rewrite Hg; exact Hplt).
    erewrite lib_ok by reflexivity.
    autorewrite with run. world_simpl. rewrite upd_same, Hf.
    split; [reflexivity|]. split; [exact Hg|]. split; [reflexivity|].
    split. { intros f Hne. rewrite upd_other by exact Hne. apply Hfs, Hne. }
    split; [exact Ha|]. split; [exact Has|]. split; [exact Ho | exact Hd].
  - rewrite (bind_failed _ _ _ _ Hres). world_simpl.
    split; [reflexivity|]. split; [exact Hg|]. split; [exact Hf|].
    split; [exact Hfs|]. split; [exact Ha|]. split; [exact Has|].
    split; [exact Ho | exact Hd].
Qed.

Lemma cell_key_press_output_state (w : World) (image : ndarray) :
  imported "plt" w -> imported "widgets" w ->
  g_image (globals w) = Some image ->
  let ok := image_shape_ok (shape image) in
  let w1 := world (cell_key_press_output w) in
  res (cell_key_press_output w) = (if ok then Ok tt else Raise TypeError) /\
  globals w1 = set_p (next_ax w) (set_fig (next_fig w) (globals w)) /\
  figures w1 (next_fig w)
  = (if ok
     then add_connection ("key_press_event"%string, H_on_key_press_captured)
            (set_fig_axes [next_ax w] empty_figure)
     else set_fig_axes [next_ax w] empty_figure) /\
  (forall f, f <> next_fig w -> figures w1 f = figures w f) /\
  axes w1 (next_ax w)
  = (if ok
     then add_child (AxesImage image (-10 # 1) (20 # 1)) empty_axes
     else empty_axes) /\
  (forall a, a <> next_ax w -> axes w1 a = axes w a) /\
  out_widget w1 = (if ok then [] else out_widget w) /\
  displayed w1 = (if ok then displayed w ++ [ShowOutput] else displayed w)%list.
Proof.
  intros Hplt Hwidgets Himage. cbv zeta.
  destruct (new_display_state w image Hplt Himage)
    as [Hres [Hg [Hf [Hfs [Ha [Has [_ [_ [Ho [Hd _]]]]]]]]]].
  cbv zeta in Hres, Ha. unfold cell_key_press_output.
  destruct (image_shape_ok (shape image)).
  - rewrite (bind_ok _ _ _ _ Hres).
    set (W := world (new_display w)) in *. clearbody W.
    unfold imported in Hwidgets. expose_lib.
    erewrite bind_use by (rewrite Hg; exact Hwidgets).
    lib_step. lib_step.
    erewrite bind_read by (world_simpl; rewrite Hg; reflexivity).
    lib_step. erewrite lib_ok by reflexivity.
    autorewrite with run. world_simpl. rewrite upd_same, Hf, Hd.
    split; [reflexivity|]. split; [exact Hg|]. split; [reflexivity|].
    split. { intros f Hne. rewrite upd_other by exact Hne. apply Hfs, Hne. }
    split; [exact Ha|]. split; [exact Has|]. split; reflexivity.
  - rewrite (bind_failed _ _ _ _ Hres). world_simpl.
    split; [reflexivity|]. split; [exact Hg|]. split; [exact Hf|].
    split; [exact Hfs|]. split; [exact Ha|]. split; [exact Has|].
    split; [exact Ho | exact Hd].
Qed.

(** X17. Each of the two key-press cells, with [plt] (and [widgets])
    imported and [image] bound, opens a new figure, binds [fig] and [p]
    to it and to its one new axes, and leaves the figures and axes that
    existed before as they were.  When [imshow] accepts the image, the
    axes holds the image alone, between -10 and 20, and the new figure
    has exactly one [key_press_event] handler, the cell's own
    [on_key_press]; the second cell also starts an empty Output widget
    and displays it.  When [imshow] refuses the image, the cell raises
    [TypeError] at that point: [fig] and [p] are already bound to the new
    figure and its empty axes, no handler is connected, and the Output
    widget is neither replaced nor displayed. *)
Theorem key_press_cells_effect (w : World) (img : ndarray)
    (Hplt : imported "plt" w) (Hwidgets : imported "widgets" w)
    (Himage : g_image (globals w) = Some img) :
  let w1 := world (cell_key_press w) in
  let w2 := world (cell_key_press_output w) in
  (g_fig (globals w1) = Some (next_fig w) /\
   g_p (globals w1) = Some (next_ax w) /\
   fig_axes (figures w1 (next_fig w)) = [next_ax w] /\
   (forall f, f <> next_fig w -> figures w1 f = figures w f) /\
   (forall a, a <> next_ax w -> axes w1 a = axes w a)) /\
  (g_fig (globals w2) = Some (next_fig w) /\
   g_p (globals w2) = Some (next_ax w) /\
   fig_axes (figures w2 (next_fig w)) = [next_ax w] /\
   (forall f, f <> next_fig w -> figures w2 f = figures w f) /\
   (forall a, a <> next_ax w -> axes w2 a = axes w a)) /\
  if image_shape_ok (shape img) then
    res (cell_key_press w) = Ok tt /\
    res (cell_key_press_output w) = Ok tt /\
    children (axes w1 (next_ax w)) = [AxesImage img (-10 # 1) (20 # 1)] /\
    children (axes w2 (next_ax w)) = [AxesImage img (-10 # 1) (20 # 1)] /\
    connected (figures w1 (next_fig w))
    = [("key_press_event"%string, H_on_key_press)] /\
    connected (figures w2 (next_fig w))
    = [("key_press_event"%string, H_on_key_press_captured)] /\
    displayed w1 = displayed w /\
    out_widget w2 = [] /\
    displayed w2 = (displayed w ++ [ShowOutput])%list
  else
    res (cell_key_press w) = Raise TypeError /\
    res (cell_key_press_output w) = Raise TypeError /\
    children (axes w1 (next_ax w)) = [] /\
    children (axes w2 (next_ax w)) = [] /\
    connected (figures w1 (next_fig w)) = [] /\
    connected (figures w2 (next_fig w)) = [] /\
    displayed w1 = displayed w /\
    out_widget w2 = out_widget w /\
    displayed w2 = displayed w.
Proof.
  cbv zeta.
  destruct (cell_key_press_state w img Hplt Himage)
    as [Hr1 [Hg1 [Hf1 [Hfs1 [Ha1 [Has1 [_ Hd1]]]]]]].
  destruct (cell_key_press_output_state w img Hplt Hwidgets Himage)
    as [Hr2 [Hg2 [Hf2 [Hfs2 [Ha2 [Has2 [Ho2 Hd2]]]]]]].
  cbv zeta in *.
  rewrite Hg1, Hg2, Hf1, Hf2, Ha1, Ha2, Hr1, Hr2, Hd1, Ho2, Hd2.
  destruct (image_shape_ok (shape img));
    (split; [repeat (split; [reflexivity|]); split; assumption|]);
    (split; [repeat (split; [reflexivity|]); split; assumption|]);
    repeat split; reflexivity.
Qed.

Lemma key_press_cells_effect_witness :
  g_fig (globals (world (cell_key_press (session_with_image small_image))))
  = Some (next_fig (session_with_image small_image)).
Proof.
  assert (Hplt : imported "plt" (session_with_image small_image))
    by (vm_compute; reflexivity).
  assert (Hwidgets : imported "widgets" (session_with_image small_image))
    by (vm_compute; reflexivity).
  assert (Himage : g_image (globals (session_with_image small_image))
                   = Some small_image) by (vm_compute; reflexivity).
  destruct (key_press_cells_effect (session_with_image small_image) small_image
              Hplt Hwidgets Himage) as [[Hfig _] _].
  exact Hfig.
Defined.

(** *** Cells run before the image is loaded *)

Lemma new_display_unbound_image (w : World) :
  imported "plt" w -> g_image (globals w) = None ->
  let o := new_display w in
  res o = Raise NameError /\
  globals (world o) = set_p (next_ax w) (set_fig (next_fig w) (globals w)) /\
  figures (world o) (next_fig w) = set_fig_axes [next_ax w] empty_figure /\
  (forall f, f <> next_fig w -> figures (world o) f = figures w f) /\
  axes (world o) (next_ax w) = empty_axes /\
  (forall a, a <> next_ax w -> axes (world o) a = axes w a) /\
  out_widget (world o) = out_widget w /\
  displayed (world o) = displayed w.
Proof.
  unfold imported. intros Hplt Himage. cbv zeta.
  by_running.
  { unfold new_display. expose_lib.
    use_step. lib_step. rewrite bind_assign. use_step. lib_step.
    unfold new_axes. lib_step. rewrite bind_assign.
    erewrite bind_read_unbound by bound.
    reflexivity. }
  world_simpl.
  repeat (rewrite upd_same;
          cbn [fig_axes children set_fig_axes add_child empty_figure
               empty_axes app]).
  split; [reflexivity|]. split; [reflexivity|]. split; [reflexivity|].
  split. { intros f Hf. rewrite !upd_other by exact Hf. reflexivity. }
  split; [reflexivity|].
  split. { intros a Ha. rewrite !upd_other by exact Ha. reflexivity. }
  split; reflexivity.
Qed.

(** X18. Run before the image is loaded, with [plt] imported, each of the
    three cells that display the image raises [NameError] only when it
    reaches the name [image]: by then the new figure exists with one
    empty axes, [fig] and [p] are rebound to them, and no handler is
    connected and no widget made.  The cell that plots a row, the slider
    cell and the slider's callback look [image] up before they make
    anything, and leave the kernel's state as it was. *)
Theorem cells_before_the_image_is_loaded (w : World) (v : Z)
    (Hplt : imported "plt" w)
    (Himage : g_image (globals w) = None) :
  (forall cell, In cell [cell_display; cell_key_press; cell_key_press_output] ->
     res (cell w) = Raise NameError /\
     g_fig (globals (world (cell w))) = Some (next_fig w) /\
     g_p (globals (world (cell w))) = Some (next_ax w) /\
     figures (world (cell w)) (next_fig w)
     = set_fig_axes [next_ax w] empty_figure /\
     axes (world (cell w)) (next_ax w) = empty_axes /\
     (forall f, f <> next_fig w -> figures (world (cell w)) f = figures w f) /\
     (forall a, a <> next_ax w -> axes (world (cell w)) a = axes w a) /\
     out_widget (world (cell w)) = out_widget w /\
     displayed (world (cell w)) = displayed w) /\
  (res (cell_slice w) = Raise NameError /\ world (cell_slice w) = w) /\
  (res (cell_slider w) = Raise NameError /\ world (cell_slider w) = w) /\
  (g_line (globals w) <> None ->
   res (update v w) = Raise NameError /\ world (update v w) = w).
Proof.
  destruct (new_display_unbound_image w Hplt Himage)
    as [Hres [Hg [Hf [Hfs [Ha [Has [Ho Hd]]]]]]].
  cbv zeta in *.
  split.
  { intros cell [<-|[<-|[<-|[]]]];
      unfold cell_display, cell_key_press, cell_key_press_output;
      rewrite (bind_failed _ _ _ _ Hres); world_simpl; rewrite Hg;
      (split; [reflexivity|]); (split; [reflexivity|]);
      (split; [reflexivity|]); (split; [exact Hf|]); (split; [exact Ha|]);
      (split; [exact Hfs|]); (split; [exact Has|]);
      (split; [exact Ho | exact Hd]). }
  split.
  { unfold cell_slice. erewrite bind_read_unbound by bound.
    split; reflexivity. }
  split.
  { unfold cell_slider. erewrite bind_read_unbound by bound.
    split; reflexivity. }
  intros Hline. destruct (g_line (globals w)) as [line|] eqn:E;
    [|contradiction].
  unfold update. read_step. erewrite bind_read_unbound by bound.
  split; reflexivity.
Qed.

Lemma cells_before_the_image_is_loaded_witness :
  res (cell_display (world (cell_imports (fresh_kernel (sample_env small_image)))))
  = Raise NameError.
Proof.
  assert (Hplt : imported "plt"
                   (world (cell_imports (fresh_kernel (sample_env small_image)))))
    by (vm_compute; reflexivity).
  assert (Himage : g_image (globals (world (cell_imports
                      (fresh_kernel (sample_env small_image))))) = None)
    by (vm_compute; reflexivity).
  destruct (cells_before_the_image_is_loaded _ 0 Hplt Himage) as [H _].
  exact (proj1 (H cell_display (or_introl eq_refl))).
Defined.

(** *** The spectrum cells *)

Lemma first_spectrum_run (w : World) (sp : list (list Table)) (ext : Z) :
  g_sp (globals w) = Some sp -> g_ext (globals w) = Some ext ->
  res (first_spectrum w) = selected_spectrum (env w) sp ext 0 /\
  world (first_spectrum w) = w.
Proof.
  intros Hsp Hext.
  unfold selected_spectrum, first_spectrum, and_then. expose_lib. read_step.
  destruct (list_getitem sp 0) as [pf|e];
    [rewrite bind_pure_ok | rewrite bind_pure_raise; split; reflexivity].
  read_step.
  destruct (list_getitem pf ext) as [tab|e];
    [rewrite !bind_pure_ok | rewrite bind_pure_raise; split; reflexivity].
  destruct (table_getitem tab "flux") as [spec|e];
    [rewrite bind_pure_ok | rewrite bind_pure_raise; split; reflexivity].
  destruct (table_getitem tab "loglam") as [loglam|e];
    [rewrite bind_pure_ok | rewrite bind_pure_raise; split; reflexivity].
  lib_step. autorewrite with run. split; reflexivity.
Qed.

Lemma selected_spectrum_lengths (e : Env) (sp : list (list Table)) (ext v : Z)
    (ws : list Q * list Q) :
  selected_spectrum e sp ext v = Ok ws -> length (fst ws) = length (snd ws).
Proof.
  unfold selected_spectrum, and_then.
  destruct (list_getitem sp v) as [pf|e']; [|discriminate].
  destruct (list_getitem pf ext) as [tab|e']; [|discriminate].
  destruct (table_getitem tab "flux") as [spec|e'] eqn:Hspec; [|discriminate].
  destruct (table_getitem tab "loglam") as [loglam|e'] eqn:Hlog; [|discriminate].
  intros H. inversion H; subst; clear H. cbn [fst snd].
  rewrite length_map, (table_column_length _ _ _ Hspec).
  apply (table_column_length _ _ _ Hlog).
Qed.

Lemma selected_spectrum_some (e : Env) (sp : list (list Table)) (ext v : Z)
    (ws : list Q * list Q) :
  selected_spectrum e sp ext v = Ok ws -> sp <> [].
Proof.
  unfold selected_spectrum, and_then, list_getitem. intros H Hnil.
  rewrite Hnil in H. destruct (norm_index v (length (@nil (list Table)))) as [k|e'];
    [destruct k|]; discriminate H.
Qed.

Lemma spectrum_figure_state (w : World) (sp : list (list Table)) :
  imported "plt" w -> g_sp (globals w) = Some sp ->
  let o := spectrum_figure w in
  match selected_spectrum (env w) sp 1 0 with
  | Raise e =>
      res o = Raise e /\ world o = with_globals (set_ext 1 (globals w)) w
  | Ok ws =>
      res o = Ok (next_ax w) /\
      globals (world o)
      = set_line (next_line w) (set_fig (next_fig w) (set_ext 1 (globals w))) /\
      figures (world o) (next_fig w) = set_fig_axes [next_ax w] empty_figure /\
      (forall f, f <> next_fig w -> figures (world o) f = figures w f) /\
      axes (world o) (next_ax w)
      = {| children := [LineArtist (next_line w)];
           xlabel := "Wavelength [Angstroms]"; ylabel := "Flux" |} /\
      (forall a, a <> next_ax w -> axes (world o) a = axes w a) /\
      lines (world o) (next_line w)
      = {| line_x := floats (fst ws); line_y := floats (snd ws);
           style := {| color := None; marker := None; linestyle := None |};
           markersize := None; visible := true |} /\
      (forall l, l <> next_line w -> lines (world o) l = lines w l) /\
      next_line (world o) = S (next_line w) /\
      env (world o) = env w /\
      sliders (world o) = sliders w /\ next_slider (world o) = next_slider w /\
      checkboxes (world o) = checkboxes w /\
      next_checkbox (world o) = next_checkbox w /\
      displayed (world o) = displayed w
  end.
Proof.
  unfold imported. intros Hplt Hsp. cbv zeta.
  unfold spectrum_figure. rewrite bind_assign.
  destruct (first_spectrum_run (with_globals (set_ext 1 (globals w)) w) sp 1
              Hsp eq_refl) as [Hr Hw].
  change (env (with_globals (set_ext 1 (globals w)) w)) with (env w) in Hr.
  destruct (selected_spectrum (env w) sp 1 0) as [ws|e] eqn:E.
  - pose proof (selected_spectrum_lengths _ _ _ _ _ E) as Hlen.
    rewrite (bind_ok _ _ _ _ Hr), Hw. autorewrite with run.
    long_run.
    expose_lib. use_step. lib_step. rewrite bind_assign.
    unfold new_axes. lib_step.
    cut_world.
    erewrite bind_lib_ok.
    2:{ rewrite no_None_in_floats, andb_false_r.
        unfold floats. rewrite !length_map, Hlen, Nat.eqb_refl. reflexivity. }
    rewrite bind_assign. lib_step. erewrite bind_lib_ok by reflexivity.
    autorewrite with run. subst Post. cbv beta. settle.
    repeat (rewrite upd_same;
            cbn [fig_axes children xlabel ylabel set_fig_axes add_child
                 empty_figure empty_axes app]).
    split; [reflexivity|]. split; [reflexivity|]. split; [reflexivity|].
    split. { intros f Hf. rewrite !upd_other by exact Hf. reflexivity. }
    split; [reflexivity|].
    split. { intros a Ha. rewrite !upd_other by exact Ha. reflexivity. }
    split; [reflexivity|].
    split. { intros l Hl. rewrite !upd_other by exact Hl. reflexivity. }
    repeat split; reflexivity.
  - rewrite (bind_failed _ _ _ _ Hr), Hw. split; reflexivity.
Qed.

(** X19. The cell with the spectrum slider and the line check box, with
    [plt] and [widgets] imported and [sp] bound, is all or nothing after
    [ext = 1]: when the first spectrum cannot be read (no spectrum or no
    HDU 1: [IndexError]; no [flux] or [loglam] column: [KeyError]) it
    raises that error having made no figure and no widget.  Otherwise it
    succeeds: the new figure's one axes holds two lines, the spectrum
    with as many wavelengths as fluxes and the dashed red line at 6563
    from 0 to 20; that second line starts hidden and the check box starts
    unticked, so the two agree; the slider starts at 0 and ends at
    [len(sp)-1]; each widget has its one observer, and the slider is
    displayed before the check box. *)
Theorem cell_spectrum_lines_effect (w : World) (sp : list (list Table))
    (Hplt : imported "plt" w) (Hwidgets : imported "widgets" w)
    (Hsp : g_sp (globals w) = Some sp) :
  match selected_spectrum (env w) sp 1 0 with
  | Raise e =>
      res (cell_spectrum_lines w) = Raise e /\
      world (cell_spectrum_lines w) = with_globals (set_ext 1 (globals w)) w
  | Ok ws =>
      res (cell_spectrum_lines w) = Ok (next_slider w) /\
      globals (world (cell_spectrum_lines w))
      = set_line2 (S (next_line w))
          (set_line (next_line w)
             (set_fig (next_fig w) (set_ext 1 (globals w)))) /\
      fig_axes (figures (world (cell_spectrum_lines w)) (next_fig w))
      = [next_ax w] /\
      (forall f, f <> next_fig w ->
         figures (world (cell_spectrum_lines w)) f = figures w f) /\
      axes (world (cell_spectrum_lines w)) (next_ax w)
      = {| children := [LineArtist (next_line w); LineArtist (S (next_line w))];
           xlabel := "Wavelength [Angstroms]"; ylabel := "Flux" |} /\
      length (fst ws) = length (snd ws) /\
      lines (world (cell_spectrum_lines w)) (next_line w)
      = {| line_x := floats (fst ws); line_y := floats (snd ws);
           style := {| color := None; marker := None; linestyle := None |};
           markersize := None; visible := true |} /\
      lines (world (cell_spectrum_lines w)) (S (next_line w))
      = {| line_x := floats [6563 # 1; 6563 # 1]; line_y := floats [0%Q; 20 # 1];
           style := {| color := Some "r"%string; marker := None;
                       linestyle := Some "--"%string |};
           markersize := None; visible := false |} /\
      checkboxes (world (cell_spectrum_lines w)) (next_checkbox w)
      = {| checked := false;
           checkbox_observers := [("value"%string, H_display_lines)] |} /\
      sliders (world (cell_spectrum_lines w)) (next_slider w)
      = {| value := 0; smin := 0; smax := Z.of_nat (length sp) - 1; step := 1;
           description := "Spectrum:";
           slider_observers := [("value"%string, H_new_spec)] |} /\
      displayed (world (cell_spectrum_lines w))
      = (displayed w
         ++ [ShowSlider (next_slider w); ShowCheckbox (next_checkbox w)])%list
  end.
Proof.
  pose proof (spectrum_figure_state w sp Hplt Hsp) as H1. cbv zeta in H1.
  unfold imported in *. unfold cell_spectrum_lines.
  destruct (selected_spectrum (env w) sp 1 0) as [ws|e] eqn:E.
  - destruct H1 as [Hres [Hg [Hf [Hfs [Ha [Has [Hl [Hls [Hnl [He [Hs [Hns [Hc [Hnc Hd]]]]]]]]]]]]]].
    pose proof (selected_spectrum_lengths _ _ _ _ _ E) as Hlen.
    pose proof (selected_spectrum_some _ _ _ _ _ E) as Hsome.
    rewrite (bind_ok _ _ _ _ Hres).
    set (W1 := world (spectrum_figure w)) in *. clearbody W1.
    autorewrite with run.
    long_run. expose_lib.
    erewrite bind_lib_ok.
    2:{ rewrite no_None_in_floats, andb_false_r. reflexivity. }
    rewrite bind_assign. lib_step.
    cut_world.
    assert (HWw : imported "widgets" W) by (unfold imported; bound).
    assert (HWsp : g_sp (globals W) = Some sp) by bound.
    destruct (spectrum_slider_state W sp HWw HWsp Hsome)
      as [Hsr [Hsl [_ [Hsd [Hsg [Hsf [Hsa [Hsli [Hsc Hsnc]]]]]]]]].
    cbv zeta in Hsr, Hsl, Hsd, Hsg, Hsf, Hsa, Hsli, Hsc, Hsnc.
    rewrite (bind_ok _ _ _ _ Hsr).
    set (W3 := world (spectrum_slider W)) in *. clearbody W3.
    assert (Hsl' : sliders W3 (next_slider w)
                   = {| value := 0; smin := 0; smax := n_max sp; step := 1;
                        description := "Spectrum:";
                        slider_observers := [("value"%string, H_new_spec)] |}).
    { rewrite <- Hsl. f_equal. symmetry. bound. }
    clear Hsl.
    use_step. lib_step. lib_step. erewrite bind_lib_ok by reflexivity.
    autorewrite with run. subst Post. cbv beta. settle.
    split; [reflexivity|]. split; [reflexivity|].
    split; [rewrite Hf; reflexivity|]. split; [exact Hfs|].
    split; [rewrite upd_same, Ha; reflexivity|]. split; [exact Hlen|].
    split; [rewrite !upd_other by lia; exact Hl|].
    split; [rewrite !upd_same; reflexivity|].
    split; [rewrite !upd_same; reflexivity|].
    split; [rewrite Hsl'; reflexivity|].
    rewrite <- app_assoc. reflexivity.
  - destruct H1 as [Hres Hw].
    rewrite (bind_failed _ _ _ _ Hres). world_simpl. rewrite Hw.
    split; reflexivity.
Qed.

Lemma cell_spectrum_lines_effect_witness :
  res (cell_spectrum_lines (session_with_spectra small_image)) = Ok 1%nat.
Proof.
  assert (Hplt : imported "plt" (session_with_spectra small_image))
    by (vm_compute; reflexivity).
  assert (Hwidgets : imported "widgets" (session_with_spectra small_image))
    by (vm_compute; reflexivity).
  assert (Hsp : g_sp (globals (session_with_spectra small_image))
                = Some [[spectrum_table; spectrum_table];
                        [spectrum_table; spectrum_table]])
    by (vm_compute; reflexivity).
  pose proof (cell_spectrum_lines_effect (session_with_spectra small_image) _
                Hplt Hwidgets Hsp) as H.
  destruct (selected_spectrum (env (session_with_spectra small_image))
              [[spectrum_table; spectrum_table];
               [spectrum_table; spectrum_table]] 1 0) as [ws|e] eqn:E.
  - destruct H as [H _]. rewrite H. vm_compute. reflexivity.
  - vm_compute in E. discriminate E.
Defined.

(** *** The cells of the imports *)

Lemma bind_import_ok {B : Type} (target name : string) (k : unit -> M B)
    (w : World) :
  import_error (env w) target = None ->
  bind (import_ target name) k w
  = after_calls [called Interpreter ("import " ++ target)]
      (k tt (with_globals (bind_name name (globals w)) w)).
Proof.
  intros H. unfold import_. erewrite bind_op_ok by (rewrite H; reflexivity).
  reflexivity.
Qed.

Lemma has_later (name other : string) (names : list string) :
  has name names = true -> has name (other :: names) = true.
Proof. unfold has. simpl. intros ->. apply orb_true_r. Qed.

(** X20. The cell of the imports, when no import fails, returns with the
    nine names [glob], [os], [sys], [np], [plt], [pyfits], [u], [SkyView]
    and [widgets] bound, keeps every name that was bound before, and
    changes nothing else: no figure, no data name, nothing printed. *)
Theorem imports_cell_effect (w : World)
    (Hok : forall target, import_error (env w) target = None) :
  res (cell_imports w) = Ok tt /\
  g_names (globals (world (cell_imports w)))
  = (["widgets"; "SkyView"; "u"; "pyfits"; "plt"; "np"; "sys"; "os"; "glob"]%string
     ++ g_names (globals w))%list /\
  (forall name,
     In name ["glob"; "os"; "sys"; "np"; "plt"; "pyfits"; "u"; "SkyView";
              "widgets"]%string ->
     imported name (world (cell_imports w))) /\
  (forall name, imported name w -> imported name (world (cell_imports w))) /\
  figure_state (world (cell_imports w)) = figure_state w /\
  g_image (globals (world (cell_imports w))) = g_image (globals w) /\
  g_fig (globals (world (cell_imports w))) = g_fig (globals w) /\
  printed (world (cell_imports w)) = printed w /\
  displayed (world (cell_imports w)) = displayed w.
Proof.
  assert (Hrun : res (cell_imports w) = Ok tt /\
                 world (cell_imports w)
                 = with_globals
                     (bind_name "widgets" (bind_name "SkyView" (bind_name "u"
                        (bind_name "pyfits" (bind_name "plt" (bind_name "np"
                           (bind_name "sys" (bind_name "os" (bind_name "glob"
                              (globals w)))))))))) w).
  { unfold cell_imports.
    do 8 (rewrite bind_import_ok by (world_simpl; apply Hok)).
    unfold import_. erewrite op_ok by (world_simpl; rewrite Hok; reflexivity).
    autorewrite with run. world_simpl. split; reflexivity. }
  destruct Hrun as [Hres Hw]. rewrite Hw. world_simpl.
  split; [exact Hres|]. split; [reflexivity|].
  split.
  { intros name Hin. unfold imported. world_simpl.
    simpl in Hin.
    repeat (destruct Hin as [<-|Hin]; [reflexivity|]). contradiction. }
  split.
  { intros name Hin. unfold imported in *. world_simpl.
    do 9 apply has_later. exact Hin. }
  repeat split; reflexivity.
Qed.

Lemma imports_cell_effect_witness :
  res (cell_imports (fresh_kernel (sample_env small_image))) = Ok tt.
Proof.
  exact (proj1 (imports_cell_effect (fresh_kernel (sample_env small_image))
                  (fun _ => eq_refl))).
Defined.

(** X21. The cell of the imports stops at the first import that fails.
    When [matplotlib.pyplot] cannot be imported and the four imports
    before it can, the cell raises that error with [glob], [os], [sys]
    and [np] bound and none of the later names; if [plt] was not bound
    before, the display cell then raises [NameError] at its first line
    and makes no figure. *)
Theorem imports_cell_stops_at_failure (w : World) (e : exn)
    (Hglob : import_error (env w) "glob" = None)
    (Hos : import_error (env w) "os" = None)
    (Hsys : import_error (env w) "sys" = None)
    (Hnumpy : import_error (env w) "numpy" = None)
    (Hfail : import_error (env w) "matplotlib.pyplot" = Some e) :
  res (cell_imports w) = Raise e /\
  world (cell_imports w)
  = with_globals
      (bind_name "np" (bind_name "sys" (bind_name "os" (bind_name "glob"
         (globals w))))) w /\
  (~ imported "plt" w ->
   res (cell_display (world (cell_imports w))) = Raise NameError /\
   world (cell_display (world (cell_imports w))) = world (cell_imports w)).
Proof.
  assert (Hrun : res (cell_imports w) = Raise e /\
                 world (cell_imports w)
                 = with_globals
                     (bind_name "np" (bind_name "sys" (bind_name "os"
                        (bind_name "glob" (globals w))))) w).
  { unfold cell_imports.
    do 4 (rewrite bind_import_ok by (world_simpl; assumption)).
    unfold import_.
    erewrite bind_op_raise by (world_simpl; rewrite Hfail; reflexivity).
    autorewrite with run. world_simpl. split; reflexivity. }
  destruct Hrun as [Hres Hw]. rewrite Hw.
  split; [exact Hres|]. split; [reflexivity|].
  intros Hplt. unfold imported in Hplt.
  destruct (has "plt" (g_names (globals w))) eqn:E; [congruence|].
  match goal with
  | |- res (cell_display ?W) = _ /\ _ =>
      assert (Hnd : res (new_display W) = Raise NameError /\
                    world (new_display W) = W)
  end.
  { unfold new_display. rewrite bind_use_unbound.
    - split; reflexivity.
    - world_simpl. unfold has in *. simpl. exact E. }
  destruct Hnd as [Hr Hnw].
  unfold cell_display. rewrite (bind_failed _ _ _ _ Hr). world_simpl.
  split; [reflexivity | exact Hnw].
Qed.

Lemma imports_cell_stops_at_failure_witness :
  res (cell_imports
         (fresh_kernel
            (without_module "matplotlib.pyplot" (sample_env small_image))))
  = Raise ModuleNotFoundError.
Proof.
  exact (proj1 (imports_cell_stops_at_failure
                  (fresh_kernel
                     (without_module "matplotlib.pyplot"
                        (sample_env small_image)))
                  ModuleNotFoundError eq_refl eq_refl eq_refl eq_refl eq_refl)).
Defined.

(** *** The cell that reports the versions *)

Lemma bind_version {B : Type} (name : string) (k : string -> M B) (w : World) :
  has name (g_names (globals w)) = true ->
  bind (module_version name) k w
  = after_calls [called Interpreter name] (k (version_of (env w) name) w).
Proof.
  intros H. unfold module_version.
  erewrite bind_op_ok by (rewrite H; reflexivity). reflexivity.
Qed.

Lemma bind_print {B : Type} (item : OutItem) (k : unit -> M B) (w : World) :
  bind (print item) k w
  = after_calls [called Library "print"] (k tt (world (print item w))).
Proof.
  unfold print at 1. unfold lib.
  erewrite bind_op_ok; [reflexivity|].
  unfold print, lib, op. destruct (capturing w); reflexivity.
Qed.

Lemma print_state (item : OutItem) (w : World) :
  res (print item w) = Ok tt /\
  printed (world (print item w)) = (printed w ++ [item])%list /\
  globals (world (print item w)) = globals w /\
  env (world (print item w)) = env w /\
  figure_state (world (print item w)) = figure_state w /\
  displayed (world (print item w)) = displayed w.
Proof.
  unfold print, lib, op, printed, figure_state; simpl.
  destruct (capturing w); simpl; repeat split; reflexivity.
Qed.

(** X22. The cell that reports the versions, when no import fails, binds
    the five module names and prints five lines, each a label and the
    version of its module, in the order Python, Astropy, Matplotlib,
    Astroquery, ipywidgets -- which is not the order of the imports.  It
    makes no figure. *)
Theorem versions_cell_effect (w : World)
    (Hok : forall target, import_error (env w) target = None) :
  res (cell_versions w) = Ok tt /\
  printed (world (cell_versions w))
  = (printed w
     ++ [Printed [Str (nl ++ " Python version: ");
                  Str (version_of (env w) "sys")];
         Printed [Str (nl ++ " Astropy version: ");
                  Str (version_of (env w) "astropy")];
         Printed [Str (nl ++ " Matplotlib version: ");
                  Str (version_of (env w) "matplotlib")];
         Printed [Str (nl ++ " Astroquery version: ");
                  Str (version_of (env w) "astroquery")];
         Printed [Str (nl ++ " ipywidgets version: ");
                  Str (version_of (env w) "ipywidgets")]])%list /\
  g_names (globals (world (cell_versions w)))
  = (["matplotlib"; "ipywidgets"; "astroquery"; "astropy"; "sys"]%string
     ++ g_names (globals w))%list /\
  figure_state (world (cell_versions w)) = figure_state w.
Proof.
  unfold cell_versions.
  do 5 (rewrite bind_import_ok by (world_simpl; apply Hok)).
  match goal with
  | |- context [bind _ _ ?T] =>
      set (W := T);
      assert (HWg : globals W
                    = bind_name "matplotlib" (bind_name "ipywidgets"
                        (bind_name "astroquery" (bind_name "astropy"
                           (bind_name "sys" (globals w))))))
        by reflexivity;
      assert (HWe : env W = env w) by reflexivity;
      assert (HWp : printed W = printed w) by reflexivity;
      assert (HWf : figure_state W = figure_state w) by reflexivity;
      clearbody W
  end.
  rewrite bind_version by (rewrite HWg; reflexivity).
  rewrite bind_print.
  destruct (print_state (Printed [Str (nl ++ " Python version: ");
                                  Str (version_of (env W) "sys")]) W)
    as [_ [Hp1 [Hg1 [He1 [Hf1 _]]]]].
  set (W1 := world (print _ W)) in *. clearbody W1.
  rewrite bind_version by (rewrite Hg1, HWg; reflexivity).
  rewrite bind_print.
  destruct (print_state (Printed [Str (nl ++ " Astropy version: ");
                                  Str (version_of (env W1) "astropy")]) W1)
    as [_ [Hp2 [Hg2 [He2 [Hf2 _]]]]].
  set (W2 := world (print _ W1)) in *. clearbody W2.
  rewrite bind_version by (rewrite Hg2, Hg1, HWg; reflexivity).
  rewrite bind_print.
  destruct (print_state (Printed [Str (nl ++ " Matplotlib version: ");
                                  Str (version_of (env W2) "matplotlib")]) W2)
    as [_ [Hp3 [Hg3 [He3 [Hf3 _]]]]].
  set (W3 := world (print _ W2)) in *. clearbody W3.
  rewrite bind_version by (rewrite Hg3, Hg2, Hg1, HWg; reflexivity).
  rewrite bind_print.
  destruct (print_state (Printed [Str (nl ++ " Astroquery version: ");
                                  Str (version_of (env W3) "astroquery")]) W3)
    as [_ [Hp4 [Hg4 [He4 [Hf4 _]]]]].
  set (W4 := world (print _ W3)) in *. clearbody W4.
  rewrite bind_version by (rewrite Hg4, Hg3, Hg2, Hg1, HWg; reflexivity).
  destruct (print_state (Printed [Str (nl ++ " ipywidgets version: ");
                                  Str (version_of (env W4) "ipywidgets")]) W4)
    as [Hr5 [Hp5 [Hg5 [He5 [Hf5 _]]]]].
  autorewrite with run.
  rewrite Hr5, Hp5, Hp4, Hp3, Hp2, Hp1, HWp.
  rewrite Hg5, Hg4, Hg3, Hg2, Hg1, HWg.
  rewrite Hf5, Hf4, Hf3, Hf2, Hf1, HWf.
  rewrite He4, He3, He2, He1, HWe.
  rewrite <- !app_assoc.
  split; [reflexivity|]. split; [reflexivity|]. split; reflexivity.
Qed.

Lemma versions_cell_effect_witness :
  res (cell_versions (fresh_kernel (sample_env small_image))) = Ok tt.
Proof.
  exact (proj1 (versions_cell_effect (fresh_kernel (sample_env small_image))
                  (fun _ => eq_refl))).
Defined.

(** *** The cell of the coordinates *)

(** X23. The cell that builds [co], with [coordinates] and [u] imported
    and [ra] and [dec] bound, binds [co] to the position [(ra, dec)]
    exactly when the declination is within [-90, 90] degrees, and changes
    nothing else; otherwise it raises [ValueError] and [co] is as it was.
    With the values of the cell before it, 148.969687 and 69.679383, it
    returns. *)
Theorem cell_co_effect (w : World) (ra dec : Q)
    (Hcoord : imported "coordinates" w) (Hu : imported "u" w)
    (Hra : g_ra (globals w) = Some ra)
    (Hdec : g_dec (globals w) = Some dec) :
  (if Qle_bool (-90 # 1) dec && Qle_bool dec (90 # 1)
   then res (cell_co w) = Ok tt /\
        world (cell_co w)
        = with_globals (set_co {| co_ra := ra; co_dec := dec |} (globals w)) w
   else res (cell_co w) = Raise ValueError /\ world (cell_co w) = w) /\
  res (cell_co (world (cell_ra_dec w))) = Ok tt /\
  g_co (globals (world (cell_co (world (cell_ra_dec w)))))
  = Some {| co_ra := 148969687 # 1000000; co_dec := 69679383 # 1000000 |}.
Proof.
  unfold imported in *. split.
  - unfold cell_co, skycoord. use_step. read_step. read_step.
    use_step. use_step.
    destruct (Qle_bool (-90 # 1) dec && Qle_bool dec (90 # 1)).
    + rewrite bind_pure_ok. autorewrite with run. split; reflexivity.
    + rewrite bind_pure_raise. split; reflexivity.
  - unfold cell_ra_dec, cell_co. world_simpl.
    use_step. read_step. read_step. use_step. use_step.
    change (skycoord (148969687 # 1000000) (69679383 # 1000000))
      with (Ok {| co_ra := 148969687 # 1000000;
                  co_dec := 69679383 # 1000000 |}).
    rewrite bind_pure_ok. autorewrite with run. split; reflexivity.
Qed.

Lemma cell_co_effect_witness :
  res (cell_co (world (cell_ra_dec
                 (world (cell_imports_sdss (session_with_image small_image))))))
  = Ok tt.
Proof.
  set (w := world (cell_ra_dec
                 (world (cell_imports_sdss (session_with_image small_image))))).
  assert (Hcoord : imported "coordinates" w) by (vm_compute; reflexivity).
  assert (Hu : imported "u" w) by (vm_compute; reflexivity).
  assert (Hra : g_ra (globals w) = Some (148969687 # 1000000))
    by (vm_compute; reflexivity).
  assert (Hdec : g_dec (globals w) = Some (69679383 # 1000000))
    by (vm_compute; reflexivity).
  destruct (cell_co_effect w _ _ Hcoord Hu Hra Hdec) as [H _].
  change (Qle_bool (-90 # 1) (69679383 # 1000000)
          && Qle_bool (69679383 # 1000000) (90 # 1)) with true in H.
  exact (proj1 H).
Defined.

(** *** The cell that plots one row, and short images *)

Lemma getitem_row_past_the_rows (a : ndarray) (zl xl : nat) (v : Z) :
  shape a = [zl; xl] -> Z.of_nat zl <= v ->
  ndarray_getitem_row a v = Raise IndexError.
Proof.
  intros Hs Hv. unfold ndarray_getitem_row, norm_index. rewrite Hs.
  destruct (0 <=? v) eqn:H0; destruct (v <? Z.of_nat zl) eqn:H1;
    destruct (- Z.of_nat zl <=? v) eqn:H2; destruct (v <? 0) eqn:H3;
    simpl; try reflexivity; lia.
Qed.

Lemma cell_slice_state (w : World) (image : ndarray) (zl xl : nat) :
  imported "plt" w -> g_image (globals w) = Some image ->
  shape image = [zl; xl] -> (150 < zl)%nat ->
  let o := cell_slice w in
  res o = Ok tt /\
  globals (world o) = set_p (next_ax w) (set_fig (next_fig w) (globals w)) /\
  figures (world o) (next_fig w) = set_fig_axes [next_ax w] empty_figure /\
  (forall f, f <> next_fig w -> figures (world o) f = figures w f) /\
  axes (world o) (next_ax w) = add_child (LineArtist (next_line w)) empty_axes /\
  (forall a, a <> next_ax w -> axes (world o) a = axes w a) /\
  lines (world o) (next_line w) = samples_line (row_of image xl 150) /\
  (forall l, l <> next_line w -> lines (world o) l = lines w l) /\
  sliders (world o) = sliders w /\ displayed (world o) = displayed w.
Proof.
  unfold imported. intros Hplt Himage Hs H150. cbv zeta.
  long_run.
  unfold cell_slice. expose_lib. read_step.
  rewrite (getitem_row_inside image zl xl 150 Hs) by lia.
  rewrite bind_pure_ok.
  use_step. lib_step. rewrite bind_assign.
  unfold new_axes. lib_step. rewrite bind_assign.
  cut_world.
  erewrite bind_lib_ok by reflexivity.
  unfold plot_columns. cbn [fold_left fst snd data].
  use_step. erewrite lib_ok by reflexivity.
  autorewrite with run. subst Post. cbv beta. settle.
  repeat (rewrite upd_same;
          cbn [fig_axes children set_fig_axes add_child empty_figure empty_axes
               app]).
  split; [reflexivity|]. split; [reflexivity|]. split; [reflexivity|].
  split. { intros f Hne. rewrite !upd_other by exact Hne. reflexivity. }
  split; [reflexivity|].
  split. { intros a Hne. rewrite !upd_other by exact Hne. reflexivity. }
  split; [reflexivity|].
  split. { intros l Hne. rewrite !upd_other by exact Hne. reflexivity. }
  split; reflexivity.
Qed.

Lemma cell_slider_short_image (w : World) (image : ndarray) (zl xl : nat) :
  imported "plt" w -> g_image (globals w) = Some image ->
  shape image = [zl; xl] -> (zl <= 150)%nat ->
  let o := cell_slider w in
  res o = Raise IndexError /\
  globals (world o) = set_p (next_ax w) (set_fig (next_fig w) (globals w)) /\
  figures (world o) (next_fig w) = set_fig_axes [next_ax w] empty_figure /\
  axes (world o) (next_ax w) = empty_axes /\
  lines (world o) = lines w /\
  sliders (world o) = sliders w /\ next_slider (world o) = next_slider w /\
  displayed (world o) = displayed w.
Proof.
  unfold imported. intros Hplt Himage Hs H150. cbv zeta.
  by_running.
  { unfold cell_slider. expose_lib. read_step.
    erewrite bind_op_ok.
    2:{ rewrite Hs. reflexivity. }
    cbn [fst]. use_step. lib_step. rewrite bind_assign.
    unfold new_axes. lib_step. rewrite bind_assign.
    rewrite (getitem_row_past_the_rows image zl xl 150 Hs) by lia.
    rewrite bind_pure_raise. reflexivity. }
  world_simpl.
  repeat (rewrite upd_same;
          cbn [fig_axes children set_fig_axes add_child empty_figure empty_axes
               app]).
  repeat split; reflexivity.
Qed.

(** X24. The cell that plots row 150, with [plt] imported and a
    two-dimensional image bound.  When the image has more than 150 rows
    the cell returns: [fig] and [p] are rebound to a new figure and its
    one axes, which holds one line, row 150 against the column
    positions -- the line the slider cell starts with -- and [line] is
    not rebound.  When the image has 150 rows or fewer, [image[150,:]]
    raises [IndexError]: this cell raises before it makes anything,
    whereas the slider cell raises after it has made its figure and
    rebound [fig] and [p], leaving an empty axes and no slider. *)
Theorem cell_slice_effect (w : World) (image : ndarray) (zl xl : nat)
    (Hplt : imported "plt" w) (Hwidgets : imported "widgets" w)
    (Himage : g_image (globals w) = Some image)
    (Hshape : shape image = [zl; xl]) :
  if (150 <? zl)%nat then
    res (cell_slice w) = Ok tt /\
    g_fig (globals (world (cell_slice w))) = Some (next_fig w) /\
    g_p (globals (world (cell_slice w))) = Some (next_ax w) /\
    g_line (globals (world (cell_slice w))) = g_line (globals w) /\
    fig_axes (figures (world (cell_slice w)) (next_fig w)) = [next_ax w] /\
    children (axes (world (cell_slice w)) (next_ax w))
    = [LineArtist (next_line w)] /\
    lines (world (cell_slice w)) (next_line w)
    = samples_line (row_of image xl 150) /\
    lines (world (cell_slice w)) (next_line w)
    = lines (world (cell_slider w)) (next_line w) /\
    displayed (world (cell_slice w)) = displayed w
  else
    (res (cell_slice w) = Raise IndexError /\ world (cell_slice w) = w) /\
    res (cell_slider w) = Raise IndexError /\
    g_fig (globals (world (cell_slider w))) = Some (next_fig w) /\
    g_p (globals (world (cell_slider w))) = Some (next_ax w) /\
    fig_axes (figures (world (cell_slider w)) (next_fig w)) = [next_ax w] /\
    children (axes (world (cell_slider w)) (next_ax w)) = [] /\
    next_slider (world (cell_slider w)) = next_slider w /\
    displayed (world (cell_slider w)) = displayed w.
Proof.
  destruct (150 <? zl)%nat eqn:E.
  - apply Nat.ltb_lt in E.
    destruct (cell_slice_state w image zl xl Hplt Himage Hshape E)
      as [Hres [Hg [Hf [_ [Ha [_ [Hl [_ [_ Hd]]]]]]]]].
    destruct (cell_slider_state w image zl xl Hplt Hwidgets Himage Hshape E)
      as [_ [_ [_ [_ [Hl' _]]]]].
    cbv zeta in *. rewrite Hg, Hf, Ha, Hl, Hl'.
    repeat split; try reflexivity; assumption.
  - apply Nat.ltb_ge in E.
    destruct (cell_slider_short_image w image zl xl Hplt Himage Hshape E)
      as [Hres [Hg [Hf [Ha [_ [_ [Hn Hd]]]]]]].
    cbv zeta in *. rewrite Hg, Hf, Ha.
    split.
    { unfold cell_slice. read_step.
      rewrite (getitem_row_past_the_rows image zl xl 150 Hshape) by lia.
      rewrite bind_pure_raise. split; reflexivity. }
    repeat split; try reflexivity; assumption.
Qed.

Lemma cell_slice_effect_witness :
  res (cell_slice (session_with_image small_image)) = Raise IndexError.
Proof.
  assert (Hplt : imported "plt" (session_with_image small_image))
    by (vm_compute; reflexivity).
  assert (Hwidgets : imported "widgets" (session_with_image small_image))
    by (vm_compute; reflexivity).
  assert (Himage : g_image (globals (session_with_image small_image))
                   = Some small_image) by (vm_compute; reflexivity).
  pose proof (cell_slice_effect (session_with_image small_image) small_image
                2 2 Hplt Hwidgets Himage eq_refl) as H.
  change (150 <? 2)%nat with false in H.
  exact (proj1 (proj1 H)).
Defined.

(** *** The cell that plots the first spectrum *)

(** X25. The cell that plots the first spectrum, with [plt] imported and
    [sp] bound.  When the first spectrum can be read it returns: [ext] is
    1, [fig] is a new figure whose one axes is labelled and holds one
    line, the flux against the wavelength, with as many x as y samples --
    and [line] is not rebound, so that the slider callbacks of earlier
    cells still act on the older line.  When it cannot be read
    ([IndexError] or [KeyError]) the cell raises that error and no figure
    is made. *)
Theorem cell_spectrum_effect (w : World) (sp : list (list Table))
    (Hplt : imported "plt" w)
    (Hsp : g_sp (globals w) = Some sp) :
  match selected_spectrum (env w) sp 1 0 with
  | Ok ws =>
      res (cell_spectrum w) = Ok tt /\
      globals (world (cell_spectrum w))
      = set_fig (next_fig w) (set_ext 1 (globals w)) /\
      fig_axes (figures (world (cell_spectrum w)) (next_fig w)) = [next_ax w] /\
      axes (world (cell_spectrum w)) (next_ax w)
      = {| children := [LineArtist (next_line w)];
           xlabel := "Wavelength [Angstroms]"; ylabel := "Flux" |} /\
      lines (world (cell_spectrum w)) (next_line w)
      = {| line_x := floats (fst ws); line_y := floats (snd ws);
           style := {| color := None; marker := None; linestyle := None |};
           markersize := None; visible := true |} /\
      length (fst ws) = length (snd ws) /\
      (forall l, l <> next_line w ->
         lines (world (cell_spectrum w)) l = lines w l)
  | Raise e =>
      res (cell_spectrum w) = Raise e /\
      figure_state (world (cell_spectrum w)) = figure_state w /\
      g_fig (globals (world (cell_spectrum w))) = g_fig (globals w)
  end.
Proof.
  unfold imported in *.
  destruct (selected_spectrum (env w) sp 1 0) as [ws|e] eqn:E.
  - pose proof (selected_spectrum_lengths _ _ _ _ _ E) as Hlen.
    revert E. unfold selected_spectrum, and_then.
    destruct (list_getitem sp 0) as [pf|e] eqn:Epf; [|discriminate].
    destruct (list_getitem pf 1) as [tab|e] eqn:Etab; [|discriminate].
    destruct (table_getitem tab "flux") as [spec|e] eqn:Espec; [|discriminate].
    destruct (table_getitem tab "loglam") as [loglam|e] eqn:Elog; [|discriminate].
    intros E. injection E as <-. cbn [fst snd] in *.
    long_run.
    unfold cell_spectrum. expose_lib. read_step.
    rewrite Epf, bind_pure_ok, bind_assign. read_step.
    rewrite Etab, !bind_pure_ok. rewrite Espec, bind_pure_ok.
    rewrite Elog, bind_pure_ok. lib_step.
    use_step. lib_step. rewrite bind_assign. unfold new_axes. lib_step.
    cut_world.
    erewrite bind_lib_ok.
    2:{ rewrite no_None_in_floats, andb_false_r.
        unfold floats. rewrite !length_map. unfold floats in Hlen.
        rewrite length_map in Hlen. rewrite Hlen, Nat.eqb_refl. reflexivity. }
    lib_step. erewrite lib_ok by reflexivity.
    autorewrite with run. subst Post. cbv beta. settle.
    repeat (rewrite upd_same;
            cbn [fig_axes children xlabel ylabel set_fig_axes add_child
                 empty_figure empty_axes app]).
    split; [reflexivity|]. split; [reflexivity|]. split; [reflexivity|].
    split; [reflexivity|]. split; [reflexivity|]. split; [exact Hlen|].
    intros l Hne. rewrite !upd_other by exact Hne. reflexivity.
  - revert E. unfold selected_spectrum, and_then, cell_spectrum. expose_lib.
    read_step.
    destruct (list_getitem sp 0) as [pf|e'];
      [rewrite bind_pure_ok
      | intros E; injection E as <-; rewrite bind_pure_raise;
        repeat split; reflexivity].
    rewrite bind_assign. read_step.
    destruct (list_getitem pf 1) as [tab|e'];
      [rewrite !bind_pure_ok
      | intros E; injection E as <-; rewrite bind_pure_raise;
        autorewrite with run; repeat split; reflexivity].
    destruct (table_getitem tab "flux") as [spec|e'];
      [rewrite bind_pure_ok
      | intros E; injection E as <-; rewrite bind_pure_raise;
        autorewrite with run; repeat split; reflexivity].
    destruct (table_getitem tab "loglam") as [loglam|e'];
      [discriminate
      | intros E; injection E as <-; rewrite bind_pure_raise;
        autorewrite with run; repeat split; reflexivity].
Qed.

Lemma cell_spectrum_effect_witness :
  res (cell_spectrum (session_with_spectra small_image)) = Ok tt.
Proof.
  assert (Hplt : imported "plt" (session_with_spectra small_image))
    by (vm_compute; reflexivity).
  assert (Hsp : g_sp (globals (session_with_spectra small_image))
                = Some [[spectrum_table; spectrum_table];
                        [spectrum_table; spectrum_table]])
    by (vm_compute; reflexivity).
  pose proof (cell_spectrum_effect (session_with_spectra small_image) _
                Hplt Hsp) as H.
  destruct (selected_spectrum (env (session_with_spectra small_image))
              [[spectrum_table; spectrum_table];
               [spectrum_table; spectrum_table]] 1 0) as [ws|e] eqn:E.
  - exact (proj1 H).
  - vm_compute in E. discriminate E.
Defined.

End InteractiveFacts.
